(* ===== verification/_CoqProject ===== *)
-Q . S2P
Prelude.v
Canvas.v
Chart.v
TradingChart.v
Particles.v
Timers.v
Form.v
Scene.v
FrameLoop.v
Loading.v
Navigation.v
Debounce.v
Interactive.v
Tween.v
JsNumber.v
GSAP.v
Lazy.v
SmoothScroll.v
App.v
