(* ===== verification/Prelude.v ===== *)
(** * Cosmic Economy: a verification development of [src/script.js]

    [src/script.js] is the client side of a marketing page: a three.js
    background (stars, four planets, a nebula, a parallax camera), two
    canvas charts, particle effects, a simulated contact form, a loading
    screen, navigation, hover effects and a debounce utility, all wired
    to DOM events, timers and animation frames.  There is no server and
    no persistent state; what can go wrong is the logic of the handlers
    and of their interleaving, and that is what is modelled.

    ** How the program is modelled

    JavaScript numbers are exact rationals ([Q]); where [NaN] can arise
    (the camera, fed by [window.mouseX] that may be [undefined]) they are
    [jsnum] ([JNum q | JNaN]) of this file, [NaN] absorbing every
    operation.  [Math.random] is an oracle ([Random]: the n-th draw of a
    run) with its range as a hypothesis ([RandomOk]); code that draws
    threads the index of the next draw through the monad [Rnd].
    [Math.sin] and [Math.cos] are the interface [Trig] with the laws
    [TrigOk]: values in [-1, 1], and functions of the number (equal
    rationals give equal results).  Closures given to timers and listeners are constructors of
    an inductive type holding what they captured.  The browser's
    schedulers and the canvas are models of their own (not code of the
    repository, and not mapped to it).

    ** Files, in dependency order ([_CoqProject])

    - [Prelude.v] (this file): numbers, oracles, the [Rnd] monad, the
      reflexive-transitive closure [star] with its invariant lemma, hint
      databases and the tactics [qnum] and [nat_tests].
    - [Canvas.v]: the 2D canvas context as the calls made and the paints
      they leave ([exec], [run], [visible]).
    - [Chart.v], [Module ChartRenderer]: [renderChart] (lines 567-630):
      20 random values, grid, polyline, glow re-stroke and markers.
    - [TradingChart.v], [Module TradingChartRenderer]:
      [renderTradingChart] (lines 632-674): the 50-candle random walk and
      its drawing on the fixed scale.
    - [Particles.v], [Module EffectEmitter]: [createParticleExplosion]
      and [createSuccessParticles] (lines 514-551, 817-855) on a page whose
      body is a [gmap] of particle nodes; each pending gsap tween removes
      its node when it completes, and [page_step] interleaves emissions
      and completions in any order.
    - [Timers.v], [Module Timers]: [setTimeout], [setInterval],
      [clearTimeout] on a virtual millisecond clock ([N]); [advance]
      fires the due timers earliest first, ties in the order set.
    - [Form.v], [Module FormHandling]: [initFormHandling] (lines 721-815),
      the focus/blur listeners and the submit listener with its two
      nested timers; [spec_run] is the spec's Idle/Sending/Sent machine.
    - [Scene.v], [Module SceneAnimator]: [init3DScene] and its helpers,
      the per-frame body of [animate] ([animate_frame]),
      [onWindowResize], the [mousemove] listener and
      [optimizePerformance] (lines 74-286, 858-873), over a heap of
      three.js objects shared by [scene.children] and [planets].
    - [FrameLoop.v], [Module FrameLoop]: the [requestAnimationFrame]
      chains of [animate] and Lenis's [raf], three.js's
      [setAnimationLoop] and the [visibilitychange] listener (lines
      246-247, 302-307, 914-921).
    - [Loading.v], [Module LoadingScreen]: [initLoadingScreen] and
      [hideLoadingScreen] (lines 44-72) on the scheduler of [Timers.v].
    - [Navigation.v], [Module Navigation]: [initNavigation] (lines
      677-718): menu toggle, in-page link clicks, scroll spy.
    - [Debounce.v], [Module Debounce]: the [debounce] utility (lines
      899-911) on the scheduler of [Timers.v].
    - [Interactive.v], [Module InteractiveElements]: the hover and
      call-to-action listeners of [initInteractiveElements] (lines
      438-512).
    - [Tween.v], [Module Tween]: gsap tweens, timelines with position
      parameters, and ScrollTrigger's regions and toggle actions, as the
      library documents them (a model of the collaborator, not mapped).
    - [JsNumber.v], [Module JsNumber]: [parseInt], [Math.round],
      [Math.ceil] and [toLocaleString] (built-ins, not mapped).
    - [GSAP.v], [Module GSAPAnimations]: [initGSAPAnimations] (lines
      311-435): the hero timeline, the five entrance tweens and the stat
      counters.
    - [Lazy.v], [Module LazyAnimations]: the IntersectionObserver of
      [optimizePerformance] (lines 875-892), with the browser's entry
      computation along the vertical axis.
    - [SmoothScroll.v], [Module SmoothScrolling]: the Lenis options and
      easing of [initSmoothScrolling] (lines 289-300) and the scroll
      animation of [lenis.scrollTo]; [Math.pow] is an interface [Pow2].
    - [App.v], [Module Bootstrap]: the page as a whole: the globals and
      the [optimizePerformance] timer at script load (lines 6-8, 896),
      [DOMContentLoaded] and [initializeApp] (lines 11-46), [initCharts]
      (lines 554-565), time passing, frames, visibility, pointer and
      resize events, over the product of the components' states.

    ** What the theorems show

    - Refinement: the form handler implements the spec's three-phase
      submission machine while submissions come only when idle
      ([form_refines_spec]); both particle emitters implement the spec's
      [emit] contract ([emit_contract], stated with its own parameters:
      [count] nodes at the element's centre, the i-th moving by a radius
      in the range towards angle [2 pi i / count]).
    - Invariants, by rule induction over every interleaving: particles
      and pending tweens come in pairs, so none outlives its tween; the
      scene heap stays well formed under frames, resizes, pointer moves
      and the mobile downscale; the loading bar stays in [0, 100] with its
      interval alive exactly while it is below 100; the [animate] chain is
      never lost.
    - Functional behaviour: the chart polyline, grid and markers; the
      candle walk and its OHLC invariant, and its fixed scale, which keeps
      the first nine candles on the canvas and lets every rising walk
      leave it from the fifteenth; the spec's submission scenario;
      a frame's effect on each planet; the camera's damped pursuit
      ((19/20)^n); the scroll spy; the debounce of a burst of calls.
    - Code bugs, each proved of the code: a second submission within 5 s
      leaves the button label stuck ([double_submit_sticks]); after the
      page is hidden and shown, [animate] runs k+2 times in the k-th frame
      ([visibility_restore_multiplies]); the camera becomes [NaN] for
      good when no [mousemove] came before the end of loading
      ([camera_nan_forever]); on mobile two planets stay in the scene,
      frozen ([optimize_mobile_frozen]); the star reduction mixes
      coordinates of different stars; the planet hover turns only once;
      on a phone, the downscale is lost when [DOMContentLoaded] comes
      more than 1 s after the script ([optimize_race]); the
      IntersectionObserver's 0.1 threshold does not decide which elements
      get [in-view] ([in_view_exactly_touched]).
    - Composition and library configuration: the page reaches each
      component's initial state through [initializeApp]; every entrance
      animation plays exactly while the page is past its trigger's start,
      whatever the scroll path; the stat counters count up to their
      [data-target] without overshoot; the hero intro's layout; every
      Lenis [scrollTo] moves monotonically onto its target.

    ** Bounds and fuel

    Timer runs take fuel.  The form gives a wait [2 * pending + 1]
    callbacks, enough because a pending [SentCb] runs two callbacks and
    a [ResetCb] one ([run_wait_drains] in [Form.v]); the debounce gives one per
    pending timer plus one, and its only callback sets no timer; the
    loading theorems hold for any fuel.  The starfield has 30000
    coordinates ([starCount * 3]): the theorems about [init3DScene] keep
    them symbolic, and witnesses run on a scene without stars.  Where an
    aspect ratio is computed, [innerHeight] is taken non-zero ([Q]
    division by zero gives 0, not [Infinity]).

    ** Not modelled

    WebGL rendering, shaders and lights beyond their place in the scene;
    the horizontal axis of the IntersectionObserver; the pixels the gsap
    tweens write between their start and end values (only their timing,
    direction and the counters' text are modelled); Lenis's wheel and
    touch smoothing ([duration: 1.2] and the multipliers are recorded,
    not run); [gsap.registerPlugin], which has no state; and the
    CommonJS export (lines 923-931), dead code in a browser.  The
    [optimizePerformance] timer is kept apart from the loading screen's
    timers in [App.v], justified by [optimize_set_loading]. *)

From Stdlib Require Import QArith Qminmax Qabs Lqa String NArith.
From stdpp Require Import base list.

Local Open Scope Q_scope.

(** ** Scope *)

Declare Scope js_scope.
Delimit Scope js_scope with js.

(** ** JavaScript numbers

    Finite JS numbers are idealised as exact rationals (no rounding).
    [NaN] is kept where the code can reach it: [undefined] coerced to a
    number gives [NaN], and [NaN] absorbs every arithmetic operation. *)

Inductive jsnum : Type :=
| JNum (q : Q)
| JNaN.

Definition js_lift2 (f : Q -> Q -> Q) (a b : jsnum) : jsnum :=
  match a, b with
  | JNum x, JNum y => JNum (f x y)
  | _, _ => JNaN
  end.

Definition js_add := js_lift2 Qplus.
Definition js_sub := js_lift2 Qminus.
Definition js_mul := js_lift2 Qmult.

(** [Number(v)] for a value that is a number or [undefined]. *)
Definition js_of_undef (o : option Q) : jsnum :=
  match o with Some q => JNum q | None => JNaN end.

Definition is_nan (a : jsnum) : bool :=
  match a with JNaN => true | JNum _ => false end.

Notation "a +! b" := (js_add a b) (at level 50, left associativity) : js_scope.
Notation "a -! b" := (js_sub a b) (at level 50, left associativity) : js_scope.
Notation "a *! b" := (js_mul a b) (at level 40, left associativity) : js_scope.

(** [Math.PI] is the double nearest to pi, an exact dyadic rational. *)
Definition math_PI : Q := 884279719003555 # 281474976710656.

(** ** [Math.random] as an oracle

    The n-th call of [Math.random()] in a run returns [math_random n].
    The interface the code relies on is the range [0 <= r < 1]. *)

Class Random := math_random : nat -> Q.

Class RandomOk `{Random} :=
  random_range : forall n, 0 <= math_random n /\ math_random n < 1.

(** [Math.sin] and [Math.cos] as an interface with their bounds. *)

Class Trig := { js_sin : Q -> Q; js_cos : Q -> Q }.

Class TrigOk `{Trig} := {
  sin_bound : forall x, -1 <= js_sin x /\ js_sin x <= 1;
  cos_bound : forall x, -1 <= js_cos x /\ js_cos x <= 1;
  sin_compat : forall x y, x == y -> js_sin x == js_sin y;   (** a function of the value *)
  cos_compat : forall x y, x == y -> js_cos x == js_cos y
}.

(** ** The random-draw state monad

    Code that calls [Math.random] threads the index of the next draw. *)

Definition Rnd (A : Type) : Type := nat -> A * nat.

Definition rnd_ret {A} (a : A) : Rnd A := fun n => (a, n).

Definition rnd_bind {A B} (c : Rnd A) (k : A -> Rnd B) : Rnd B :=
  fun n => let '(a, n') := c n in k a n'.

Definition random `{Random} : Rnd Q := fun n => (math_random n, S n).

Notation "'do' x <- c ; k" := (rnd_bind c (fun x => k))
  (at level 60, x name, c at next level, right associativity) : js_scope.

Open Scope js_scope.

(** [for (let i = 0; i < n; i++) out.push(f(Math.random()))] *)
Fixpoint rnd_repeat `{Random} {A} (n : nat) (f : Q -> A) : Rnd (list A) :=
  match n with
  | O => rnd_ret []
  | S n' => do r <- random; do rest <- rnd_repeat n' f; rnd_ret (f r :: rest)
  end.

(** [xs.forEach(x => f(x))] for an [f] that draws. *)
Fixpoint rnd_map {A B} (f : A -> Rnd B) (xs : list A) : Rnd (list B) :=
  match xs with
  | [] => rnd_ret []
  | x :: xs' => do b <- f x; do bs <- rnd_map f xs'; rnd_ret (b :: bs)
  end.

(** ** Automation *)

Create HintDb js.
Create Rewrite HintDb js_nan.

(** Close a goal of concrete rational comparisons by evaluation. *)
Ltac qnum :=
  repeat split;
  vm_compute;
  first [reflexivity | let H := fresh in intro H; discriminate H].

Ltac unfold_rnd := unfold rnd_bind, rnd_ret, random in *.

(** ** Shared lemmas *)

Section RndLemmas.
Context `{Random}.

Lemma rnd_repeat_length {A} n (f : Q -> A) k :
  length (fst (rnd_repeat n f k)) = n.
Proof.
  revert k; induction n as [|n IH]; intros k; [reflexivity|].
  simpl; unfold rnd_bind; simpl.
  destruct (rnd_repeat n f (S k)) as [l k'] eqn:E; simpl.
  specialize (IH (S k)); rewrite E in IH; simpl in IH; lia.
Qed.

Lemma rnd_repeat_counter {A} n (f : Q -> A) k :
  snd (rnd_repeat n f k) = (k + n)%nat.
Proof.
  revert k; induction n as [|n IH]; intros k; simpl; [lia|].
  unfold rnd_bind; simpl.
  destruct (rnd_repeat n f (S k)) as [l k'] eqn:E; simpl.
  specialize (IH (S k)); rewrite E in IH; simpl in IH; lia.
Qed.

(** Every value drawn by [rnd_repeat] is [f] of a draw. *)
Lemma rnd_repeat_forall {A} (P : A -> Prop) n (f : Q -> A) k :
  (forall m, P (f (math_random m))) ->
  Forall P (fst (rnd_repeat n f k)).
Proof.
  intros HP; revert k; induction n as [|n IH]; intros k; simpl; [constructor|].
  unfold rnd_bind; simpl.
  destruct (rnd_repeat n f (S k)) as [l k'] eqn:E; simpl.
  constructor; [apply HP|]. specialize (IH (S k)); rewrite E in IH; exact IH.
Qed.

(** The i-th value of [rnd_repeat] is [f] of draw [k + i]. *)
Lemma rnd_repeat_nth {A} n (f : Q -> A) k i :
  (i < n)%nat -> fst (rnd_repeat n f k) !! i = Some (f (math_random (k + i))).
Proof.
  revert k i; induction n as [|n IH]; intros k i Hi; [lia|].
  simpl; unfold rnd_bind; simpl.
  destruct (rnd_repeat n f (S k)) as [l k'] eqn:E; simpl.
  destruct i as [|i]; simpl; [by rewrite Nat.add_0_r|].
  specialize (IH (S k) i ltac:(lia)); rewrite E in IH; simpl in IH.
  by rewrite IH, Nat.add_succ_r.
Qed.

End RndLemmas.

Lemma js_add_nan_l b : JNaN +! b = JNaN.
Proof. reflexivity. Qed.

Lemma js_add_nan_r a : a +! JNaN = JNaN.
Proof. destruct a; reflexivity. Qed.

Lemma js_mul_nan_l b : JNaN *! b = JNaN.
Proof. reflexivity. Qed.

Lemma js_mul_nan_r a : a *! JNaN = JNaN.
Proof. destruct a; reflexivity. Qed.

Lemma js_sub_nan_l b : JNaN -! b = JNaN.
Proof. reflexivity. Qed.

Lemma js_sub_nan_r a : a -! JNaN = JNaN.
Proof. destruct a; reflexivity. Qed.

#[export] Hint Rewrite js_add_nan_l js_add_nan_r js_mul_nan_l js_mul_nan_r
  js_sub_nan_l js_sub_nan_r : js_nan.

(** Bounds on an affine image of a draw. *)
Lemma affine_draw_bounds (r a b : Q) :
  0 <= r < 1 -> 0 <= a -> b <= r * a + b /\ r * a + b <= a + b.
Proof. intros [H0 H1] Ha. split; nra. Qed.

Lemma Qle_bool_false (a b : Q) : Qle_bool a b = false -> b < a.
Proof. intros H. apply Qnot_le_lt. intros Hle. apply Qle_bool_iff in Hle. congruence. Qed.

(** Case on a test [Qle_bool a b] of the goal, with its meaning as hypothesis. *)
Ltac qle_case a b :=
  let E := fresh "E" in
  destruct (Qle_bool a b) eqn:E; [apply Qle_bool_iff in E | apply Qle_bool_false in E].

(** Scaling by a non-negative factor keeps the order (interpolations). *)
Lemma Qmult_le_mono_nonneg_l (w e1 e2 : Q) : 0 <= w -> e1 <= e2 -> w * e1 <= w * e2.
Proof. intros Hw He. nra. Qed.

Lemma Qmax_ge_l' (a b : Q) : a <= Qmax a b.
Proof. apply Q.le_max_l. Qed.

Lemma Qmax_ge_r' (a b : Q) : b <= Qmax a b.
Proof. apply Q.le_max_r. Qed.

Lemma Qmin_le_l' (a b : Q) : Qmin a b <= a.
Proof. apply Q.le_min_l. Qed.

Lemma Qmin_le_r' (a b : Q) : Qmin a b <= b.
Proof. apply Q.le_min_r. Qed.

#[export] Hint Resolve Qmax_ge_l' Qmax_ge_r' Qmin_le_l' Qmin_le_r' : js.

(** ** A concrete oracle, for running the model on examples

    Draw [n] is [(n mod 4) / 4]: 0, 1/4, 1/2, 3/4, 0, ... *)

Definition quarter_random : Random := fun n => inject_Z (Z.of_nat (n mod 4)) * (1 # 4).

Lemma quarter_random_ok : @RandomOk quarter_random.
Proof.
  intros n. unfold math_random, quarter_random.
  pose proof (Nat.mod_upper_bound n 4 ltac:(lia)) as Hb.
  assert (Hq : 0 <= inject_Z (Z.of_nat (n mod 4)) <= 3).
  { split; [change 0 with (inject_Z 0)|change 3 with (inject_Z 3)];
      rewrite <- Zle_Qle; lia. }
  split; lra.
Qed.

(** ** Naturals seen as rationals *)

Lemma Q_of_nat_S (n : nat) : inject_Z (Z.of_nat (S n)) == inject_Z (Z.of_nat n) + 1.
Proof. rewrite Nat2Z.inj_succ, <- Z.add_1_r, inject_Z_plus. reflexivity. Qed.

Lemma Q_of_nat_nonneg (n : nat) : 0 <= inject_Z (Z.of_nat n).
Proof. change 0 with (inject_Z 0). rewrite <- Zle_Qle. lia. Qed.

Lemma Q_of_nat_le (n m : nat) : (n <= m)%nat -> inject_Z (Z.of_nat n) <= inject_Z (Z.of_nat m).
Proof. intros. rewrite <- Zle_Qle. lia. Qed.

#[export] Hint Resolve Q_of_nat_nonneg : js.

(** ** Reflexive-transitive closure of a step relation *)

Lemma existsb_ext {A} (f g : A -> bool) (l : list A) :
  (forall x, f x = g x) -> existsb f l = existsb g l.
Proof. intros H. induction l as [|x l IH]; cbn; [done|]. by rewrite H, IH. Qed.

Section Star.
Context {A : Type} (R : A -> A -> Prop).

Inductive star : A -> A -> Prop :=
| star_refl a : star a a
| star_step a b c : R a b -> star b c -> star a c.

Lemma star_one a b : R a b -> star a b.
Proof. intros H. eapply star_step; [exact H|constructor]. Qed.

Lemma star_trans a b c : star a b -> star b c -> star a c.
Proof. induction 1; [done|]. intros. eapply star_step; eauto. Qed.

(** An invariant of every step holds along every sequence of steps. *)
Lemma star_inv (P : A -> Prop) :
  (forall a b, P a -> R a b -> P b) -> forall a b, star a b -> P a -> P b.
Proof. intros Hstep a b Hs. induction Hs; eauto. Qed.

End Star.

Arguments star {A} R _ _.
#[export] Hint Constructors star : js.

(** A degenerate [Math.sin]/[Math.cos] (constant 0 and 1), only for
    running examples of the model; it satisfies the interface bounds. *)
Definition flat_trig : Trig := {| js_sin := fun _ => 0; js_cos := fun _ => 1 |}.

Lemma flat_trig_ok : @TrigOk flat_trig.
Proof. split; intros; simpl; qnum. Qed.

(** Decide the boolean comparisons and maxima on [nat] and [N] in the goal
    from the hypotheses, with lia (clock arithmetic of the timers). *)
Ltac nat_tests :=
  repeat match goal with
  | |- context [Nat.leb ?a ?b] =>
      first [rewrite (proj2 (Nat.leb_le a b)) by lia | rewrite (proj2 (Nat.leb_gt a b)) by lia]
  | |- context [Nat.ltb ?a ?b] =>
      first [rewrite (proj2 (Nat.ltb_lt a b)) by lia | rewrite (proj2 (Nat.ltb_ge a b)) by lia]
  | |- context [Nat.max ?a ?b] =>
      first [rewrite (Nat.max_r a b) by lia | rewrite (Nat.max_l a b) by lia]
  | |- context [N.leb ?a ?b] =>
      first [rewrite (proj2 (N.leb_le a b)) by lia | rewrite (proj2 (N.leb_gt a b)) by lia]
  | |- context [N.ltb ?a ?b] =>
      first [rewrite (proj2 (N.ltb_lt a b)) by lia | rewrite (proj2 (N.ltb_ge a b)) by lia]
  | |- context [N.max ?a ?b] =>
      first [rewrite (N.max_r a b) by lia | rewrite (N.max_l a b) by lia]
  | |- context [N.eqb ?a ?b] =>
      first [rewrite (proj2 (N.eqb_eq a b)) by lia | rewrite (proj2 (N.eqb_neq a b)) by lia]
  | |- context [Nat.eqb ?a ?b] =>
      first [rewrite (proj2 (Nat.eqb_eq a b)) by lia | rewrite (proj2 (Nat.eqb_neq a b)) by lia]
  end.
