(* ===== verification/Canvas.v ===== *)
(** * The canvas 2D context, as the chart renderers use it

    This is the collaborator of [renderChart] and [renderTradingChart]
    in [src/script.js]: the subset of the HTML [CanvasRenderingContext2D]
    they call.  A call is a [cmd]; [exec] gives its effect on the context
    state: the drawing-state attributes, the current path, and the list
    of paint operations applied to the bitmap so far.  This is a model of
    the browser API, not of code of the repository. *)

From Stdlib Require Import QArith Qminmax Lqa String.
From stdpp Require Import base list.
From S2P Require Import Prelude.

Local Open Scope Q_scope.

Record point : Type := Pt { px : Q; py : Q }.

(** Segments of the current path, in the order they were added. *)
Inductive seg : Type :=
| SMove (p : point)
| SLine (p : point)
| SArc (c : point) (r a0 a1 : Q).

(** Operations that reach the bitmap, with the drawing state they used. *)
Inductive paint : Type :=
| PClear (x y w h : Q)
| PStroke (path : list seg) (style : string) (width : Q) (shadow : string) (blur : Q)
| PFill (path : list seg) (style : string) (shadow : string) (blur : Q)
| PFillRect (x y w h : Q) (style : string) (shadow : string) (blur : Q).

(** Calls on the context ([ctx.f(...)] or [ctx.attr = v]). *)
Inductive cmd : Type :=
| ClearRect (x y w h : Q)
| BeginPath
| MoveTo (x y : Q)
| LineTo (x y : Q)
| Arc (x y r a0 a1 : Q)
| Stroke
| Fill
| FillRect (x y w h : Q)
| SetStrokeStyle (s : string)
| SetFillStyle (s : string)
| SetLineWidth (w : Q)
| SetShadowColor (s : string)
| SetShadowBlur (b : Q).

Record ctx : Type := Ctx {
  strokeStyle : string;
  fillStyle : string;
  lineWidth : Q;
  shadowColor : string;
  shadowBlur : Q;
  c_path : list seg;
  c_paints : list paint
}.

Definition set_path (c : ctx) (p : list seg) : ctx :=
  Ctx (strokeStyle c) (fillStyle c) (lineWidth c) (shadowColor c) (shadowBlur c) p (c_paints c).

Definition add_paint (c : ctx) (q : paint) : ctx :=
  Ctx (strokeStyle c) (fillStyle c) (lineWidth c) (shadowColor c) (shadowBlur c)
      (c_path c) (c_paints c ++ [q]).

Definition exec (c : ctx) (m : cmd) : ctx :=
  match m with
  | ClearRect x y w h => add_paint c (PClear x y w h)
  | BeginPath => set_path c []
  | MoveTo x y => set_path c (c_path c ++ [SMove (Pt x y)])
  | LineTo x y => set_path c (c_path c ++ [SLine (Pt x y)])
  | Arc x y r a0 a1 => set_path c (c_path c ++ [SArc (Pt x y) r a0 a1])
  | Stroke => add_paint c (PStroke (c_path c) (strokeStyle c) (lineWidth c)
                                   (shadowColor c) (shadowBlur c))
  | Fill => add_paint c (PFill (c_path c) (fillStyle c) (shadowColor c) (shadowBlur c))
  | FillRect x y w h => add_paint c (PFillRect x y w h (fillStyle c) (shadowColor c) (shadowBlur c))
  | SetStrokeStyle s => Ctx s (fillStyle c) (lineWidth c) (shadowColor c) (shadowBlur c) (c_path c) (c_paints c)
  | SetFillStyle s => Ctx (strokeStyle c) s (lineWidth c) (shadowColor c) (shadowBlur c) (c_path c) (c_paints c)
  | SetLineWidth w => Ctx (strokeStyle c) (fillStyle c) w (shadowColor c) (shadowBlur c) (c_path c) (c_paints c)
  | SetShadowColor s => Ctx (strokeStyle c) (fillStyle c) (lineWidth c) s (shadowBlur c) (c_path c) (c_paints c)
  | SetShadowBlur b => Ctx (strokeStyle c) (fillStyle c) (lineWidth c) (shadowColor c) b (c_path c) (c_paints c)
  end.

Definition run (c : ctx) (ms : list cmd) : ctx := fold_left exec ms c.

(** A freshly obtained context: the defaults of the HTML specification. *)
Definition fresh_ctx : ctx :=
  Ctx "#000000" "#000000" 1 "rgba(0, 0, 0, 0)" 0 [] [].

(** What is visible on a [w] x [h] bitmap: the paints after the last
    [clearRect] covering all of it. *)
Definition covers (w h : Q) (q : paint) : bool :=
  match q with
  | PClear x y cw ch => Qle_bool x 0 && Qle_bool y 0 && Qle_bool w (x + cw) && Qle_bool h (y + ch)
  | _ => false
  end.

Fixpoint visible (w h : Q) (ps : list paint) : list paint :=
  match ps with
  | [] => []
  | q :: rest =>
      if covers w h q || existsb (covers w h) rest then visible w h rest
      else q :: visible w h rest
  end.

(** ** Lemmas on running command lists *)

Lemma run_app c l1 l2 : run c (l1 ++ l2) = run (run c l1) l2.
Proof. unfold run. apply fold_left_app. Qed.

Lemma run_cons c m l : run c (m :: l) = run (exec c m) l.
Proof. reflexivity. Qed.

Lemma run_nil c : run c [] = c.
Proof. reflexivity. Qed.

Create Rewrite HintDb canvas.
#[export] Hint Rewrite run_app run_cons run_nil : canvas.

(** Commands that only extend the current path. *)
Definition path_cmd (m : cmd) : option seg :=
  match m with
  | MoveTo x y => Some (SMove (Pt x y))
  | LineTo x y => Some (SLine (Pt x y))
  | Arc x y r a0 a1 => Some (SArc (Pt x y) r a0 a1)
  | _ => None
  end.

Lemma run_path_cmds c ms segs :
  Forall2 (fun m s => path_cmd m = Some s) ms segs ->
  run c ms = set_path c (c_path c ++ segs).
Proof.
  intros HF; revert c; induction HF as [|m s ms segs Hm HF IH]; intros c.
  - destruct c; simpl. unfold set_path; simpl. by rewrite app_nil_r.
  - rewrite run_cons, IH.
    destruct m; simpl in Hm; try discriminate; injection Hm as <-;
      unfold set_path; simpl; by rewrite <- app_assoc.
Qed.
