(* ===== verification/Chart.v ===== *)
(** * ChartRenderer: [renderChart] (src/script.js, lines 567-630)

    [renderChart] draws onto the canvas context of [Canvas.v] a grid, a
    polyline through 20 random values and a marker on each point.  The
    random values are the draws of the [Math.random] oracle ([Prelude]);
    the function returns the list of context calls it makes, in order.
    The theorems give the exact paint operations of a render, the shape of
    the polyline, the grid, and that a render repaints the whole bitmap. *)

From Stdlib Require Import QArith Qminmax Lqa String.
From stdpp Require Import base list.
From S2P Require Import Prelude Canvas.

Local Open Scope Q_scope.
Local Open Scope js_scope.

Module ChartRenderer.

Section Render.
Context `{Random}.

(** [const dataPoints = 20; data.push(Math.random() * 0.8 + 0.1)] *)
Definition dataPoints : nat := 20.

Definition gen_chart_data : Rnd (list Q) :=
  rnd_repeat dataPoints (fun r => r * (8 # 10) + (1 # 10)).

(** [for (let i = 0; i <= 4; i++)]: one horizontal line at [height / 4 * i]. *)
Definition grid_y (h : Q) (i : nat) : Q := (h / 4) * inject_Z (Z.of_nat i).

Definition grid_line (w h : Q) (i : nat) : list cmd :=
  [BeginPath; MoveTo 0 (grid_y h i); LineTo w (grid_y h i); Stroke].

Definition draw_grid (w h : Q) : list cmd :=
  [SetStrokeStyle "rgba(0, 212, 255, 0.1)"; SetLineWidth 1]
    ++ flat_map (grid_line w h) (seq 0 5).

(** [x = (width / (data.length - 1)) * i], [y = height - data[i] * height] *)
Definition chart_x (w : Q) (len i : nat) : Q :=
  (w / inject_Z (Z.of_nat len - 1)) * inject_Z (Z.of_nat i).

Definition chart_y (h d : Q) : Q := h - d * h.

(** The polyline loop: [moveTo] for [i === 0], [lineTo] otherwise. *)
Fixpoint line_path (w h : Q) (len : nat) (data : list Q) (i : nat) : list cmd :=
  match data with
  | [] => []
  | d :: ds =>
      (if Nat.eqb i 0 then MoveTo (chart_x w len i) (chart_y h d)
       else LineTo (chart_x w len i) (chart_y h d))
        :: line_path w h len ds (S i)
  end.

(** The marker loop: one filled circle of radius 3 per point. *)
Fixpoint marker_cmds (w h : Q) (len : nat) (data : list Q) (i : nat) : list cmd :=
  match data with
  | [] => []
  | d :: ds =>
      [BeginPath; Arc (chart_x w len i) (chart_y h d) 3 0 (math_PI * 2); Fill]
        ++ marker_cmds w h len ds (S i)
  end.

Definition renderChart (w h : Q) : Rnd (list cmd) :=
  do data <- gen_chart_data;
  rnd_ret ([ClearRect 0 0 w h]
             ++ draw_grid w h
             ++ [SetStrokeStyle "#00d4ff"; SetLineWidth 2; BeginPath]
             ++ line_path w h (length data) data 0
             ++ [Stroke;
                 SetShadowColor "#00d4ff"; SetShadowBlur 10; Stroke;
                 SetShadowBlur 0;
                 SetFillStyle "#00d4ff"]
             ++ marker_cmds w h (length data) data 0).

End Render.

(** ** The painted result, stated without the command list *)

Fixpoint chart_points (w h : Q) (len : nat) (data : list Q) (i : nat) : list point :=
  match data with
  | [] => []
  | d :: ds => Pt (chart_x w len i) (chart_y h d) :: chart_points w h len ds (S i)
  end.

Definition polyline (pts : list point) : list seg :=
  match pts with
  | [] => []
  | p :: ps => SMove p :: map SLine ps
  end.

Definition grid_segs (w h : Q) (i : nat) : list seg :=
  [SMove (Pt 0 (grid_y h i)); SLine (Pt w (grid_y h i))].

Definition grid_paints (w h : Q) (sc : string) (sb : Q) : list paint :=
  map (fun i => PStroke (grid_segs w h i) "rgba(0, 212, 255, 0.1)" 1 sc sb) (seq 0 5).

Definition markers (fs sc : string) (sb : Q) (pts : list point) : list paint :=
  map (fun p => PFill [SArc p 3 0 (math_PI * 2)] fs sc sb) pts.

(** The drawing-state attributes of a context. *)
Definition dstate (c : ctx) : string * string * Q * string * Q :=
  (strokeStyle c, fillStyle c, lineWidth c, shadowColor c, shadowBlur c).

(** ** Lemmas on the loops of [renderChart] *)

Lemma line_path_later w h len data i :
  Forall2 (fun m s => path_cmd m = Some s)
          (line_path w h len data (S i)) (map SLine (chart_points w h len data (S i))).
Proof.
  revert i; induction data as [|d ds IH]; intros i; simpl; constructor; [done|].
  apply IH.
Qed.

Lemma line_path_polyline w h len data :
  Forall2 (fun m s => path_cmd m = Some s)
          (line_path w h len data 0) (polyline (chart_points w h len data 0)).
Proof. destruct data as [|d ds]; simpl; constructor; [done|apply line_path_later]. Qed.

Lemma run_markers w h len data i c :
  dstate (run c (marker_cmds w h len data i)) = dstate c /\
  c_paints (run c (marker_cmds w h len data i)) =
    c_paints c ++ markers (fillStyle c) (shadowColor c) (shadowBlur c)
                          (chart_points w h len data i).
Proof.
  revert i c; induction data as [|d ds IH]; intros i c; cbn [marker_cmds chart_points].
  { split; [done|by rewrite app_nil_r]. }
  rewrite run_app.
  destruct (IH (S i) (run c [BeginPath; Arc (chart_x w len i) (chart_y h d) 3 0 (math_PI * 2); Fill]))
    as [H1 H2].
  split; [exact H1|]. rewrite H2. simpl. by rewrite <- app_assoc.
Qed.

Lemma chart_points_length w h len data i : length (chart_points w h len data i) = length data.
Proof. revert i; induction data; intros i; simpl; auto. Qed.

Lemma chart_points_lookup w h len data i j d :
  data !! j = Some d -> chart_points w h len data i !! j = Some (Pt (chart_x w len (i + j)) (chart_y h d)).
Proof.
  revert i j; induction data as [|d' ds IH]; intros i j Hj; [done|].
  destruct j as [|j]; simpl in *.
  - injection Hj as ->. by rewrite Nat.add_0_r.
  - rewrite (IH (S i) j Hj). by rewrite Nat.add_succ_r.
Qed.

(** A paint operation with the shadow ignored when the blur is zero:
    such a shadow is not drawn. *)
Definition norm_paint (q : paint) : paint :=
  match q with
  | PStroke p st lw sc sb => if Qeq_bool sb 0 then PStroke p st lw "" 0 else q
  | PFill p fs sc sb => if Qeq_bool sb 0 then PFill p fs "" 0 else q
  | PFillRect x y w h fs sc sb => if Qeq_bool sb 0 then PFillRect x y w h fs "" 0 else q
  | PClear _ _ _ _ => q
  end.

Definition is_grid_stroke (q : paint) : bool :=
  match q with
  | PStroke _ st _ _ _ => String.eqb st "rgba(0, 212, 255, 0.1)"
  | _ => false
  end.

Lemma visible_after_clear w h ps q rest :
  covers w h q = true -> existsb (covers w h) rest = false ->
  visible w h (ps ++ [q] ++ rest) = rest.
Proof.
  intros Hq Hr. change ([q] ++ rest) with (q :: rest). induction ps as [|p ps IH]; simpl.
  - rewrite Hq. simpl. clear Hq. induction rest as [|r rest IHr]; simpl in *; [done|].
    apply orb_false_iff in Hr as [-> Hr]. rewrite Hr. simpl. by rewrite IHr.
  - rewrite IH, existsb_app. simpl. rewrite Hq. simpl. by rewrite !orb_true_r.
Qed.

Lemma chart_x_bounds (w : Q) (i : nat) :
  0 <= w -> (i <= 19)%nat ->
  chart_x w 20 i == w * inject_Z (Z.of_nat i) / 19 /\ 0 <= chart_x w 20 i <= w.
Proof.
  intros Hw Hi. unfold chart_x.
  assert (Hq : 0 <= inject_Z (Z.of_nat i) <= 19).
  { split; [change 0 with (inject_Z 0)|change 19 with (inject_Z 19)];
      rewrite <- Zle_Qle; lia. }
  change (inject_Z (Z.of_nat 20 - 1)) with 19.
  set (q := inject_Z (Z.of_nat i)) in *. unfold Qdiv.
  change (/ 19) with (1 # 19). split; [ring|]. split; nra.
Qed.

Lemma chart_y_bounds (h d : Q) :
  0 <= h -> 1 # 10 <= d <= 9 # 10 -> h / 10 <= chart_y h d <= 9 * h / 10.
Proof.
  intros Hh [Hd1 Hd2]. unfold chart_y, Qdiv. change (/ 10) with (1 # 10). split; nra.
Qed.

Lemma gen_chart_data_range `{RandomOk} k :
  Forall (fun d => 1 # 10 <= d <= 9 # 10) (fst (gen_chart_data k)).
Proof.
  apply rnd_repeat_forall. intros m. destruct (random_range m). split; nra.
Qed.

Lemma gen_chart_data_length `{Random} k : length (fst (gen_chart_data k)) = 20%nat.
Proof. apply rnd_repeat_length. Qed.

Lemma markers_inert w h fs sc sb pts :
  existsb (covers w h) (markers fs sc sb pts) = false /\
  List.filter is_grid_stroke (markers fs sc sb pts) = [].
Proof. induction pts as [|p pts [IH1 IH2]]; [done|]. simpl. by rewrite IH1, IH2. Qed.

Lemma covers_full w h : covers w h (PClear 0 0 w h) = true.
Proof.
  simpl. rewrite !andb_true_iff, !Qle_bool_iff. repeat split; lra.
Qed.

Lemma norm_markers sb pts :
  sb == 0 -> map norm_paint (markers "#00d4ff" "#00d4ff" sb pts) = markers "#00d4ff" "" 0 pts.
Proof.
  intros Hsb. apply Qeq_bool_iff in Hsb.
  induction pts as [|p pts IH]; simpl; [done|]. by rewrite Hsb, IH.
Qed.

(** ** Properties of [renderChart] *)

(** C27: a render appends, after a full [clearRect], the five
    grid strokes, the polyline stroked twice (the second time with a
    10-pixel glow), and one marker per point; nothing else is painted. *)
Theorem renderChart_paints `{Random} (w h : Q) (c : ctx) (k : nat) :
  let data := fst (gen_chart_data k) in
  let pts := chart_points w h (length data) data 0 in
  c_paints (run c (fst (renderChart w h k))) =
    c_paints c ++ [PClear 0 0 w h]
      ++ grid_paints w h (shadowColor c) (shadowBlur c)
      ++ [PStroke (polyline pts) "#00d4ff" 2 (shadowColor c) (shadowBlur c);
          PStroke (polyline pts) "#00d4ff" 2 "#00d4ff" 10]
      ++ markers "#00d4ff" "#00d4ff" 0 pts.
Proof.
  intros data pts. subst data pts.
  unfold renderChart, rnd_bind, rnd_ret.
  destruct (gen_chart_data k) as [data k'] eqn:E; cbn [fst].
  unfold draw_grid. rewrite !run_app.
  set (c3 := run (run (run (run c _) _) _) [SetStrokeStyle "#00d4ff"; SetLineWidth 2; BeginPath]).
  rewrite (run_path_cmds c3 _ _ (line_path_polyline w h (length data) data)).
  set (c4 := run (set_path c3 _) _).
  destruct (run_markers w h (length data) data 0 c4) as [_ M2].
  rewrite M2. subst c4 c3. cbn.
  rewrite <- !app_assoc. reflexivity.
Qed.


(** The drawing state a render leaves behind: in particular the shadow
    blur is back to 0. *)
Lemma renderChart_dstate `{Random} (w h : Q) (c : ctx) (k : nat) :
  dstate (run c (fst (renderChart w h k))) = ("#00d4ff", "#00d4ff", 2, "#00d4ff", 0)%string.
Proof.
  unfold renderChart, rnd_bind, rnd_ret.
  destruct (gen_chart_data k) as [data k'] eqn:E; cbn [fst].
  unfold draw_grid. rewrite !run_app.
  rewrite (run_path_cmds _ _ _ (line_path_polyline w h (length data) data)).
  set (c4 := run _ [Stroke; SetShadowColor "#00d4ff"; SetShadowBlur 10; Stroke; SetShadowBlur 0;
                   SetFillStyle "#00d4ff"]).
  destruct (run_markers w h (length data) data 0 c4) as [M1 _].
  rewrite M1. reflexivity.
Qed.

(** C7: the glowing polyline a render paints has exactly
    20 points; the i-th is at x = w * i / 19, so the points are evenly
    spaced over [0, w], and its y lies in [h/10, 9h/10], inside [0, h]. *)
Theorem renderChart_polyline `{RandomOk} (w h : Q) (c : ctx) (k : nat) :
  0 <= w -> 0 <= h ->
  let data := fst (gen_chart_data k) in
  let pts := chart_points w h (length data) data 0 in
  In (PStroke (polyline pts) "#00d4ff" 2 "#00d4ff" 10) (c_paints (run c (fst (renderChart w h k)))) /\
  length pts = 20%nat /\
  forall i p, pts !! i = Some p ->
    px p == w * inject_Z (Z.of_nat i) / 19 /\ 0 <= px p <= w /\
    h / 10 <= py p <= 9 * h / 10.
Proof.
  intros Hw Hh data pts. subst data pts. split; [|split].
  - rewrite renderChart_paints, !in_app_iff. do 3 right; left. right; left; reflexivity.
  - by rewrite chart_points_length, gen_chart_data_length.
  - intros i p Hp.
    pose proof (lookup_lt_Some _ _ _ Hp) as Hi.
    rewrite chart_points_length, gen_chart_data_length in Hi.
    destruct (lookup_lt_is_Some_2 (fst (gen_chart_data k)) i) as [d Hd];
      [by rewrite gen_chart_data_length|].
    rewrite (chart_points_lookup _ _ _ _ _ _ _ Hd) in Hp. injection Hp as <-. cbn [px py].
    destruct (chart_x_bounds w i Hw ltac:(lia)) as [Hx1 Hx2].
    split; [exact Hx1|]. split; [exact Hx2|].
    apply chart_y_bounds; [exact Hh|]. exact (Forall_lookup_1 _ _ _ _ (gen_chart_data_range k) Hd).
Qed.

(** C26: a render repaints the whole bitmap.  Starting from
    two contexts with no active shadow blur, whatever was painted before
    and whatever the other drawing attributes were, the visible picture
    is the same; and the render leaves the shadow blur at 0, so the next
    render starts in that situation again. *)
Theorem renderChart_full_repaint `{Random} (w h : Q) (c1 c2 : ctx) (k : nat) :
  shadowBlur c1 == 0 -> shadowBlur c2 == 0 ->
  map norm_paint (visible w h (c_paints (run c1 (fst (renderChart w h k))))) =
  map norm_paint (visible w h (c_paints (run c2 (fst (renderChart w h k))))) /\
  shadowBlur (run c1 (fst (renderChart w h k))) = 0.
Proof.
  intros H1 H2. split; [|by rewrite (f_equal snd (renderChart_dstate w h c1 k))].
  rewrite !renderChart_paints.
  destruct (markers_inert w h "#00d4ff" "#00d4ff" 0
              (chart_points w h (length (fst (gen_chart_data k))) (fst (gen_chart_data k)) 0))
    as [Hm _].
  rewrite !visible_after_clear by (apply covers_full || (simpl; exact Hm)).
  apply Qeq_bool_iff in H1, H2. simpl. rewrite H1, H2. reflexivity.
Qed.

(** C25: the grid has five horizontal lines, at heights 0, h/4,
    h/2, 3h/4 and h, each across the full width: the loop runs for
    i = 0..4 inclusive. *)
Theorem renderChart_grid_lines `{Random} (w h : Q) (c : ctx) (k : nat) :
  List.filter is_grid_stroke (visible w h (c_paints (run c (fst (renderChart w h k))))) =
  map (fun i : Z => PStroke [SMove (Pt 0 (h / 4 * inject_Z i)); SLine (Pt w (h / 4 * inject_Z i))]
                           "rgba(0, 212, 255, 0.1)" 1 (shadowColor c) (shadowBlur c))
      [0; 1; 2; 3; 4]%Z.
Proof.
  rewrite renderChart_paints.
  destruct (markers_inert w h "#00d4ff" "#00d4ff" 0
              (chart_points w h (length (fst (gen_chart_data k))) (fst (gen_chart_data k)) 0))
    as [Hm Hf].
  rewrite visible_after_clear by (apply covers_full || (simpl; exact Hm)).
  rewrite !List.filter_app, Hf. reflexivity.
Qed.

(** ** Witnesses: the theorems at a 300 x 150 canvas with the oracle
    [quarter_random] *)

Section Witnesses.
#[local] Existing Instance quarter_random.

Lemma renderChart_polyline_witness :
  (0 <= 300 /\ 0 <= 150) /\
  let data := fst (gen_chart_data 0%nat) in
  let pts := chart_points 300 150 (length data) data 0 in
  In (PStroke (polyline pts) "#00d4ff" 2 "#00d4ff" 10)
     (c_paints (run fresh_ctx (fst (renderChart 300 150 0%nat)))) /\
  length pts = 20%nat /\
  forall i p, pts !! i = Some p ->
    px p == 300 * inject_Z (Z.of_nat i) / 19 /\ 0 <= px p <= 300 /\
    150 / 10 <= py p <= 9 * 150 / 10.
Proof.
  split; [qnum|].
  apply (@renderChart_polyline quarter_random quarter_random_ok); qnum.
Defined.

Lemma renderChart_full_repaint_witness :
  (shadowBlur fresh_ctx == 0 /\ shadowBlur (add_paint fresh_ctx (PClear 0 0 5 5)) == 0) /\
  map norm_paint (visible 300 150 (c_paints (run fresh_ctx (fst (renderChart 300 150 0%nat))))) =
  map norm_paint (visible 300 150 (c_paints (run (add_paint fresh_ctx (PClear 0 0 5 5))
                                                 (fst (renderChart 300 150 0%nat))))) /\
  shadowBlur (run fresh_ctx (fst (renderChart 300 150 0%nat))) = 0.
Proof.
  split; [qnum|].
  apply renderChart_full_repaint; qnum.
Defined.

End Witnesses.

End ChartRenderer.
