(* ===== verification/TradingChart.v ===== *)
(** * TradingChartRenderer: [renderTradingChart] (src/script.js, lines 632-674)

    The renderer walks a price from 100 through 50 random candles and
    draws each one as a wick and a body, on the fixed scale
    [y = (1 - price / 150) * height].  The loop draws a candle as soon as
    it is generated; [renderTradingChart] is that loop.  The theorems show
    it equal to "generate the walk, then draw it", state the OHLC
    invariant of every candle, the continuity and step bounds of the walk,
    the geometry of each candle, and how far the fixed scale is safe. *)

From Stdlib Require Import QArith Qminmax Qabs Lqa String.
From stdpp Require Import base list tactics.
From S2P Require Import Prelude Canvas.

Local Open Scope Q_scope.
Local Open Scope js_scope.

Module TradingChartRenderer.

Record candle : Type := Candle { c_open : Q; c_high : Q; c_low : Q; c_close : Q }.

Definition candleCount : nat := 50.

(** [(1 - p / 150) * height]: the fixed price scale. *)
Definition price_y (h p : Q) : Q := (1 - p / 150) * h.

(** [close > open ? '#4ade80' : '#f87171'] *)
Definition candle_color (cd : candle) : string :=
  if negb (Qle_bool (c_close cd) (c_open cd)) then "#4ade80" else "#f87171".

(** The drawing part of the loop body, for candle [i]. *)
Definition draw_candle (w h : Q) (i : nat) (cd : candle) : list cmd :=
  let candleWidth := w / inject_Z (Z.of_nat candleCount) in
  let x := inject_Z (Z.of_nat i) * candleWidth + candleWidth / 2 in
  let col := candle_color cd in
  let bodyTop := (1 - Qmax (c_open cd) (c_close cd) / 150) * h in
  let bodyHeight := Qabs ((c_close cd - c_open cd) / 150) * h in
  [SetStrokeStyle col; SetFillStyle col; SetLineWidth 1;
   BeginPath; MoveTo x (price_y h (c_high cd)); LineTo x (price_y h (c_low cd)); Stroke;
   FillRect (x - candleWidth / 4) bodyTop (candleWidth / 2) bodyHeight].

Section Render.
Context `{Random}.

(** The generating part of the loop body: three draws, in this order. *)
Definition gen_candle (price : Q) : Rnd candle :=
  do r1 <- random;
  let change := (r1 - (1 # 2)) * 10 in
  let open := price in
  let close := price + change in
  do r2 <- random;
  let high := Qmax open close + r2 * 5 in
  do r3 <- random;
  let low := Qmin open close - r3 * 5 in
  rnd_ret (Candle open high low close).

(** [for (let i = 0; i < candleCount; i++) { ...; price = close; }] *)
Fixpoint candle_loop (w h : Q) (n i : nat) (price : Q) : Rnd (list cmd) :=
  match n with
  | O => rnd_ret []
  | S n' =>
      do cd <- gen_candle price;
      do rest <- candle_loop w h n' (S i) (c_close cd);
      rnd_ret (draw_candle w h i cd ++ rest)
  end.

Definition renderTradingChart (w h : Q) : Rnd (list cmd) :=
  do cmds <- candle_loop w h candleCount 0 100;
  rnd_ret (ClearRect 0 0 w h :: cmds).

(** ** The two-phase reading: generate the walk, then draw it *)

Fixpoint gen_candles (n : nat) (price : Q) : Rnd (list candle) :=
  match n with
  | O => rnd_ret []
  | S n' =>
      do cd <- gen_candle price;
      do rest <- gen_candles n' (c_close cd);
      rnd_ret (cd :: rest)
  end.

End Render.

Fixpoint draw_candles (w h : Q) (i : nat) (cds : list candle) : list cmd :=
  match cds with
  | [] => []
  | cd :: rest => draw_candle w h i cd ++ draw_candles w h (S i) rest
  end.

(** ** Lemmas *)

Section Lemmas.
Context `{Random}.

Lemma gen_candle_unfold price k :
  gen_candle price k =
    (Candle price
            (Qmax price (price + (math_random k - (1 # 2)) * 10) + math_random (S k) * 5)
            (Qmin price (price + (math_random k - (1 # 2)) * 10) - math_random (S (S k)) * 5)
            (price + (math_random k - (1 # 2)) * 10),
     S (S (S k))).
Proof. reflexivity. Qed.

Lemma candle_loop_two_phase w h n i price k :
  candle_loop w h n i price k =
    (draw_candles w h i (fst (gen_candles n price k)), snd (gen_candles n price k)).
Proof.
  revert i price k; induction n as [|n IH]; intros i price k; [reflexivity|].
  cbn [candle_loop gen_candles]. unfold rnd_bind, rnd_ret.
  destruct (gen_candle price k) as [cd k1]. rewrite IH.
  destruct (gen_candles n (c_close cd) k1) as [cds k2]. reflexivity.
Qed.

Lemma gen_candles_length n price k : length (fst (gen_candles n price k)) = n.
Proof.
  revert price k; induction n as [|n IH]; intros price k; [reflexivity|].
  cbn [gen_candles]. unfold rnd_bind, rnd_ret.
  destruct (gen_candle price k) as [cd k1].
  specialize (IH (c_close cd) k1). destruct (gen_candles n (c_close cd) k1); simpl in *; lia.
Qed.

Lemma gen_candles_counter n price k : snd (gen_candles n price k) = (k + 3 * n)%nat.
Proof.
  revert price k; induction n as [|n IH]; intros price k; [simpl; lia|].
  cbn [gen_candles]. unfold rnd_bind, rnd_ret. rewrite gen_candle_unfold.
  match goal with |- context [gen_candles n ?p ?k'] =>
    specialize (IH p k'); destruct (gen_candles n p k') end.
  simpl in *; lia.
Qed.

(** The candles of a walk: candle [j] comes from draws [k+3j .. k+3j+2]
    and opens at the close of candle [j - 1]. *)
Lemma gen_candles_cons n price k :
  fst (gen_candles (S n) price k) =
    fst (gen_candle price k) :: fst (gen_candles n (c_close (fst (gen_candle price k))) (S (S (S k)))).
Proof.
  cbn [gen_candles]. unfold rnd_bind, rnd_ret. rewrite gen_candle_unfold.
  simpl. by destruct (gen_candles _ _ _).
Qed.

End Lemmas.

(** The walk predicate: candle [j+1] opens at the close of candle [j],
    and each close is within [-5, 5) of its open. *)
Fixpoint walk_from (p : Q) (cds : list candle) : Prop :=
  match cds with
  | [] => True
  | cd :: rest => c_open cd = p /\ -5 <= c_close cd - p < 5 /\ walk_from (c_close cd) rest
  end.

Definition ohlc_ok (cd : candle) : Prop :=
  Qmax (c_open cd) (c_close cd) <= c_high cd /\ c_low cd <= Qmin (c_open cd) (c_close cd).

Lemma qabs_body (o c : Q) : Qabs ((c - o) / 150) == (Qmax o c - Qmin o c) / 150.
Proof.
  destruct (Qlt_le_dec o c) as [Hoc|Hco].
  - rewrite Q.max_r, Q.min_l by lra. apply Qabs_pos.
    unfold Qdiv. change (/ 150) with (1 # 150). lra.
  - rewrite Q.max_l, Q.min_r by lra. rewrite Qabs_neg.
    + unfold Qdiv. change (/ 150) with (1 # 150). lra.
    + unfold Qdiv. change (/ 150) with (1 # 150). lra.
Qed.

Lemma price_y_neg h p : 0 < h -> 150 < p -> price_y h p < 0.
Proof.
  intros Hh Hp. unfold price_y, Qdiv. change (/ 150) with (1 # 150).
  assert (1 - p * (1 # 150) < 0) by lra. nra.
Qed.

(** With every draw at least 0.9, candle [j] of a walk from [price]
    opens at least [4 j] above it, closes at least 4 above its open, and
    its low is less than 5 below its open. *)
Lemma gen_candles_rising `{RandomOk} (Hr : forall n, 9 # 10 <= math_random n)
    (n : nat) (price : Q) (k j : nat) (cd : candle) :
  fst (gen_candles n price k) !! j = Some cd ->
  price + 4 * inject_Z (Z.of_nat j) <= c_open cd /\ c_open cd + 4 <= c_close cd /\
  c_open cd - 5 < c_low cd.
Proof.
  revert price k j; induction n as [|n IH]; intros price k j Hj; [done|].
  rewrite gen_candles_cons, gen_candle_unfold in Hj. pose proof (Hr k).
  destruct j as [|j]; simpl in Hj.
  - injection Hj as <-. simpl. destruct (random_range (S (S k))).
    rewrite Q.min_l by lra. change (inject_Z (Z.of_nat 0)) with 0. split_and!; lra.
  - destruct (IH _ _ _ Hj) as (Ho & Hc & Hl). simpl in Ho. rewrite Q_of_nat_S.
    split_and!; lra.
Qed.

(** ** Properties of [renderTradingChart] *)

(** C36: the interleaved loop of [renderTradingChart] draws
    exactly the candles of the random walk generated on its own, in order,
    after one [clearRect], and uses three draws per candle. *)
Theorem renderTradingChart_two_phase `{Random} (w h : Q) (k : nat) :
  renderTradingChart w h k =
    (ClearRect 0 0 w h :: draw_candles w h 0 (fst (gen_candles candleCount 100 k)),
     (k + 150)%nat).
Proof.
  unfold renderTradingChart, rnd_bind, rnd_ret.
  rewrite candle_loop_two_phase, gen_candles_counter. reflexivity.
Qed.

(** C8: whatever [Math.random] returns in [0, 1), every
    generated candle has high >= max(open, close) and
    low <= min(open, close). *)
Theorem gen_candles_ohlc `{RandomOk} (n : nat) (price : Q) (k : nat) :
  Forall ohlc_ok (fst (gen_candles n price k)).
Proof.
  revert price k; induction n as [|n IH]; intros price k; [constructor|].
  rewrite gen_candles_cons. constructor; [|apply IH].
  rewrite gen_candle_unfold. unfold ohlc_ok; simpl.
  destruct (random_range (S k)), (random_range (S (S k))). split; nra.
Qed.

(** C37: the generated candles form a walk from the start price:
    each opens at the previous close, and moves by a change in [-5, 5). *)
Theorem gen_candles_walk `{RandomOk} (n : nat) (price : Q) (k : nat) :
  length (fst (gen_candles n price k)) = n /\ walk_from price (fst (gen_candles n price k)).
Proof.
  split; [apply gen_candles_length|].
  revert price k; induction n as [|n IH]; intros price k; [exact I|].
  rewrite gen_candles_cons, gen_candle_unfold. simpl.
  destruct (random_range k). split; [done|]. split; [nra|]. apply IH.
Qed.

(** candle [j] of a walk from [price] stays within
    [price - 5 (j + 2), price + 5 (j + 2)]: the walk moves by less than 5
    per candle and a wick extends less than 5 beyond the body. *)
Theorem gen_candles_range `{RandomOk} (n : nat) (price : Q) (k j : nat) (cd : candle) :
  fst (gen_candles n price k) !! j = Some cd ->
  price - 5 * inject_Z (Z.of_nat (j + 2)) <= c_low cd /\
  c_high cd <= price + 5 * inject_Z (Z.of_nat (j + 2)).
Proof.
  revert price k j; induction n as [|n IH]; intros price k j Hj; [done|].
  rewrite gen_candles_cons, gen_candle_unfold in Hj. destruct j as [|j]; simpl in Hj.
  - injection Hj as <-. simpl.
    destruct (random_range k), (random_range (S k)), (random_range (S (S k))).
    change (inject_Z (Z.of_nat 2)) with 2.
    assert (price - 5 <= Qmin price (price + (math_random k - (1 # 2)) * 10))
      by (apply Q.min_glb; lra).
    assert (Qmax price (price + (math_random k - (1 # 2)) * 10) <= price + 5)
      by (apply Q.max_lub; lra).
    split; lra.
  - destruct (IH _ _ _ Hj) as [Hl Hh].
    destruct (random_range k).
    replace (S j + 2)%nat with (S (j + 2)) by lia. rewrite Q_of_nat_S.
    split; lra.
Qed.

(** on the fixed scale, the first nine candles of a
    render (from price 100) are drawn inside the canvas: both ends of
    their wicks have 0 <= y <= height. *)
Theorem renderTradingChart_no_clip_prefix `{RandomOk} (h : Q) (k j : nat) (cd : candle) :
  0 <= h -> (j < 9)%nat -> fst (gen_candles candleCount 100 k) !! j = Some cd ->
  0 <= price_y h (c_high cd) <= h /\ 0 <= price_y h (c_low cd) <= h.
Proof.
  intros Hh Hj Hcd.
  destruct (gen_candles_range _ _ _ _ _ Hcd) as [Hl Hu].
  pose proof (Q_of_nat_le (j + 2) 10 ltac:(lia)) as Hj10. change (inject_Z (Z.of_nat 10)) with 10 in Hj10.
  pose proof (Q_of_nat_nonneg (j + 2)).
  destruct (Forall_lookup_1 _ _ _ _ (gen_candles_ohlc candleCount 100 k) Hcd) as [Ho1 Ho2].
  pose proof (Q.le_max_l (c_open cd) (c_close cd)). pose proof (Q.le_min_l (c_open cd) (c_close cd)).
  unfold price_y, Qdiv. change (/ 150) with (1 # 150). split; split; nra.
Qed.

(** C38: the fixed scale is not auto-scaled, so a rising
    market leaves the canvas: whenever every [Math.random()] draw is at
    least 0.9, each candle closes at least 4 above its open, and from the
    fifteenth candle of the render on both ends of every wick lie above
    the top of a canvas of any positive height (negative y). *)
Theorem renderTradingChart_rising_clips `{RandomOk} (h : Q) (k j : nat) (cd : candle) :
  (forall n, 9 # 10 <= math_random n) -> 0 < h -> (14 <= j)%nat ->
  fst (gen_candles candleCount 100 k) !! j = Some cd ->
  c_open cd + 4 <= c_close cd /\ price_y h (c_high cd) < 0 /\ price_y h (c_low cd) < 0.
Proof.
  intros Hr Hh Hj Hcd. destruct (gen_candles_rising Hr _ _ _ _ _ Hcd) as (Ho & Hc & Hl).
  pose proof (Q_of_nat_le 14 j Hj) as Hj14. change (inject_Z (Z.of_nat 14)) with 14 in Hj14.
  destruct (Forall_lookup_1 _ _ _ _ (gen_candles_ohlc candleCount 100 k) Hcd) as [Hhi _].
  pose proof (Q.le_max_l (c_open cd) (c_close cd)).
  split; [exact Hc|]. split; apply price_y_neg; lra.
Qed.

(** each candle is drawn as a vertical wick from its
    high to its low and a body rectangle centred on the wick, of
    non-negative height, lying inside the wick; it is green exactly when
    it closes above its open. *)
Theorem draw_candle_geometry (w h : Q) (i : nat) (cd : candle) :
  0 <= h -> ohlc_ok cd ->
  exists x bx bt bw bh,
    draw_candle w h i cd =
      [SetStrokeStyle (candle_color cd); SetFillStyle (candle_color cd); SetLineWidth 1;
       BeginPath; MoveTo x (price_y h (c_high cd)); LineTo x (price_y h (c_low cd)); Stroke;
       FillRect bx bt bw bh] /\
    bx + bw / 2 == x /\
    price_y h (c_high cd) <= bt /\ 0 <= bh /\ bt + bh <= price_y h (c_low cd) /\
    (candle_color cd = "#4ade80"%string <-> c_open cd < c_close cd).
Proof.
  intros Hh [Hhi Hlo]. do 5 eexists. split; [reflexivity|].
  pose proof (Q.le_min_l (c_open cd) (c_close cd)).
  pose proof (Q.le_max_l (c_open cd) (c_close cd)).
  rewrite qabs_body. unfold price_y, Qdiv. change (/ 150) with (1 # 150).
  try change (/ 2) with (1 # 2). try change (/ 4) with (1 # 4).
  split; [ring|]. split; [nra|]. split.
  { nra. }
  split; [nra|].
  unfold candle_color. destruct (Qle_bool (c_close cd) (c_open cd)) eqn:E; simpl.
  - apply Qle_bool_iff in E. split; [discriminate|lra].
  - split; [intros _|done]. apply Qnot_le_lt. intros E'. apply Qle_bool_iff in E'. congruence.
Qed.

(** ** Witnesses, with the oracle [quarter_random] *)

Section Witnesses.
#[local] Existing Instance quarter_random.

Lemma gen_candles_ohlc_witness :
  Forall ohlc_ok (fst (gen_candles candleCount 100 0%nat)).
Proof. apply (@gen_candles_ohlc quarter_random quarter_random_ok). Defined.

Lemma gen_candles_walk_witness :
  (length (fst (gen_candles candleCount 100 0%nat)) = candleCount)%nat /\
  walk_from 100 (fst (gen_candles candleCount 100 0%nat)).
Proof. apply (@gen_candles_walk quarter_random quarter_random_ok). Defined.

Lemma gen_candles_range_witness :
  fst (gen_candles candleCount 100 0%nat) !! 3%nat = Some (nth 3 (fst (gen_candles candleCount 100 0%nat)) (Candle 0 0 0 0)) /\
  100 - 5 * inject_Z (Z.of_nat (3 + 2)) <= c_low (nth 3 (fst (gen_candles candleCount 100 0%nat)) (Candle 0 0 0 0)) /\
  c_high (nth 3 (fst (gen_candles candleCount 100 0%nat)) (Candle 0 0 0 0)) <= 100 + 5 * inject_Z (Z.of_nat (3 + 2)).
Proof.
  split; [vm_compute; reflexivity|].
  apply (@gen_candles_range quarter_random quarter_random_ok candleCount 100 0 3).
  vm_compute; reflexivity.
Defined.

Lemma renderTradingChart_no_clip_prefix_witness :
  (0 <= 300 /\ (8 < 9)%nat /\
   fst (gen_candles candleCount 100 0%nat) !! 8%nat = Some (nth 8 (fst (gen_candles candleCount 100 0%nat)) (Candle 0 0 0 0))) /\
  0 <= price_y 300 (c_high (nth 8 (fst (gen_candles candleCount 100 0%nat)) (Candle 0 0 0 0))) <= 300 /\
  0 <= price_y 300 (c_low (nth 8 (fst (gen_candles candleCount 100 0%nat)) (Candle 0 0 0 0))) <= 300.
Proof.
  split; [split; [qnum|split; [lia|vm_compute; reflexivity]]|].
  apply (@renderTradingChart_no_clip_prefix quarter_random quarter_random_ok 300 0 8);
    [qnum|lia|vm_compute; reflexivity].
Defined.

Lemma draw_candle_geometry_witness :
  (0 <= 300 /\ ohlc_ok (Candle 100 104 97 102)) /\
  exists x bx bt bw bh,
    draw_candle 600 300 7 (Candle 100 104 97 102) =
      [SetStrokeStyle (candle_color (Candle 100 104 97 102));
       SetFillStyle (candle_color (Candle 100 104 97 102)); SetLineWidth 1;
       BeginPath; MoveTo x (price_y 300 104); LineTo x (price_y 300 97); Stroke;
       FillRect bx bt bw bh] /\
    bx + bw / 2 == x /\
    price_y 300 104 <= bt /\ 0 <= bh /\ bt + bh <= price_y 300 97 /\
    (candle_color (Candle 100 104 97 102) = "#4ade80"%string <-> 100 < 102).
Proof.
  assert (Hc : ohlc_ok (Candle 100 104 97 102)) by (unfold ohlc_ok; simpl; qnum).
  split; [split; [qnum|exact Hc]|].
  apply (draw_candle_geometry 600 300 7 (Candle 100 104 97 102)); [qnum|exact Hc].
Defined.

(** An oracle that always returns 0.95. *)
Definition high_random : Random := fun _ => 19 # 20.

Lemma high_random_ok : @RandomOk high_random.
Proof. intros n. unfold math_random, high_random. qnum. Qed.

Lemma renderTradingChart_rising_clips_witness :
  ((forall n, 9 # 10 <= @math_random high_random n) /\ 0 < 400 /\ (14 <= 20)%nat /\
   fst (@gen_candles high_random candleCount 100 0%nat) !! 20%nat =
     Some (nth 20 (fst (@gen_candles high_random candleCount 100 0%nat)) (Candle 0 0 0 0))) /\
  let cd := nth 20 (fst (@gen_candles high_random candleCount 100 0%nat)) (Candle 0 0 0 0) in
  c_open cd + 4 <= c_close cd /\ price_y 400 (c_high cd) < 0 /\ price_y 400 (c_low cd) < 0.
Proof.
  assert (Hr : forall n, 9 # 10 <= @math_random high_random n)
    by (intros n; unfold math_random, high_random; qnum).
  assert (Hl : fst (@gen_candles high_random candleCount 100 0%nat) !! 20%nat =
     Some (nth 20 (fst (@gen_candles high_random candleCount 100 0%nat)) (Candle 0 0 0 0)))
    by (vm_compute; reflexivity).
  split; [split_and!; [exact Hr|qnum|lia|exact Hl]|].
  exact (@renderTradingChart_rising_clips high_random high_random_ok 400 0 20 _ Hr
           ltac:(qnum) ltac:(lia) Hl).
Defined.

End Witnesses.

End TradingChartRenderer.
