(* ===== verification/Particles.v ===== *)
(** * EffectEmitter: [createParticleExplosion] and [createSuccessParticles]
    (src/script.js, lines 514-551 and 817-855)

    Both functions append transient [div] particles to [document.body]
    and start one gsap tween per particle whose [onComplete] removes it.
    The state is the set of attached particle nodes ([gmap] from node id
    to the particle's style), the allocator of node ids, and the list of
    pending tweens.  A tween completing is a separate step: gsap fires
    [onComplete] later, in an order that depends on durations and delays.
    The theorems state what one emission adds, that both functions
    implement the spec's [emit] contract, the invariant pairing nodes and
    tweens over every interleaving of emissions and completions, and that
    once all pending tweens have completed no particle is left. *)

From Stdlib Require Import QArith Qminmax Lqa String.
From stdpp Require Import base list gmap.
From S2P Require Import Prelude.

Local Open Scope Q_scope.
Local Open Scope js_scope.

Module EffectEmitter.

(** The inline style the loop sets on each particle. *)
Record particle : Type := Particle {
  p_left : Q; p_top : Q; p_size : Q; p_color : string
}.

(** A pending [gsap.to(particle, {x, y, opacity: 0, scale: 0, duration,
    delay, onComplete: () => particle.remove()})]; the pending tweens are
    kept by the node they animate. *)
Record tween : Type := Tween {
  tw_x : Q; tw_y : Q; tw_duration : Q; tw_delay : Q
}.

Record page : Type := Page {
  body : gmap nat particle;
  next_node : nat;
  tweens : gmap nat tween
}.

(** [element.getBoundingClientRect()] *)
Record rect : Type := Rect { r_left : Q; r_top : Q; r_width : Q; r_height : Q }.

Definition center_x (r : rect) : Q := r_left r + r_width r / 2.
Definition center_y (r : rect) : Q := r_top r + r_height r / 2.

(** [document.createElement('div')] ... [document.body.appendChild]. *)
Definition append_particle (p : particle) (d : page) : page :=
  Page (<[next_node d := p]> (body d)) (S (next_node d)) (tweens d).

Definition start_tween (node : nat) (tw : tween) (d : page) : page :=
  Page (body d) (next_node d) (<[node := tw]> (tweens d)).

Section Emit.
Context `{Random} `{Trig}.

(** [const angle = (i / n) * Math.PI * 2] *)
Definition particle_angle (i n : nat) : Q :=
  inject_Z (Z.of_nat i) / inject_Z (Z.of_nat n) * math_PI * 2.

(** One iteration of the loop of [createParticleExplosion]. *)
Definition explosion_step (cx cy : Q) (i : nat) (d : page) : Rnd page :=
  let node := next_node d in
  let d1 := append_particle (Particle cx cy 4 "#00d4ff") d in
  let angle := particle_angle i 20 in
  do r <- random;
  let distance := 100 + r * 50 in
  rnd_ret (start_tween node (Tween (js_cos angle * distance) (js_sin angle * distance) 1 0) d1).

(** [for (let i = 0; i < n; i++)], counting [i] up from [i0]. *)
Fixpoint emit_loop (step : nat -> page -> Rnd page) (n i0 : nat) (d : page) : Rnd page :=
  match n with
  | O => rnd_ret d
  | S n' => do d1 <- step i0 d; emit_loop step n' (S i0) d1
  end.

Definition createParticleExplosion (r : rect) (d : page) : Rnd page :=
  emit_loop (explosion_step (center_x r) (center_y r)) 20 0 d.

(** One iteration of the loop of [createSuccessParticles]: the distance
    is drawn first, the delay second. *)
Definition success_step (cx cy : Q) (i : nat) (d : page) : Rnd page :=
  let node := next_node d in
  let d1 := append_particle (Particle cx cy 6 "#4ade80") d in
  let angle := particle_angle i 15 in
  do r <- random;
  let distance := 80 + r * 40 in
  do r' <- random;
  rnd_ret (start_tween node (Tween (js_cos angle * distance) (js_sin angle * distance)
                                   (12 # 10) (r' * (3 # 10))) d1).

Definition createSuccessParticles (r : rect) (d : page) : Rnd page :=
  emit_loop (success_step (center_x r) (center_y r)) 15 0 d.

End Emit.

(** gsap finishes the tween of node [n] and runs its [onComplete]:
    [particle.remove()]. *)
Definition complete_tween (n : nat) (d : page) : page :=
  match tweens d !! n with
  | None => d
  | Some _ => Page (delete n (body d)) (next_node d) (delete n (tweens d))
  end.

(** ** The spec's contract for [emit]

    [emit(x, y, count, color, radiusRange, duration)] attaches [count]
    fresh nodes at the origin and starts, for the [i]-th, a tween towards
    angle [2 pi i / count] at a radius in the range. *)

Record emit_cfg : Type := EmitCfg {
  e_count : nat; e_size : Q; e_color : string; e_rmin : Q; e_rmax : Q; e_duration : Q;
  e_delay_max : Q
}.

Section Spec.
Context `{Trig}.

Definition tween_ok (cfg : emit_cfg) (i : nat) (tw : tween) : Prop :=
  tw_duration tw = e_duration cfg /\ 0 <= tw_delay tw <= e_delay_max cfg /\
  exists dist, e_rmin cfg <= dist < e_rmax cfg /\
    tw_x tw = js_cos (particle_angle i (e_count cfg)) * dist /\
    tw_y tw = js_sin (particle_angle i (e_count cfg)) * dist.

(** [n] loop iterations from index [i0] under configuration [cfg]. *)
Definition emits_from (cfg : emit_cfg) (cx cy : Q) (n i0 : nat) (d d' : page) : Prop :=
  next_node d' = (next_node d + n)%nat /\
  forall m,
    (body d' !! m = if decide (next_node d <= m < next_node d + n)%nat
                    then Some (Particle cx cy (e_size cfg) (e_color cfg)) else body d !! m) /\
    (if decide (next_node d <= m < next_node d + n)%nat
     then exists tw, tweens d' !! m = Some tw /\ tween_ok cfg (i0 + (m - next_node d)) tw
     else tweens d' !! m = tweens d !! m).

Definition emits (cfg : emit_cfg) (cx cy : Q) (d d' : page) : Prop :=
  emits_from cfg cx cy (e_count cfg) 0 d d'.

(** What one loop iteration must do. *)
Definition step_ok `{Random} (cfg : emit_cfg) (cx cy : Q) (step : nat -> page -> Rnd page) : Prop :=
  forall i d k,
    body (fst (step i d k)) = <[next_node d := Particle cx cy (e_size cfg) (e_color cfg)]> (body d) /\
    next_node (fst (step i d k)) = S (next_node d) /\
    exists tw, tweens (fst (step i d k)) = <[next_node d := tw]> (tweens d) /\ tween_ok cfg i tw.

Lemma emit_loop_emits `{Random} cfg cx cy step n i0 d k :
  step_ok cfg cx cy step -> emits_from cfg cx cy n i0 d (fst (emit_loop step n i0 d k)).
Proof.
  intros Hstep. revert i0 d k; induction n as [|n IH]; intros i0 d k.
  - split; [simpl; lia|]. intros m. simpl. case_decide; [lia|done].
  - simpl. unfold rnd_bind. destruct (step i0 d k) as [d1 k1] eqn:E.
    destruct (Hstep i0 d k) as (Hb & Hn & tw & Ht & Hok). rewrite E in Hb, Hn, Ht; simpl in *.
    destruct (IH (S i0) d1 k1) as (Hn' & Hm).
    split; [lia|]. intros m. destruct (Hm m) as [Hbm Htm]. rewrite Hn in Hbm, Htm. split.
    + rewrite Hbm, Hb. case_decide; case_decide; try lia; try done.
      * replace m with (next_node d) by lia. by rewrite lookup_insert_eq.
      * rewrite lookup_insert_ne by lia. done.
    + case_decide; case_decide; try lia.
      * destruct Htm as [tw' [Htw' Hok']]. exists tw'. split; [done|].
        by replace (i0 + (m - next_node d))%nat with (S i0 + (m - S (next_node d)))%nat by lia.
      * exists tw. rewrite Htm, Ht. replace m with (next_node d) by lia.
        rewrite lookup_insert_eq, Nat.sub_diag, Nat.add_0_r. done.
      * rewrite Htm, Ht. rewrite lookup_insert_ne by lia. done.
Qed.

End Spec.

Definition explosion_cfg : emit_cfg := EmitCfg 20 4 "#00d4ff" 100 150 1 0.
Definition success_cfg : emit_cfg := EmitCfg 15 6 "#4ade80" 80 120 (12 # 10) (3 # 10).

Lemma explosion_step_ok `{RandomOk} `{Trig} cx cy :
  step_ok explosion_cfg cx cy (explosion_step cx cy).
Proof.
  intros i d0 k0. split; [done|]. split; [done|].
  eexists. split; [reflexivity|]. split; [done|]. split; [simpl; lra|].
  eexists. split; [|split; reflexivity].
  destruct (random_range k0). simpl. lra.
Qed.

Lemma success_step_ok `{RandomOk} `{Trig} cx cy :
  step_ok success_cfg cx cy (success_step cx cy).
Proof.
  intros i d0 k0. split; [done|]. split; [done|].
  eexists. split; [reflexivity|]. split; [done|].
  destruct (random_range k0), (random_range (S k0)).
  split; [simpl; lra|].
  eexists. split; [|split; reflexivity]. simpl. lra.
Qed.

(** The loops run [step_ok] steps. *)
Lemma createParticleExplosion_loop `{RandomOk} `{Trig} (r : rect) (d : page) (k : nat) :
  emits explosion_cfg (center_x r) (center_y r) d (fst (createParticleExplosion r d k)).
Proof. apply emit_loop_emits, explosion_step_ok. Qed.

Lemma createSuccessParticles_loop `{RandomOk} `{Trig} (r : rect) (d : page) (k : nat) :
  emits success_cfg (center_x r) (center_y r) d (fst (createSuccessParticles r d k)).
Proof. apply emit_loop_emits, success_step_ok. Qed.

(** ** Refinement: both emitters implement [emit]

    The contract is stated on its own terms, with the spec's parameters
    written out: [count] nodes [next_node d + i] carrying the particle at
    [(x, y)], each with a pending tween of the given duration, a delay in
    [[0, dmax]], and the displacement [(cos a * dist, sin a * dist)] for
    the angle [a = 2 pi i / count] and a radius [dist] in [[rmin, rmax)];
    all other nodes and tweens are untouched. *)

Section Contract.
Context `{Trig}.

Definition emit_contract (x y : Q) (count : nat) (size : Q) (color : string)
    (rmin rmax dur dmax : Q) (d d' : page) : Prop :=
  next_node d' = (next_node d + count)%nat /\
  (forall i, (i < count)%nat ->
     body d' !! (next_node d + i)%nat = Some (Particle x y size color) /\
     exists tw dist, tweens d' !! (next_node d + i)%nat = Some tw /\
       tw_duration tw = dur /\ 0 <= tw_delay tw <= dmax /\ rmin <= dist < rmax /\
       tw_x tw == js_cos (2 * math_PI * inject_Z (Z.of_nat i) / inject_Z (Z.of_nat count)) * dist /\
       tw_y tw == js_sin (2 * math_PI * inject_Z (Z.of_nat i) / inject_Z (Z.of_nat count)) * dist) /\
  (forall m, (m < next_node d \/ next_node d + count <= m)%nat ->
     body d' !! m = body d !! m /\ tweens d' !! m = tweens d !! m).

End Contract.

Lemma particle_angle_eq `{Trig} i n :
  particle_angle i n == 2 * math_PI * inject_Z (Z.of_nat i) / inject_Z (Z.of_nat n).
Proof. unfold particle_angle, Qdiv. ring. Qed.

Lemma emits_contract `{Trig} `{!TrigOk} cfg cx cy d d' :
  emits cfg cx cy d d' ->
  emit_contract cx cy (e_count cfg) (e_size cfg) (e_color cfg) (e_rmin cfg) (e_rmax cfg)
                (e_duration cfg) (e_delay_max cfg) d d'.
Proof.
  intros [Hn Hm]. split; [exact Hn|]. split.
  - intros i Hi. destruct (Hm (next_node d + i)%nat) as [Hb Ht].
    revert Hb Ht. case_decide; [|lia]. intros Hb Ht. split; [exact Hb|].
    destruct Ht as (tw & Htw & Hdur & Hdel & dist & Hr & Hx & Hy).
    replace (0 + (next_node d + i - next_node d))%nat with i in * by lia.
    exists tw, dist. do 4 (split; [done|]). split.
    + rewrite Hx. apply Qmult_comp; [apply cos_compat, particle_angle_eq|reflexivity].
    + rewrite Hy. apply Qmult_comp; [apply sin_compat, particle_angle_eq|reflexivity].
  - intros m Hout. destruct (Hm m) as [Hb Ht]. revert Hb Ht. case_decide; [lia|]. done.
Qed.

(** C20: [createParticleExplosion] attaches 20 new nodes
    carrying a 4-pixel [#00d4ff] particle at the centre of the clicked
    element and starts, for the i-th, a 1-second tween without delay
    towards angle 2 pi i / 20 at a radius in [100, 150); nothing else of
    the page changes. *)
Theorem createParticleExplosion_emits `{RandomOk} `{Trig} `{!TrigOk} (r : rect) (d : page) (k : nat) :
  emit_contract (r_left r + r_width r / 2) (r_top r + r_height r / 2) 20 4 "#00d4ff" 100 150 1 0
                d (fst (createParticleExplosion r d k)).
Proof. exact (emits_contract _ _ _ _ _ (createParticleExplosion_loop r d k)). Qed.

(** C21: [createSuccessParticles] attaches 15 new nodes
    carrying a 6-pixel [#4ade80] particle at the centre of the element and
    starts, for the i-th, a 1.2-second tween towards angle 2 pi i / 15 at
    a radius in [80, 120), after a delay in [0, 0.3]; nothing else of the
    page changes. *)
Theorem createSuccessParticles_emits `{RandomOk} `{Trig} `{!TrigOk} (r : rect) (d : page) (k : nat) :
  emit_contract (r_left r + r_width r / 2) (r_top r + r_height r / 2) 15 6 "#4ade80" 80 120
                (12 # 10) (3 # 10) d (fst (createSuccessParticles r d k)).
Proof. exact (emits_contract _ _ _ _ _ (createSuccessParticles_loop r d k)). Qed.

(** ** Lifecycle: attached particles and pending tweens come in pairs *)

Definition empty_page : page := Page ∅ 0 ∅.

(** Every attached particle has a pending tween and conversely; node ids
    from [next_node] on are unused. *)
Definition page_inv (d : page) : Prop :=
  dom (body d) = dom (tweens d) /\ forall n, (next_node d <= n)%nat -> body d !! n = None.

Section Lifecycle.
Context `{Random} `{Trig}.

(** Clicks on the explore button, success animations, and gsap finishing
    a tween, in any interleaving. *)
Inductive page_step : page * nat -> page * nat -> Prop :=
| ps_explosion r d k : page_step (d, k) (createParticleExplosion r d k)
| ps_success r d k : page_step (d, k) (createSuccessParticles r d k)
| ps_complete n d k : page_step (d, k) (complete_tween n d, k).

(** All pending tweens finish (in the order of their node ids). *)
Definition complete_all (d : page) : page :=
  fold_right complete_tween d (elements (dom (tweens d))).

End Lifecycle.

Lemma emits_from_inv `{Trig} cfg cx cy n i0 d d' :
  page_inv d -> emits_from cfg cx cy n i0 d d' -> page_inv d'.
Proof.
  intros [Hdom Hfresh] [Hn Hm]. split.
  - apply set_eq. intros m. rewrite !elem_of_dom. destruct (Hm m) as [Hb Ht].
    rewrite Hb. case_decide.
    + destruct Ht as [tw [-> _]]. split; intros _; eexists; done.
    + rewrite Ht, <- !elem_of_dom, Hdom. done.
  - intros m Hge. destruct (Hm m) as [Hb _]. rewrite Hb, Hn in *.
    case_decide; [lia|]. apply Hfresh. lia.
Qed.

Lemma complete_tween_eq d n :
  page_inv d -> complete_tween n d = Page (delete n (body d)) (next_node d) (delete n (tweens d)).
Proof.
  intros [Hdom _]. unfold complete_tween. destruct (tweens d !! n) eqn:E; [done|].
  assert (Hb : body d !! n = None).
  { apply not_elem_of_dom. rewrite Hdom. by apply not_elem_of_dom. }
  rewrite !delete_id by done. by destruct d.
Qed.

Lemma complete_tween_inv d n : page_inv d -> page_inv (complete_tween n d).
Proof.
  intros Hinv. rewrite complete_tween_eq by done. destruct Hinv as [Hdom Hfresh].
  split; simpl.
  - by rewrite !dom_delete_L, Hdom.
  - intros m Hm. rewrite lookup_delete. case_decide; [done|]. by apply Hfresh.
Qed.


Lemma emit_loop_size `{Random} `{Trig} cfg cx cy step n i0 d k :
  step_ok cfg cx cy step -> (forall m, (next_node d <= m)%nat -> body d !! m = None) ->
  size (body (fst (emit_loop step n i0 d k))) = (size (body d) + n)%nat.
Proof.
  intros Hstep. revert i0 d k; induction n as [|n IH]; intros i0 d k Hfresh; [simpl; lia|].
  simpl. unfold rnd_bind. destruct (step i0 d k) as [d1 k1] eqn:E.
  destruct (Hstep i0 d k) as (Hb & Hn & _). rewrite E in Hb, Hn; simpl in Hb, Hn.
  rewrite IH.
  - rewrite Hb, map_size_insert_None by (apply Hfresh; lia). lia.
  - intros m Hm. rewrite Hb, lookup_insert_ne by lia. apply Hfresh. lia.
Qed.

Lemma lookup_fold_delete {V} (m : gmap nat V) (l : list nat) (i : nat) :
  fold_right delete m l !! i = if decide (i ∈ l) then None else m !! i.
Proof.
  induction l as [|x l IH]; cbn [fold_right].
  - case_decide as Hi; [set_solver|done].
  - rewrite lookup_delete, IH.
    destruct (decide (x = i)); destruct (decide (i ∈ l)); destruct (decide (i ∈ x :: l));
      try done; set_solver.
Qed.

Lemma fold_complete d l :
  page_inv d ->
  page_inv (fold_right complete_tween d l) /\
  fold_right complete_tween d l =
    Page (fold_right delete (body d) l) (next_node d) (fold_right delete (tweens d) l).
Proof.
  intros Hinv. induction l as [|x l [IHinv IHeq]]; simpl; [by destruct d|].
  split; [by apply complete_tween_inv|].
  rewrite complete_tween_eq by done. rewrite IHeq. done.
Qed.

Lemma fold_delete_all {V} (m : gmap nat V) (s : gset nat) :
  dom m = s -> fold_right delete m (elements s) = ∅.
Proof.
  intros Hd. apply map_eq. intros i. rewrite lookup_fold_delete, lookup_empty.
  case_decide as Hin; [done|]. apply not_elem_of_dom. rewrite Hd. intros Hi.
  apply Hin. by apply elem_of_elements.
Qed.

Section LifecycleTheorems.
Context `{RandomOk} `{Trig}.

Lemma page_step_inv x y : page_inv (fst x) -> page_step x y -> page_inv (fst y).
Proof.
  intros Hinv Hs. destruct Hs as [r d k|r d k|n d k]; cbn [fst] in Hinv |- *.
  - eapply emits_from_inv; [exact Hinv|apply createParticleExplosion_loop].
  - eapply emits_from_inv; [exact Hinv|apply createSuccessParticles_loop].
  - by apply complete_tween_inv.
Qed.

(** C5: in every state reachable from the empty page by
    explosions, success animations and tween completions in any order,
    the attached particles are exactly the nodes with a pending tween, and
    fresh node ids are unused. *)
Theorem page_reachable_inv (k0 : nat) (x : page * nat) :
  star page_step (empty_page, k0) x -> page_inv (fst x).
Proof.
  intros Hs. apply (star_inv _ (fun y => page_inv (fst y)) page_step_inv _ _ Hs).
  split; [done|]. intros n _. apply lookup_empty.
Qed.

Lemma createParticleExplosion_size (r : rect) (d : page) (k : nat) :
  (forall m, (next_node d <= m)%nat -> body d !! m = None) ->
  size (body (fst (createParticleExplosion r d k))) = (size (body d) + 20)%nat.
Proof. intros Hfresh. apply (emit_loop_size explosion_cfg (center_x r) (center_y r)); [apply explosion_step_ok|exact Hfresh]. Qed.

(** C17: from any page satisfying the invariant, one
    explosion attaches exactly 20 more particles, and once all pending
    tweens have completed, none is attached and none is pending. *)
Theorem createParticleExplosion_lifecycle (r : rect) (d : page) (k : nat) :
  page_inv d ->
  let d' := fst (createParticleExplosion r d k) in
  size (body d') = (size (body d) + 20)%nat /\
  body (complete_all d') = ∅ /\ tweens (complete_all d') = ∅.
Proof.
  intros Hinv d'.
  pose proof (createParticleExplosion_size r d k (proj2 Hinv)) as Hsize.
  pose proof (emits_from_inv _ _ _ _ _ _ _ Hinv (createParticleExplosion_loop r d k)) as Hinv'.
  fold d' in Hsize, Hinv'. clearbody d'. split; [exact Hsize|].
  unfold complete_all.
  destruct (fold_complete d' (elements (dom (tweens d'))) Hinv') as [_ ->].
  cbn [body tweens]. split; apply fold_delete_all; [apply Hinv'|done].
Qed.

End LifecycleTheorems.

(** ** Witnesses, with [quarter_random] and [flat_trig] *)

Section Witnesses.
#[local] Existing Instance quarter_random.
#[local] Existing Instance flat_trig.

Definition button_rect : rect := Rect 100 200 160 40.

Lemma createParticleExplosion_emits_witness :
  emit_contract (r_left button_rect + r_width button_rect / 2) (r_top button_rect + r_height button_rect / 2) 20 4 "#00d4ff" 100 150 1 0 empty_page (fst (createParticleExplosion button_rect empty_page 0%nat)).
Proof. apply (@createParticleExplosion_emits quarter_random quarter_random_ok flat_trig flat_trig_ok button_rect). Defined.

Lemma createSuccessParticles_emits_witness :
  emit_contract (r_left button_rect + r_width button_rect / 2) (r_top button_rect + r_height button_rect / 2) 15 6 "#4ade80" 80 120 (12 # 10) (3 # 10) empty_page (fst (createSuccessParticles button_rect empty_page 0%nat)).
Proof. apply (@createSuccessParticles_emits quarter_random quarter_random_ok flat_trig flat_trig_ok button_rect). Defined.

Lemma page_reachable_inv_witness :
  star page_step (empty_page, 0%nat) (createParticleExplosion button_rect empty_page 0%nat) /\
  page_inv (fst (createParticleExplosion button_rect empty_page 0%nat)).
Proof.
  assert (Hs : star page_step (empty_page, 0%nat) (createParticleExplosion button_rect empty_page 0%nat))
    by (apply star_one; constructor).
  split; [exact Hs|].
  apply (@page_reachable_inv quarter_random quarter_random_ok flat_trig 0 _ Hs).
Defined.

Lemma createParticleExplosion_lifecycle_witness :
  page_inv empty_page /\
  size (body (fst (createParticleExplosion button_rect empty_page 0%nat))) = (size (body empty_page) + 20)%nat /\
  body (complete_all (fst (createParticleExplosion button_rect empty_page 0%nat))) = ∅ /\
  tweens (complete_all (fst (createParticleExplosion button_rect empty_page 0%nat))) = ∅.
Proof.
  assert (Hinv : page_inv empty_page) by (split; [done|intros n _; apply lookup_empty]).
  split; [exact Hinv|].
  apply (@createParticleExplosion_lifecycle quarter_random quarter_random_ok flat_trig button_rect _ 0 Hinv).
Defined.

End Witnesses.

End EffectEmitter.
