(* ===== verification/Timers.v ===== *)
(** * Timers: [setTimeout] as the browser's event loop runs it

    The collaborator of the form handler (src/script.js, lines 784-813)
    and of the loading screen: one-shot timers on a virtual millisecond
    clock.  A timer is due at [now + delay]; letting time pass up to a
    limit fires the due timers one at a time, earliest first and, among
    timers due at the same time, in the order they were set (HTML's timer
    ordering).  [setInterval] timers carry their period and are re-armed
    when they fire, before their callback runs, so that a [clearInterval]
    in the callback removes the re-armed timer; [clearTimeout] and
    [clearInterval] remove a timer by its handle.  A callback runs against the component's state and may set
    new timers.  The callbacks are a type of the client (a closure is a
    constructor with its captured values), and [advance] is parameterised
    by the client's [run_cb], its interface to this scheduler.  This is a
    model of the browser, not of code of the repository. *)

From Stdlib Require Import Arith NArith Lia List.
From stdpp Require Import base list sets.
From S2P Require Import Prelude.

Module Timers.

Section Scheduler.
Context {Cb : Type}.

Record timer : Type := Timer { t_due : N; t_id : nat; t_period : option N; t_cb : Cb }.

(** The clock counts milliseconds. *)
Record sched : Type := Sched { now : N; next_id : nat; queue : list timer }.

Definition sched_at (t0 : N) : sched := Sched t0 1 [].

(** [setTimeout(cb, delay)]; the handle it returns is [next_id s]. *)
Definition set_timeout (cb : Cb) (delay : N) (s : sched) : sched :=
  Sched (now s) (S (next_id s)) (queue s ++ [Timer (now s + delay)%N (next_id s) None cb]).

(** [setInterval(cb, period)]; the handle it returns is [next_id s]. *)
Definition set_interval (cb : Cb) (period : N) (s : sched) : sched :=
  Sched (now s) (S (next_id s)) (queue s ++ [Timer (now s + period)%N (next_id s) (Some period) cb]).

(** [clearTimeout(id)] and [clearInterval(id)]. *)
Definition clear_timer (id : nat) (s : sched) : sched :=
  Sched (now s) (next_id s) (List.filter (fun u => negb (Nat.eqb (t_id u) id)) (queue s)).

(** The first timer due at or before [limit]: earliest due time, and
    among equal due times the one set first (earlier in the queue). *)
Fixpoint first_due (limit : N) (q : list timer) : option timer :=
  match q with
  | [] => None
  | t :: rest =>
      let r := first_due limit rest in
      if (t_due t <=? limit)%N then
        match r with
        | Some u => if (t_due u <? t_due t)%N then Some u else Some t
        | None => Some t
        end
      else r
  end.

Definition remove_timer (t : timer) (q : list timer) : list timer :=
  List.filter (fun u => negb (Nat.eqb (t_id u) (t_id t))) q.

(** A timer that fires leaves the queue; an interval comes back one
    period after the time it fired, with the same handle. *)
Definition rearm (at_ : N) (t : timer) (q : list timer) : list timer :=
  match t_period t with
  | Some p => q ++ [Timer (at_ + p)%N (t_id t) (Some p) (t_cb t)]
  | None => q
  end.

Context {St : Type} (run_cb : Cb -> sched -> St -> sched * St).

(** Let time pass until [limit], firing every due timer ([fuel] bounds
    the number of callbacks run; see the clients' fuel lemmas). *)
Fixpoint advance (fuel : nat) (limit : N) (s : sched) (st : St) : sched * St :=
  match first_due limit (queue s) with
  | None => (Sched (N.max (now s) limit) (next_id s) (queue s), st)
  | Some t =>
      match fuel with
      | O => (s, st)
      | S f =>
          let at_ := N.max (now s) (t_due t) in
          let s1 := Sched at_ (next_id s) (rearm at_ t (remove_timer t (queue s))) in
          let '(s2, st2) := run_cb (t_cb t) s1 st in
          advance f limit s2 st2
      end
  end.

Lemma advance_idle fuel limit s st :
  first_due limit (queue s) = None ->
  advance fuel limit s st = (Sched (N.max (now s) limit) (next_id s) (queue s), st).
Proof. intros H. destruct fuel; simpl; by rewrite H. Qed.

Lemma advance_fire f limit s st t :
  first_due limit (queue s) = Some t ->
  advance (S f) limit s st =
    let at_ := N.max (now s) (t_due t) in
    let '(s2, st2) := run_cb (t_cb t) (Sched at_ (next_id s) (rearm at_ t (remove_timer t (queue s)))) st in
    advance f limit s2 st2.
Proof. intros H. simpl. by rewrite H. Qed.

Lemma first_due_single limit t :
  first_due limit [t] = if (t_due t <=? limit)%N then Some t else None.
Proof. reflexivity. Qed.

Lemma first_due_none limit q :
  Forall (fun t => (limit < t_due t)%N) q -> first_due limit q = None.
Proof.
  induction 1 as [|t q Ht Hq IH]; simpl; [done|].
  rewrite IH. destruct (N.leb_spec (t_due t) limit); [lia|done].
Qed.

Lemma first_due_some limit q t :
  first_due limit q = Some t -> In t q /\ (t_due t <= limit)%N.
Proof.
  revert t; induction q as [|u q IH]; intros t H; simpl in H; [done|].
  destruct (N.leb_spec (t_due u) limit).
  - destruct (first_due limit q) as [v|] eqn:E.
    + destruct (N.ltb_spec (t_due v) (t_due u)); injection H as <-.
      * destruct (IH v eq_refl). split; [right|]; done.
      * split; [left|]; done.
    + injection H as <-. split; [left|]; done.
  - destruct (IH t H). split; [right|]; done.
Qed.

Lemma remove_timer_single t : remove_timer t [t] = [].
Proof. unfold remove_timer. simpl. by rewrite Nat.eqb_refl. Qed.

Lemma rearm_once at_ t q : t_period t = None -> rearm at_ t q = q.
Proof. unfold rearm. by intros ->. Qed.

(** Queues of [setTimeout] timers only. *)
Definition one_shot (q : list timer) : Prop := Forall (fun t => t_period t = None) q.

Lemma one_shot_remove t q : one_shot q -> one_shot (remove_timer t q).
Proof.
  unfold one_shot, remove_timer. induction 1 as [|u q Hu Hq IH]; simpl; [constructor|].
  destruct (negb _); [constructor|]; done.
Qed.

Lemma one_shot_fire at_ t q :
  one_shot q -> In t q -> one_shot (rearm at_ t (remove_timer t q)).
Proof.
  intros Hq Hin. rewrite rearm_once; [by apply one_shot_remove|].
  unfold one_shot in Hq. rewrite List.Forall_forall in Hq. by apply Hq.
Qed.

Lemma one_shot_set_timeout cb d s :
  one_shot (queue s) -> one_shot (queue (set_timeout cb d s)).
Proof. intros Hq. unfold one_shot. simpl. apply Forall_app. split; [exact Hq|by constructor]. Qed.

(** An invariant of the scheduler and the client's state that every
    callback preserves holds after time passes. *)
Lemma advance_inv (I : sched -> St -> Prop) limit :
  (forall t s st, In t (queue s) -> I s st ->
     let at_ := N.max (now s) (t_due t) in
     let r := run_cb (t_cb t) (Sched at_ (next_id s) (rearm at_ t (remove_timer t (queue s)))) st in
     I (fst r) (snd r)) ->
  (forall s st, I s st -> I (Sched (N.max (now s) limit) (next_id s) (queue s)) st) ->
  forall fuel s st, I s st -> I (fst (advance fuel limit s st)) (snd (advance fuel limit s st)).
Proof.
  intros Hcb Hidle fuel. induction fuel as [|f IH]; intros s st Hs;
    destruct (first_due limit (queue s)) as [t|] eqn:E;
    try (rewrite advance_idle by done; by apply Hidle).
  - simpl. rewrite E. exact Hs.
  - rewrite (advance_fire _ _ _ _ t E).
    destruct (first_due_some _ _ _ E) as [Hin _].
    specialize (Hcb t s st Hin Hs). cbv zeta in Hcb |- *.
    destruct (run_cb _ _ _) as [s2 st2]. by apply IH.
Qed.


(** ** Handles are fresh and distinct *)

Definition ids_wf (s : sched) : Prop :=
  (forall u, In u (queue s) -> (t_id u < next_id s)%nat) /\ NoDup (map t_id (queue s)).

Lemma NoDup_map_filter {A B} (g : A -> B) (f : A -> bool) (l : list A) :
  NoDup (map g l) -> NoDup (map g (List.filter f l)).
Proof.
  induction l as [|x l IH]; simpl; intros Hnd; [constructor|]. inversion Hnd as [|? ? Hx Hl]; subst.
  destruct (f x); simpl; [|by apply IH]. constructor; [|by apply IH].
  intros Hin. apply Hx. apply list_elem_of_In in Hin. apply list_elem_of_In.
  apply in_map_iff in Hin as (y & Hy & Hin). apply filter_In in Hin as [Hin _].
  apply in_map_iff. eauto.
Qed.

Lemma ids_wf_add (t : timer) (s : sched) :
  ids_wf s -> t_id t = next_id s ->
  ids_wf (Sched (now s) (S (next_id s)) (queue s ++ [t])).
Proof.
  intros [Hb Hnd] Ht. split; simpl.
  - intros u Hu. apply in_app_or in Hu as [Hu|[<-|[]]]; [specialize (Hb u Hu); lia|lia].
  - rewrite map_app. apply NoDup_app. split_and!; [done| |simpl; constructor; [set_solver|constructor]].
    intros x Hx Hx'. apply list_elem_of_In in Hx. simpl in Hx'. apply list_elem_of_singleton in Hx'.
    subst x. apply in_map_iff in Hx as (u & Hu & Hin). specialize (Hb u Hin). lia.
Qed.

Lemma ids_wf_set_timeout c d s : ids_wf s -> ids_wf (set_timeout c d s).
Proof. intros Hs. by apply ids_wf_add. Qed.

Lemma ids_wf_set_interval c d s : ids_wf s -> ids_wf (set_interval c d s).
Proof. intros Hs. by apply ids_wf_add. Qed.

Lemma ids_wf_clear id s : ids_wf s -> ids_wf (clear_timer id s).
Proof.
  intros [Hb Hnd]. split; simpl; [|by apply NoDup_map_filter].
  intros u Hu. apply filter_In in Hu as [Hu _]. by apply Hb.
Qed.

Lemma ids_wf_fire at_ t s :
  ids_wf s -> In t (queue s) -> ids_wf (Sched at_ (next_id s) (rearm at_ t (remove_timer t (queue s)))).
Proof.
  intros [Hb Hnd] Hin. unfold rearm.
  assert (Hr : ids_wf (Sched at_ (next_id s) (remove_timer t (queue s)))).
  { split; simpl; [|by apply NoDup_map_filter].
    intros u Hu. apply filter_In in Hu as [Hu _]. by apply Hb. }
  destruct (t_period t) as [p|]; [|exact Hr]. destruct Hr as [Hb' Hnd']. split; simpl in *.
  - intros u Hu. apply in_app_or in Hu as [Hu|[<-|[]]]; [by apply Hb'|simpl; by apply Hb].
  - rewrite map_app. apply NoDup_app. split_and!; [done| |simpl; constructor; [set_solver|constructor]].
    intros x Hx Hx'. apply list_elem_of_In in Hx. simpl in Hx'. apply list_elem_of_singleton in Hx'.
    subst x. apply in_map_iff in Hx as (u & Hu & Hu'). unfold remove_timer in Hu'.
    apply filter_In in Hu' as [_ Hne]. rewrite Hu, Nat.eqb_refl in Hne. done.
Qed.

End Scheduler.

Arguments sched : clear implicits.
Arguments timer : clear implicits.

End Timers.
