(* ===== verification/Form.v ===== *)
(** * Form handling: [initFormHandling] (src/script.js, lines 721-815)

    Each [.form-group] gets a focus handler (underline to 100%, label
    floated up) and a blur handler (back to rest when the field is empty).
    The submit handler remembers the button label, shows
    "Transmitting...", and sets a 2 s timer; that timer shows
    "Message Sent! 🚀", fires the success particles ([Particles.v]) and
    sets a 3 s timer; that one resets the form, the labels and the button
    label to the remembered text.  The timers run on the scheduler of
    [Timers.v]; the two closures are the constructors of [cb] with the
    text they captured.  gsap tweens are modelled by the values they end
    at.  The theorems give the spec's scenario, the abstract three-phase
    machine the handler implements when a submission is not interrupted,
    what a second submission inside the window does, the focus/blur
    behaviour, and that the chosen fuel runs every due timer. *)

From Stdlib Require Import QArith Lqa String Arith NArith Lia.
From stdpp Require Import base list gmap.
From S2P Require Import Prelude Particles Timers.

Local Open Scope Q_scope.
Local Open Scope js_scope.

Module FormHandling.
Import EffectEmitter Timers.

(** The particles of a success are the business of [Particles.v]: here
    their result is kept folded. *)
#[local] Opaque createSuccessParticles.

(** The label's tweened properties: [y], [scale], [color]. *)
Record label : Type := Label { l_y : Q; l_scale : Q; l_color : string }.

Definition label_rest : label := Label 0 1 "#b0b0b0".
Definition label_up : label := Label (-20) (8 # 10) "#00d4ff".

(** A [.form-group]: its field's value, its label, its [.form-border] width. *)
Record group : Type := Group { g_value : string; g_label : label; g_border : string }.

Record form : Type := Form {
  btn_text : string;         (** [submitBtn.querySelector('span').textContent] *)
  btn_pulses : nat;          (** the [scale: 0.95] yoyo tweens started *)
  groups : list group;
  fx : page;                 (** the page the success particles go to *)
  rng : nat                  (** next [Math.random] draw *)
}.

Definition sending_text : string := "Transmitting...".
Definition sent_text : string := "Message Sent! 🚀".

(** The two [setTimeout] closures, with the [originalText] they captured. *)
Inductive cb : Type :=
| SentCb (orig : string)
| ResetCb (orig : string).

Definition set_groups (gs : list group) (f : form) : form :=
  Form (btn_text f) (btn_pulses f) gs (fx f) (rng f).

(** [input.addEventListener('focus', ...)] *)
Definition on_focus (i : nat) (f : form) : form :=
  set_groups (alter (fun g => Group (g_value g) label_up "100%") i (groups f)) f.

(** [input.addEventListener('blur', ...)]: only when [!input.value]. *)
Definition on_blur (i : nat) (f : form) : form :=
  match groups f !! i with
  | Some g => if String.eqb (g_value g) ""
              then set_groups (<[i := Group (g_value g) label_rest "0%"]> (groups f)) f
              else f
  | None => f
  end.

(** The user types into field [i] (not code of the page: the input event). *)
Definition on_input (i : nat) (v : string) (f : form) : form :=
  set_groups (alter (fun g => Group v (g_label g) (g_border g)) i (groups f)) f.

(** [form.reset()] and the label/border tweens of the reset timer. *)
Definition reset_group (g : group) : group := Group "" label_rest "0%".

Section Handlers.
Context `{Random} `{Trig}.

(** [submitBtn.getBoundingClientRect()] *)
Variable btn_rect : rect.

(** [form.addEventListener('submit', ...)] *)
Definition on_submit (s : sched cb) (f : form) : sched cb * form :=
  let originalText := btn_text f in
  (set_timeout (SentCb originalText) 2000 s,
   Form sending_text (S (btn_pulses f)) (groups f) (fx f) (rng f)).

(** The timer callbacks. *)
Definition run_cb (c : cb) (s : sched cb) (f : form) : sched cb * form :=
  match c with
  | SentCb originalText =>
      let '(fx', rng') := createSuccessParticles btn_rect (fx f) (rng f) in
      (set_timeout (ResetCb originalText) 3000 s,
       Form sent_text (btn_pulses f) (groups f) fx' rng')
  | ResetCb originalText =>
      (s, Form originalText (btn_pulses f) (map reset_group (groups f)) (fx f) (rng f))
  end.

(** What can happen to the form: user events, and time passing. *)
Inductive event : Type :=
| Submit
| Focus (i : nat)
| Blur (i : nat)
| Input (i : nat) (v : string)
| Wait (ms : N).

(** Each pending [SentCb] runs at most two callbacks, each [ResetCb] one. *)
Definition timer_fuel (s : sched cb) : nat := 2 * length (queue s) + 1.

Definition handle (ev : event) (w : sched cb * form) : sched cb * form :=
  let '(s, f) := w in
  match ev with
  | Submit => on_submit s f
  | Focus i => (s, on_focus i f)
  | Blur i => (s, on_blur i f)
  | Input i v => (s, on_input i v f)
  | Wait ms => advance run_cb (timer_fuel s) (now s + ms)%N s f
  end.

Definition run_events (evs : list event) (w : sched cb * form) : sched cb * form :=
  fold_left (fun w ev => handle ev w) evs w.

End Handlers.

(** ** The spec's submission machine

    The spec (section 9) describes the simulated submission as the
    machine Idle -> Sending -> Sent -> Idle driven by virtual time, the
    submit control being disabled "in spirit" outside Idle.  A phase
    records the time of the submission that started it. *)

Inductive phase : Type :=
| Idle
| Sending (t : N)
| Sent (t : N).

Definition phase_text (orig : string) (p : phase) : string :=
  match p with
  | Idle => orig
  | Sending _ => sending_text
  | Sent _ => sent_text
  end.

(** Where a phase is at clock [c]: 2 s of sending, then 3 s of sent. *)
Definition phase_at (p : phase) (c : N) : phase :=
  match p with
  | Idle => Idle
  | Sending t => if c <? t + 2000 then Sending t else if c <? t + 5000 then Sent t else Idle
  | Sent t => if c <? t + 5000 then Sent t else Idle
  end%N.

(** The spec's run: [None] when a submission arrives outside Idle. *)
Fixpoint spec_run (evs : list event) (p : phase) (c : N) : option (phase * N) :=
  match evs with
  | [] => Some (p, c)
  | Submit :: rest => match p with Idle => spec_run rest (Sending c) c | _ => None end
  | Wait ms :: rest => spec_run rest (phase_at p (c + ms)%N) (c + ms)%N
  | _ :: rest => spec_run rest p c
  end.

(** How a state of the handler represents a phase. *)
Definition sim (orig : string) (w : sched cb * form) (p : phase) : Prop :=
  let '(s, f) := w in
  match p with
  | Idle => queue s = [] /\ btn_text f = orig
  | Sending t => (exists id, queue s = [Timer (t + 2000) id None (SentCb orig)]) /\
                 btn_text f = sending_text /\ t <= now s < t + 2000
  | Sent t => (exists id, queue s = [Timer (t + 5000) id None (ResetCb orig)]) /\
              btn_text f = sent_text /\ t + 2000 <= now s < t + 5000
  end%N.

Section Refinement.
Context `{Random} `{Trig}.
Variable btn_rect : rect.

Lemma wait_idle orig s f ms :
  sim orig (s, f) Idle ->
  sim orig (handle btn_rect (Wait ms) (s, f)) Idle /\
  now (fst (handle btn_rect (Wait ms) (s, f))) = (now s + ms)%N.
Proof.
  intros [Hq Ht]. simpl. rewrite advance_idle by (rewrite Hq; done). simpl.
  nat_tests. done.
Qed.

Lemma wait_sending orig s f ms t :
  sim orig (s, f) (Sending t) ->
  sim orig (handle btn_rect (Wait ms) (s, f)) (phase_at (Sending t) (now s + ms)%N) /\
  now (fst (handle btn_rect (Wait ms) (s, f))) = (now s + ms)%N.
Proof.
  intros [[id Hq] [Ht Hn]]. simpl. unfold timer_fuel. rewrite Hq.
  replace (2 * length _ + 1)%nat with 3%nat by reflexivity.
  destruct (N.ltb_spec (now s + ms) (t + 2000)).
  - rewrite advance_idle by (rewrite Hq, first_due_single; simpl; nat_tests; done).
    simpl. nat_tests. split; [|done]. split; [by exists id|]. split; [done|lia].
  - rewrite (advance_fire _ _ _ _ _ (Timer (t + 2000) id None (SentCb orig)))
      by (rewrite Hq, first_due_single; simpl; nat_tests; done).
    simpl. rewrite Hq, remove_timer_single.
    destruct (createSuccessParticles btn_rect (fx f) (rng f)) as [fx1 k1].
    unfold set_timeout; simpl. nat_tests.
    destruct (N.ltb_spec (now s + ms) (t + 5000)).
    + nat_tests. simpl. nat_tests.
      split; [|done]. split; [exists (next_id s); by replace (t + 2000 + 3000)%N with (t + 5000)%N by lia|].
      split; [done|lia].
    + nat_tests. simpl. rewrite Nat.eqb_refl. simpl. nat_tests. done.
Qed.

Lemma wait_sent orig s f ms t :
  sim orig (s, f) (Sent t) ->
  sim orig (handle btn_rect (Wait ms) (s, f)) (phase_at (Sent t) (now s + ms)%N) /\
  now (fst (handle btn_rect (Wait ms) (s, f))) = (now s + ms)%N.
Proof.
  intros [[id Hq] [Ht Hn]]. simpl. unfold timer_fuel. rewrite Hq.
  replace (2 * length _ + 1)%nat with 3%nat by reflexivity.
  destruct (N.ltb_spec (now s + ms) (t + 5000)).
  - rewrite advance_idle by (rewrite Hq, first_due_single; simpl; nat_tests; done).
    simpl. nat_tests. split; [|done]. split; [by exists id|]. split; [done|lia].
  - rewrite (advance_fire _ _ _ _ _ (Timer (t + 5000) id None (ResetCb orig)))
      by (rewrite Hq, first_due_single; simpl; nat_tests; done).
    simpl. rewrite Hq. simpl. rewrite ?Nat.eqb_refl. simpl. nat_tests. done.
Qed.

Lemma sim_text orig w p : sim orig w p -> btn_text (snd w) = phase_text orig p.
Proof. destruct w as [s f], p; simpl; intuition. Qed.

(** The field handlers leave the button label alone. *)
Lemma sim_fields orig s f f' p :
  btn_text f' = btn_text f -> sim orig (s, f) p -> sim orig (s, f') p.
Proof. intros Ht. destruct p; simpl; rewrite Ht; done. Qed.

Lemma on_blur_text i f : btn_text (on_blur i f) = btn_text f.
Proof. unfold on_blur. destruct (groups f !! i); [|done]. by destruct (String.eqb _ _). Qed.

Lemma submit_idle orig s f :
  sim orig (s, f) Idle ->
  sim orig (handle btn_rect Submit (s, f)) (Sending (now s)) /\
  now (fst (handle btn_rect Submit (s, f))) = now s.
Proof.
  intros [Hq Ht]. simpl. unfold set_timeout. rewrite Hq, Ht. simpl.
  split; [|done]. split; [by eexists|]. split; [done|lia].
Qed.

End Refinement.

(** C1: as long as the button is only submitted when idle,
    the handler implements the spec's machine: after any sequence of
    submissions, field events and waits, the clock agrees, the pending
    timers are those of the current phase, and the button reads
    [originalText], "Transmitting..." or "Message Sent! 🚀" as the phase
    says. *)
Theorem form_refines_spec `{Random} `{Trig} (btn_rect : rect) (orig : string)
    (evs : list event) (s : sched cb) (f : form) (p p' : phase) (c' : N) :
  sim orig (s, f) p -> spec_run evs p (now s) = Some (p', c') ->
  sim orig (run_events btn_rect evs (s, f)) p' /\
  now (fst (run_events btn_rect evs (s, f))) = c' /\
  btn_text (snd (run_events btn_rect evs (s, f))) = phase_text orig p'.
Proof.
  revert s f p; induction evs as [|ev evs IH]; intros s f p Hsim Hrun.
  - injection Hrun as <- <-. split; [done|]. split; [done|]. exact (sim_text _ _ _ Hsim).
  - change (run_events btn_rect (ev :: evs) (s, f))
      with (run_events btn_rect evs (handle btn_rect ev (s, f))).
    assert (Hstep : exists p1, sim orig (handle btn_rect ev (s, f)) p1 /\
                      spec_run evs p1 (now (fst (handle btn_rect ev (s, f)))) = Some (p', c')).
    { destruct ev as [| i | i | i v | ms]; simpl in Hrun.
      - destruct p; try discriminate.
        destruct (submit_idle btn_rect orig s f Hsim) as [Hs Hn].
        exists (Sending (now s)). by rewrite Hn.
      - exists p. split; [by apply (sim_fields _ _ f)|done].
      - exists p. split; [apply (sim_fields _ _ f); [apply on_blur_text|done]|done].
      - exists p. split; [by apply (sim_fields _ _ f)|done].
      - exists (phase_at p (now s + ms)%N).
        assert (Hw : sim orig (handle btn_rect (Wait ms) (s, f)) (phase_at p (now s + ms)%N) /\
                     now (fst (handle btn_rect (Wait ms) (s, f))) = (now s + ms)%N).
        { destruct p; [apply wait_idle|apply wait_sending|apply wait_sent]; done. }
        destruct Hw as [Hs Hn]. by rewrite Hn. }
    destruct Hstep as [p1 [Hs Hr]].
    destruct (handle btn_rect ev (s, f)) as [s1 f1]. eapply IH; eauto.
Qed.

(** Run the handler on concrete events at a symbolic clock: decide the
    timer comparisons, keep each emission of particles folded. *)
Ltac run_form :=
  repeat (progress (nat_tests; simpl;
    try match goal with |- context [createSuccessParticles ?r ?p ?n] =>
          destruct (createSuccessParticles r p n) end)).

Definition idle_form (gs : list group) (pg : page) (k : nat) : form :=
  Form "Send Message" 0 gs pg k.

(** C18: the spec's scenario.  Submitting the contact form
    at any time t0 shows "Transmitting..." until t0 + 2 s, then
    "Message Sent! 🚀" until t0 + 5 s, then "Send Message" again, with
    every field cleared, every label and underline back at rest, and no
    timer left. *)
Theorem submit_scenario `{Random} `{Trig} (btn_rect : rect) (t0 : N) (gs : list group)
    (pg : page) (k : nat) :
  let w0 := (sched_at t0, idle_form gs pg k) in
  btn_text (snd (run_events btn_rect [Submit] w0)) = "Transmitting..."%string /\
  btn_text (snd (run_events btn_rect [Submit; Wait 1999] w0)) = "Transmitting..."%string /\
  btn_text (snd (run_events btn_rect [Submit; Wait 2000] w0)) = "Message Sent! 🚀"%string /\
  btn_text (snd (run_events btn_rect [Submit; Wait 4999] w0)) = "Message Sent! 🚀"%string /\
  btn_text (snd (run_events btn_rect [Submit; Wait 5000] w0)) = "Send Message"%string /\
  groups (snd (run_events btn_rect [Submit; Wait 5000] w0)) = map reset_group gs /\
  queue (fst (run_events btn_rect [Submit; Wait 5000] w0)) = [].
Proof. intros w0. subst w0. unfold run_events. run_form. repeat split. Qed.

(** C2: the submit control is never disabled.  A second
    submission less than 5 s after the first captures the label showing
    at that moment as its [originalText]; when both cycles are over, no
    timer is pending and the button is left reading "Transmitting..."
    (second submission within 2 s) or "Message Sent! 🚀" (within 2-5 s),
    never "Send Message" again. *)
Theorem double_submit_sticks `{Random} `{Trig} (btn_rect : rect) (t0 d : N)
    (gs : list group) (pg : page) (k : nat) :
  (d < 5000)%N ->
  let w := run_events btn_rect [Submit; Wait d; Submit; Wait 5000]
                      (sched_at t0, idle_form gs pg k) in
  queue (fst w) = [] /\
  btn_text (snd w) = (if (d <? 2000)%N then sending_text else sent_text).
Proof.
  intros Hd w. subst w. unfold run_events.
  destruct (N.lt_ge_cases d 2000); [|destruct (N.lt_ge_cases d 3000)]; run_form; done.
Qed.

(** C33: focusing field i floats its label and fills its
    underline; blurring it afterwards puts both back exactly when the
    field is empty.  The other fields are untouched. *)
Theorem focus_blur_label (i : nat) (f : form) (g : group) :
  groups f !! i = Some g ->
  let f' := on_blur i (on_focus i f) in
  groups f' !! i =
    Some (if String.eqb (g_value g) "" then Group "" label_rest "0%"
          else Group (g_value g) label_up "100%") /\
  (forall j, j <> i -> groups f' !! j = groups f !! j) /\
  btn_text f' = btn_text f.
Proof.
  intros Hg f'. subst f'.
  assert (Hfoc : groups (on_focus i f) !! i = Some (Group (g_value g) label_up "100%"))
    by (unfold on_focus, set_groups; cbn [groups]; by rewrite list_lookup_alter_eq, Hg).
  assert (Hoth : forall j, j <> i -> groups (on_focus i f) !! j = groups f !! j)
    by (intros j Hj; unfold on_focus, set_groups; cbn [groups]; apply list_lookup_alter_ne; congruence).
  unfold on_blur. rewrite Hfoc. cbn [g_value].
  destruct (String.eqb_spec (g_value g) "") as [Hv|Hv]; simpl.
  - rewrite Hv. split; [|split; [|done]].
    + apply list_lookup_insert_eq. apply lookup_lt_Some in Hfoc. exact Hfoc.
    + intros j Hj. rewrite list_lookup_insert_ne by done. by apply Hoth.
  - split; [exact Hfoc|split; [exact Hoth|done]].
Qed.

(** ** Fuel: a wait runs every timer that falls due *)

(** A pending [SentCb] still has two callbacks to run, a [ResetCb] one. *)
Definition cb_weight (c : cb) : nat := match c with SentCb _ => 2 | ResetCb _ => 1 end.

Definition queue_weight (q : list (timer cb)) : nat :=
  fold_right (fun t acc => cb_weight (t_cb t) + acc)%nat 0%nat q.

Lemma queue_weight_app q1 q2 : queue_weight (q1 ++ q2) = (queue_weight q1 + queue_weight q2)%nat.
Proof. induction q1; simpl; lia. Qed.

Lemma queue_weight_le_fuel (s : sched cb) : (queue_weight (queue s) <= timer_fuel s)%nat.
Proof.
  unfold timer_fuel. induction (queue s) as [|t q IH]; simpl; [lia|].
  destruct (t_cb t); simpl; lia.
Qed.

Lemma remove_timer_weight_le t q : (queue_weight (remove_timer t q) <= queue_weight q)%nat.
Proof.
  induction q as [|u q IH]; simpl; [lia|].
  destruct (negb (Nat.eqb (t_id u) (t_id t))); simpl; lia.
Qed.

Lemma remove_timer_weight t q :
  In t q -> (queue_weight (remove_timer t q) + cb_weight (t_cb t) <= queue_weight q)%nat.
Proof.
  induction q as [|u q IH]; intros Hin; [done|]. destruct Hin as [->|Hin]; simpl.
  - rewrite Nat.eqb_refl. simpl. pose proof (remove_timer_weight_le t q). lia.
  - specialize (IH Hin). destruct (negb (Nat.eqb (t_id u) (t_id t))); simpl; lia.
Qed.

Lemma run_cb_one_shot `{Random} `{Trig} (btn_rect : rect) t (s : sched cb) (f : form) :
  one_shot (queue s) -> In t (queue s) ->
  let at_ := N.max (now s) (t_due t) in
  one_shot (queue (fst (run_cb btn_rect (t_cb t) (Sched at_ (next_id s) (rearm at_ t (remove_timer t (queue s)))) f))).
Proof.
  intros Hq Hin at_. pose proof (one_shot_fire at_ t _ Hq Hin) as H1.
  destruct (t_cb t); simpl; [|exact H1].
  destruct (createSuccessParticles btn_rect (fx f) (rng f)). by apply one_shot_set_timeout.
Qed.

(** The form only ever sets [setTimeout] timers. *)
Lemma handle_one_shot `{Random} `{Trig} (btn_rect : rect) ev (w : sched cb * form) :
  one_shot (queue (fst w)) -> one_shot (queue (fst (handle btn_rect ev w))).
Proof.
  destruct w as [s f]. intros Hq. destruct ev; simpl; try exact Hq.
  - by apply one_shot_set_timeout.
  - apply (advance_inv (run_cb btn_rect) (fun s _ => one_shot (queue s))); [|done|exact Hq].
    intros t s' f' Hin Hq'. by apply run_cb_one_shot.
Qed.

Lemma run_events_one_shot `{Random} `{Trig} (btn_rect : rect) evs (w : sched cb * form) :
  one_shot (queue (fst w)) -> one_shot (queue (fst (run_events btn_rect evs w))).
Proof.
  unfold run_events. revert w; induction evs as [|ev evs IH]; intros w Hq; [exact Hq|].
  simpl. apply IH, handle_one_shot, Hq.
Qed.

Lemma advance_drains `{Random} `{Trig} (btn_rect : rect) fuel limit (s : sched cb) (f : form) :
  one_shot (queue s) -> (queue_weight (queue s) <= fuel)%nat ->
  first_due limit (queue (fst (advance (run_cb btn_rect) fuel limit s f))) = None.
Proof.
  revert s f; induction fuel as [|fuel IH]; intros s f Hq Hw;
    destruct (first_due limit (queue s)) as [t|] eqn:E;
    try (rewrite advance_idle by done; exact E).
  - destruct (first_due_some _ _ _ E) as [Hin _].
    pose proof (remove_timer_weight t (queue s) Hin). destruct (t_cb t); simpl in *; lia.
  - rewrite (advance_fire _ _ _ _ _ t E).
    destruct (first_due_some _ _ _ E) as [Hin _].
    pose proof (run_cb_one_shot btn_rect t s f Hq Hin) as Hq'.
    pose proof (remove_timer_weight t (queue s) Hin) as Hr.
    assert (Hp : t_period t = None) by (unfold one_shot in Hq; rewrite List.Forall_forall in Hq; auto).
    cbv zeta in Hq' |- *. rewrite rearm_once in Hq' |- * by exact Hp.
    destruct (t_cb t) as [orig|orig] eqn:Ec; simpl in Hr, Hq' |- *.
    + destruct (createSuccessParticles btn_rect (fx f) (rng f)) as [fx1 k1].
      apply IH; [exact Hq'|]. unfold set_timeout; simpl. rewrite queue_weight_app. simpl. lia.
    + apply IH; [exact Hq'|]. simpl. lia.
Qed.

(** The fuel [handle] gives a wait is enough: from a fresh scheduler,
    after [Wait ms] no pending timer is due at or before the new time. *)
Lemma run_wait_drains `{Random} `{Trig} (btn_rect : rect) (evs : list event) (t0 ms : N)
    (f : form) :
  let w := run_events btn_rect evs (sched_at t0, f) in
  first_due (now (fst w) + ms)%N (queue (fst (handle btn_rect (Wait ms) w))) = None.
Proof.
  intros w. pose proof (run_events_one_shot btn_rect evs (sched_at t0, f) (List.Forall_nil _)) as Hq.
  fold w in Hq. destruct w as [s f']. apply advance_drains; [exact Hq|apply queue_weight_le_fuel].
Qed.

(** ** Witnesses, with [quarter_random] and [flat_trig] *)

Section Witnesses.
#[local] Existing Instance quarter_random.
#[local] Existing Instance flat_trig.

Definition contact_groups : list group :=
  [Group "Ada" label_up "100%"; Group "" label_rest "0%"].

Definition contact_form : form := idle_form contact_groups empty_page 0.

Definition contact_button : rect := Rect 100 200 160 40.

Lemma form_refines_spec_witness :
  (sim "Send Message" (sched_at 0, contact_form) Idle /\
   spec_run [Focus 1; Submit; Wait 2500; Blur 1; Wait 2500] Idle (now (sched_at (Cb:=cb) 0))
     = Some (Idle, 5000%N)) /\
  btn_text (snd (run_events contact_button [Focus 1; Submit; Wait 2500; Blur 1; Wait 2500]
                   (sched_at 0, contact_form))) = phase_text "Send Message" Idle.
Proof.
  assert (Hs : sim "Send Message" (sched_at 0, contact_form) Idle) by (split; reflexivity).
  assert (Hr : spec_run [Focus 1; Submit; Wait 2500; Blur 1; Wait 2500] Idle (now (sched_at (Cb:=cb) 0))
                 = Some (Idle, 5000%N)) by reflexivity.
  split; [split; [exact Hs|exact Hr]|].
  exact (proj2 (proj2 (form_refines_spec contact_button "Send Message" _ _ _ _ _ _ Hs Hr))).
Defined.

Lemma double_submit_sticks_witness :
  (500 < 5000)%N /\
  btn_text (snd (run_events contact_button [Submit; Wait 500; Submit; Wait 5000]
                  (sched_at 0, idle_form contact_groups empty_page 0)))
    = (if (500 <? 2000)%N then sending_text else sent_text).
Proof.
  assert (Hd : (500 < 5000)%N) by reflexivity.
  split; [exact Hd|].
  exact (proj2 (double_submit_sticks contact_button 0 500 contact_groups empty_page 0 Hd)).
Defined.

Lemma focus_blur_label_witness :
  groups contact_form !! 1%nat = Some (Group "" label_rest "0%") /\
  groups (on_blur 1 (on_focus 1 contact_form)) !! 1%nat = Some (Group "" label_rest "0%").
Proof.
  assert (Hg : groups contact_form !! 1%nat = Some (Group "" label_rest "0%")) by reflexivity.
  split; [exact Hg|].
  exact (proj1 (focus_blur_label 1%nat contact_form _ Hg)).
Defined.

End Witnesses.

End FormHandling.
