(* ===== verification/Scene.v ===== *)
(** * SceneAnimator: the three.js background (src/script.js, lines 74-286
    and 858-893)

    [init3DScene] builds the scene graph: the starfield ([createStarfield]),
    four planets with a glow child each ([createPlanets]), the nebula
    plane ([createNebula]) and two lights.  Three.js objects live in a heap
    ([gmap] from object id to object), because the code shares them: the
    global [planets] array and [scene.children] hold the same planet
    meshes, and [optimizePerformance] replaces the array by a slice while
    the scene keeps every mesh.  [animate]'s per-frame body is
    [animate_frame]:
    under the [isLoading] guard it rotates the stars and the planets in
    [planets], floats each planet on a sine, updates the first child with
    a [time] uniform, and moves the camera a twentieth of the way to a
    target derived from [window.mouseX]/[window.mouseY]; it always
    renders.  The camera's [x] and [y] are [jsnum]s, since
    [window.mouseX] is [undefined] until the first [mousemove].
    [Date.now()] is the tick's argument; [Math.random] and [Math.sin] are
    the oracles of [Prelude.v]. *)

From Stdlib Require Import QArith Qpower Qminmax Qabs Lqa String ZArith Lia.
From stdpp Require Import base list gmap.
From S2P Require Import Prelude.

Local Open Scope Q_scope.
Local Open Scope js_scope.

Module SceneAnimator.

Record vec3 : Type := V3 { vx : Q; vy : Q; vz : Q }.

Definition vzero : vec3 := V3 0 0 0.

(** The geometry of an object, with the parameters the code gives it. *)
Inductive geometry : Type :=
| PointsGeometry (positions : list Q) (item_size : nat)  (** [BufferGeometry] + [position] *)
| SphereGeometry (radius : Q)
| PlaneGeometry (w h : Q)
| NoGeometry.

(** What [animate] inspects of a material: [material.uniforms.time]. *)
Inductive material : Type :=
| PointsMaterial (color : Z) (size opacity : Q)
| PhongMaterial (color : Z) (emissiveIntensity shininess : Q)
| GlowMaterial (color : Z) (c p : Q)     (** uniforms [c], [p], [glowColor], [viewVector] *)
| NebulaMaterial (time : Q)              (** uniforms [time], [color1], [color2] *)
| AmbientLight (color : Z) (intensity : Q)
| DirectionalLight (color : Z) (intensity : Q).

Record obj : Type := Obj {
  o_geometry : geometry;
  o_material : material;
  o_position : vec3;
  o_rotation : vec3;
  o_userData : option (Q * Q);     (** [{ speed, originalY }] of a planet *)
  o_children : list nat
}.

Record camera : Type := Camera {
  cam_fov : Q; cam_aspect : Q; cam_near : Q; cam_far : Q;
  cam_x : jsnum; cam_y : jsnum; cam_z : Q;
  cam_proj_aspect : Q              (** the aspect of the projection matrix *)
}.

Record renderer : Type := Renderer {
  rd_width : Q; rd_height : Q; rd_pixelRatio : Q;
  rd_frames : nat                  (** calls of [renderer.render] *)
}.

(** The window as the code reads it; [mouse] holds [window.mouseX] and
    [window.mouseY], [None] while they are [undefined]. *)
Record window : Type := Window {
  innerWidth : Q; innerHeight : Q; devicePixelRatio : Q;
  mouse : option (Q * Q)
}.

Record world : Type := World {
  heap : gmap nat obj;
  next_obj : nat;
  children : list nat;             (** [scene.children], in insertion order *)
  stars : option nat;              (** the global [stars] *)
  planets : list nat;              (** the global [planets] array *)
  cam : camera;
  rd : renderer;
  isLoading : bool;
  win : window
}.

Definition set_heap (h : gmap nat obj) (w : world) : world :=
  World h (next_obj w) (children w) (stars w) (planets w) (cam w) (rd w) (isLoading w) (win w).
Definition set_cam (c : camera) (w : world) : world :=
  World (heap w) (next_obj w) (children w) (stars w) (planets w) c (rd w) (isLoading w) (win w).
Definition set_rd (r : renderer) (w : world) : world :=
  World (heap w) (next_obj w) (children w) (stars w) (planets w) (cam w) r (isLoading w) (win w).
Definition set_win (x : window) (w : world) : world :=
  World (heap w) (next_obj w) (children w) (stars w) (planets w) (cam w) (rd w) (isLoading w) x.
Definition set_planets (ps : list nat) (w : world) : world :=
  World (heap w) (next_obj w) (children w) (stars w) ps (cam w) (rd w) (isLoading w) (win w).
Definition set_stars (o : option nat) (w : world) : world :=
  World (heap w) (next_obj w) (children w) o (planets w) (cam w) (rd w) (isLoading w) (win w).
Definition set_children (cs : list nat) (w : world) : world :=
  World (heap w) (next_obj w) cs (stars w) (planets w) (cam w) (rd w) (isLoading w) (win w).
Definition set_loading (b : bool) (w : world) : world :=
  World (heap w) (next_obj w) (children w) (stars w) (planets w) (cam w) (rd w) b (win w).

(** [new THREE.Mesh(...)] and the like: a fresh object id. *)
Definition alloc (o : obj) (w : world) : nat * world :=
  (next_obj w,
   World (<[next_obj w := o]> (heap w)) (S (next_obj w)) (children w) (stars w) (planets w)
         (cam w) (rd w) (isLoading w) (win w)).

(** [scene.add(o)] *)
Definition scene_add (id : nat) (w : world) : world :=
  World (heap w) (next_obj w) (children w ++ [id]) (stars w) (planets w) (cam w) (rd w)
        (isLoading w) (win w).

(** The state before [init3DScene]: [let scene, camera, renderer, stars,
    planets = []; let isLoading = true;] *)
Definition world_at_load (x : window) : world :=
  World ∅ 0 [] None [] (Camera 0 0 0 0 (JNum 0) (JNum 0) 0 0) (Renderer 0 0 1 0) true x.

(** ** [createStarfield] *)

Definition starCount : nat := 10000.

Section Setup.
Context `{Random}.

Definition createStarfield (w : world) : Rnd world :=
  do positions <- rnd_repeat (starCount * 3) (fun r => (r - (1 # 2)) * 2000);
  do r <- random;
  let o := Obj (PointsGeometry positions 3) (PointsMaterial 0xffffff%Z (r * 2 + (1 # 2)) (8 # 10))
               vzero vzero None [] in
  let '(id, w1) := alloc o w in
  rnd_ret (scene_add id (set_stars (Some id) w1)).

End Setup.

(** ** [createPlanets] *)

Record planet_data : Type := PlanetData {
  pd_radius : Q; pd_color : Z; pd_position : vec3; pd_speed : Q
}.

Definition planetData : list planet_data := [
  PlanetData (8 # 10) 0x00d4ff%Z (V3 (-15) 5 (-10)) (1 # 100);
  PlanetData (12 # 10) 0xff6b6b%Z (V3 15 (-5) (-15)) (8 # 1000);
  PlanetData (6 # 10) 0xffd700%Z (V3 (-8) (-8) (-5)) (12 # 1000);
  PlanetData 1 0x8a2be2%Z (V3 12 8 (-8)) (9 # 1000)
].

(** One iteration of [planetData.forEach]: the planet mesh, its glow
    mesh added as its child, [planets.push(planet)], [scene.add(planet)]. *)
Definition add_planet (w : world) (data : planet_data) : world :=
  let planet := Obj (SphereGeometry (pd_radius data)) (PhongMaterial (pd_color data) (1 # 10) 100)
                    (pd_position data) vzero (Some (pd_speed data, vy (pd_position data))) [] in
  let '(pid, w1) := alloc planet w in
  let glow := Obj (SphereGeometry (pd_radius data * (12 # 10))) (GlowMaterial (pd_color data) (3 # 10) (14 # 10))
                  vzero vzero None [] in
  let '(gid, w2) := alloc glow w1 in
  let w3 := set_heap (<[pid := Obj (o_geometry planet) (o_material planet) (o_position planet)
                               (o_rotation planet) (o_userData planet) [gid]]> (heap w2)) w2 in
  scene_add pid (set_planets (planets w3 ++ [pid]) w3).

Definition createPlanets (w : world) : world := fold_left add_planet planetData w.

(** ** [createNebula] *)

Definition createNebula (w : world) : world :=
  let '(id, w1) := alloc (Obj (PlaneGeometry 100 100) (NebulaMaterial 0) (V3 0 0 (-50)) vzero None []) w in
  scene_add id w1.

(** ** [init3DScene] *)

(** [new THREE.PerspectiveCamera(75, innerWidth / innerHeight, 0.1, 1000)]
    with [camera.position.z = 5]. *)
Definition new_camera (x : window) : camera :=
  let a := innerWidth x / innerHeight x in
  Camera 75 a (1 # 10) 1000 (JNum 0) (JNum 0) 5 a.

Section Init.
Context `{Random}.

Definition init3DScene (w : world) : Rnd world :=
  let x := win w in
  let w1 := set_rd (Renderer (innerWidth x) (innerHeight x) (Qmin (devicePixelRatio x) 2) (rd_frames (rd w)))
                   (set_cam (new_camera x) (set_children [] w)) in
  do w2 <- createStarfield w1;
  let w3 := createNebula (createPlanets w2) in
  let '(aid, w4) := alloc (Obj NoGeometry (AmbientLight 0x404040%Z (4 # 10)) vzero vzero None []) w3 in
  let w5 := scene_add aid w4 in
  let '(did, w6) := alloc (Obj NoGeometry (DirectionalLight 0x00d4ff%Z 1) (V3 1 1 1) vzero None []) w5 in
  rnd_ret (scene_add did w6).

End Init.

(** ** [animate]: the body of one frame *)

Definition with_rotation (r : vec3) (o : obj) : obj :=
  Obj (o_geometry o) (o_material o) (o_position o) r (o_userData o) (o_children o).

(** [stars.rotation.x += 0.0005; stars.rotation.y += 0.0002], under [if (stars)]. *)
Definition rotate_stars (w : world) : world :=
  match stars w with
  | Some id =>
      set_heap (alter (fun o => let r := o_rotation o in
                         with_rotation (V3 (vx r + (1 # 2000)) (vy r + (1 # 5000)) (vz r)) o) id (heap w)) w
  | None => w
  end.

Section Animate.
Context `{Trig}.

(** The body of [planets.forEach((planet, index) => ...)].  Every planet
    has its [userData] (see [scene_wf]); the code would compute [NaN]
    from an object without one. *)
Definition move_planet (t : Q) (index : nat) (o : obj) : obj :=
  match o_userData o with
  | Some (speed, originalY) =>
      let r := o_rotation o in
      let p := o_position o in
      Obj (o_geometry o) (o_material o)
          (V3 (vx p) (originalY + js_sin (t * (1 # 1000) + inject_Z (Z.of_nat index)) * 2) (vz p))
          (V3 (vx r + speed * (1 # 2)) (vy r + speed) (vz r))
          (o_userData o) (o_children o)
  | None => o
  end.

Fixpoint move_planets (t : Q) (index : nat) (ps : list nat) (h : gmap nat obj) : gmap nat obj :=
  match ps with
  | [] => h
  | id :: rest => move_planets t (S index) rest (alter (move_planet t index) id h)
  end.

End Animate.

(** [child.material && child.material.uniforms && child.material.uniforms.time] *)
Definition has_time_uniform (o : obj) : bool :=
  match o_material o with NebulaMaterial _ => true | _ => false end.

(** [scene.children.find(...)] *)
Definition find_nebula (h : gmap nat obj) (cs : list nat) : option nat :=
  List.find (fun id => match h !! id with Some o => has_time_uniform o | None => false end) cs.

(** [nebula.material.uniforms.time.value = v] *)
Definition set_time (v : Q) (o : obj) : obj :=
  match o_material o with
  | NebulaMaterial _ => Obj (o_geometry o) (NebulaMaterial v) (o_position o) (o_rotation o)
                            (o_userData o) (o_children o)
  | _ => o
  end.

(** [(window.innerWidth / 2 - window.mouseX) * 0.0001] *)
Definition mouse_target (inner : Q) (m : option Q) : jsnum :=
  (JNum (inner / 2) -! js_of_undef m) *! JNum (1 # 10000).

(** [camera.position.x += (mouseX - camera.position.x) * 0.05] *)
Definition pursue (target cur : jsnum) : jsnum := cur +! (target -! cur) *! JNum (1 # 20).

Definition move_camera (w : world) : world :=
  let x := win w in
  let mouseX := mouse_target (innerWidth x) (option_map fst (mouse x)) in
  let mouseY := mouse_target (innerHeight x) (option_map snd (mouse x)) in
  let c := cam w in
  set_cam (Camera (cam_fov c) (cam_aspect c) (cam_near c) (cam_far c)
                  (pursue mouseX (cam_x c)) (pursue mouseY (cam_y c)) (cam_z c) (cam_proj_aspect c)) w.

(** [renderer.render(scene, camera)] *)
Definition render (w : world) : world :=
  let r := rd w in set_rd (Renderer (rd_width r) (rd_height r) (rd_pixelRatio r) (S (rd_frames r))) w.

(** The motion of one frame, at [Date.now() = t]. *)
Definition motion `{Trig} (t : Q) (w : world) : world :=
  let w1 := rotate_stars w in
  let w2 := set_heap (move_planets t 0 (planets w1) (heap w1)) w1 in
  let w3 := match find_nebula (heap w2) (children w2) with
            | Some id => set_heap (alter (set_time (t * (1 # 1000))) id (heap w2)) w2
            | None => w2
            end in
  move_camera w3.

(** [animate] after its [requestAnimationFrame(animate)] (see [FrameLoop.v]). *)
Definition animate_frame `{Trig} (t : Q) (w : world) : world :=
  render (if negb (isLoading w) then motion t w else w).

(** ** Window events *)

(** [window.addEventListener('mousemove', ...)] *)
Definition on_mousemove (clientX clientY : Q) (w : world) : world :=
  let x := win w in set_win (Window (innerWidth x) (innerHeight x) (devicePixelRatio x) (Some (clientX, clientY))) w.

(** The browser resizes the viewport; then [onWindowResize] runs. *)
Definition resize_window (iw ih : Q) (w : world) : world :=
  let x := win w in set_win (Window iw ih (devicePixelRatio x) (mouse x)) w.

Definition onWindowResize (w : world) : world :=
  let x := win w in
  let c := cam w in
  let a := innerWidth x / innerHeight x in
  set_rd (Renderer (innerWidth x) (innerHeight x) (rd_pixelRatio (rd w)) (rd_frames (rd w)))
         (set_cam (Camera (cam_fov c) a (cam_near c) (cam_far c) (cam_x c) (cam_y c) (cam_z c) a) w).

(** ** [optimizePerformance] *)

(** [reducedPositions[i] = positions[i * 2]] for [i < positions.length / 2]
    (the length is even: [Float32Array(n / 2)] would throw otherwise). *)
Definition reduce_positions (ps : list Q) : list Q :=
  map (fun i => nth (i * 2) ps 0) (seq 0 (length ps / 2)).

Definition reduce_stars (w : world) : world :=
  match stars w with
  | Some id =>
      match heap w !! id with
      | Some o =>
          match o_geometry o with
          | PointsGeometry ps _ =>
              set_heap (<[id := Obj (PointsGeometry (reduce_positions ps) 3) (o_material o) (o_position o)
                                    (o_rotation o) (o_userData o) (o_children o)]> (heap w)) w
          | _ => w
          end
      | None => w
      end
  | None => w
  end.

(** [if (window.innerWidth < 768) { ...stars...; planets = planets.slice(0, 2); }] *)
Definition optimizePerformance (w : world) : world :=
  if negb (Qle_bool 768 (innerWidth (win w)))
  then set_planets (take 2 (planets w)) (reduce_stars w)
  else w.

(** ** Runs of the scene

    The events that reach the scene after [init3DScene]: a frame of
    [animate] at [Date.now() = t], a pointer move, a viewport resize
    (followed by its listener), the [optimizePerformance] timer, and the
    end of loading ([isLoading = false] in [hideLoadingScreen]). *)

Inductive scene_event : Type :=
| Frame (t : Q)
| MouseMove (x y : Q)
| Resize (iw ih : Q)
| Optimize
| LoadingDone.

Definition scene_step `{Trig} (w : world) (e : scene_event) : world :=
  match e with
  | Frame t => animate_frame t w
  | MouseMove x y => on_mousemove x y w
  | Resize iw ih => onWindowResize (resize_window iw ih w)
  | Optimize => optimizePerformance w
  | LoadingDone => set_loading false w
  end.

Definition run_scene `{Trig} (evs : list scene_event) (w : world) : world :=
  fold_left scene_step evs w.

(** [n] frames at the given times. *)
Definition frames `{Trig} (ts : list Q) (w : world) : world :=
  fold_left (fun w t => animate_frame t w) ts w.

(** ** Well-formed scenes

    Every child of the scene is an object of the heap; every entry of
    [planets] is a child, a Phong mesh with its [userData], and occurs
    once; [stars] is a child without [userData]; ids from [next_obj] on
    are unused. *)
Definition planet_obj (o : obj) : Prop :=
  (exists c e sh, o_material o = PhongMaterial c e sh) /\ exists sp oy, o_userData o = Some (sp, oy).

Definition scene_wf (w : world) : Prop :=
  (forall id, id ∈ children w -> is_Some (heap w !! id)) /\
  (forall id, id ∈ planets w -> id ∈ children w /\ exists o, heap w !! id = Some o /\ planet_obj o) /\
  NoDup (planets w) /\
  (forall id, stars w = Some id -> id ∈ children w /\ exists o, heap w !! id = Some o /\ o_userData o = None) /\
  (forall id, (next_obj w <= id)%nat -> heap w !! id = None).

(** Heaps with the same objects up to rotation, position and uniforms. *)
Definition same_kind (o o' : obj) : Prop :=
  o_userData o' = o_userData o /\ has_time_uniform o' = has_time_uniform o /\
  ((exists c e sh, o_material o = PhongMaterial c e sh) -> exists c e sh, o_material o' = PhongMaterial c e sh).

Definition same_heap (h h' : gmap nat obj) : Prop :=
  forall id, match h !! id, h' !! id with
             | Some o, Some o' => same_kind o o'
             | None, None => True
             | _, _ => False
             end.

(** ** Lemmas: the shape of the heap *)

Create HintDb scene.

Lemma same_kind_refl o : same_kind o o.
Proof. split; [done|split; [done|auto]]. Qed.

Lemma same_heap_refl h : same_heap h h.
Proof. intros id. destruct (h !! id); [apply same_kind_refl|done]. Qed.

Lemma same_heap_trans h1 h2 h3 : same_heap h1 h2 -> same_heap h2 h3 -> same_heap h1 h3.
Proof.
  intros H12 H23 id. specialize (H12 id). specialize (H23 id).
  destruct (h1 !! id), (h2 !! id), (h3 !! id); try done.
  destruct H12 as (? & ? & ?), H23 as (? & ? & ?). split; [congruence|split; [congruence|auto]].
Qed.

Lemma same_heap_alter (f : obj -> obj) id h :
  (forall o, same_kind o (f o)) -> same_heap h (alter f id h).
Proof.
  intros Hf j. rewrite lookup_alter. case_decide; subst; [|destruct (h !! j); [apply same_kind_refl|done]].
  destruct (h !! j); simpl; [apply Hf|done].
Qed.

Lemma same_kind_fields o o' :
  o_userData o' = o_userData o -> o_material o' = o_material o -> same_kind o o'.
Proof. intros Hu Hm. unfold same_kind, has_time_uniform. rewrite Hu, Hm. auto. Qed.

Lemma same_kind_rotation r o : same_kind o (with_rotation r o).
Proof. by apply same_kind_fields. Qed.

Lemma same_kind_move_planet `{Trig} t i o : same_kind o (move_planet t i o).
Proof. unfold move_planet. destruct (o_userData o) as [[sp oy]|] eqn:E; [|apply same_kind_refl]. by apply same_kind_fields. Qed.

Lemma same_kind_set_time v o : same_kind o (set_time v o).
Proof.
  unfold set_time. destruct (o_material o) eqn:E; try apply same_kind_refl.
  unfold same_kind, has_time_uniform; simpl; rewrite E. split; [done|split; [done|]].
  intros (c & e & sh & Hc). discriminate.
Qed.

#[export] Hint Resolve same_kind_refl same_heap_refl same_kind_rotation same_kind_move_planet
  same_kind_set_time : scene.

Lemma same_heap_move_planets `{Trig} t i ps h : same_heap h (move_planets t i ps h).
Proof.
  revert i h; induction ps as [|id ps IH]; intros i h; simpl; [apply same_heap_refl|].
  apply (same_heap_trans _ (alter (move_planet t i) id h)); [|apply IH].
  apply same_heap_alter. intros o. apply same_kind_move_planet.
Qed.

Lemma wf_same_heap w h : scene_wf w -> same_heap (heap w) h -> scene_wf (set_heap h w).
Proof.
  intros (Hc & Hp & Hnd & Hs & Hf) Hsame. unfold set_heap; split; [|split; [|split; [done|split]]]; cbn.
  - intros id Hid. specialize (Hsame id). destruct (Hc id Hid) as [o Ho]. rewrite Ho in Hsame.
    destruct (h !! id); done.
  - intros id Hid. destruct (Hp id Hid) as (Hin & o & Ho & [Hm (sp & oy & Hu)]). split; [done|].
    specialize (Hsame id). rewrite Ho in Hsame. destruct (h !! id) as [o'|]; [|done].
    destruct Hsame as (Hu' & _ & Hph). exists o'. split; [done|split; [auto|]]. exists sp, oy. congruence.
  - intros id Hid. destruct (Hs id Hid) as (Hin & o & Ho & Hu). split; [done|].
    specialize (Hsame id). rewrite Ho in Hsame. destruct (h !! id) as [o'|]; [|done].
    destruct Hsame as (Hu' & _). exists o'. split; [done|congruence].
  - intros id Hid. specialize (Hsame id). rewrite (Hf id Hid) in Hsame. destruct (h !! id); done.
Qed.

Lemma set_heap_id w : set_heap (heap w) w = w.
Proof. by destruct w. Qed.

(** The fields the camera, renderer and window setters leave alone. *)
Lemma wf_fields w w' :
  heap w' = heap w -> next_obj w' = next_obj w -> children w' = children w ->
  stars w' = stars w -> planets w' = planets w -> scene_wf w -> scene_wf w'.
Proof. intros Hh Hn Hc Hs Hp. unfold scene_wf. rewrite Hh, Hn, Hc, Hs, Hp. done. Qed.

Lemma same_heap_insert h id o o' :
  h !! id = Some o -> same_kind o o' -> same_heap h (<[id := o']> h).
Proof.
  intros Ho Hk j. destruct (decide (id = j)) as [<-|Hne].
  - by rewrite lookup_insert_eq, Ho.
  - rewrite lookup_insert_ne by done. destruct (h !! j); [apply same_kind_refl|done].
Qed.

Ltac wf_fields w := intros ?; apply (wf_fields w); [reflexivity..|assumption].

Section Preservation.
Context `{Trig}.

Lemma wf_rotate_stars w : scene_wf w -> scene_wf (rotate_stars w).
Proof.
  intros Hw. unfold rotate_stars. destruct (stars w) as [id|]; [|done].
  apply wf_same_heap; [done|]. apply same_heap_alter. intros o. apply same_kind_rotation.
Qed.

Lemma wf_motion t w : scene_wf w -> scene_wf (motion t w).
Proof.
  intros Hw. unfold motion.
  pose proof (wf_rotate_stars w Hw) as H1. set (w1 := rotate_stars w) in *.
  pose proof (wf_same_heap w1 _ H1 (same_heap_move_planets t 0 (planets w1) (heap w1))) as H2.
  set (w2 := set_heap _ w1) in *.
  assert (H3 : scene_wf (match find_nebula (heap w2) (children w2) with
                         | Some id => set_heap (alter (set_time (t * (1 # 1000))) id (heap w2)) w2
                         | None => w2 end)).
  { destruct (find_nebula _ _); [|done]. apply wf_same_heap; [done|].
    apply same_heap_alter. intros o. apply same_kind_set_time. }
  revert H3. generalize (match find_nebula (heap w2) (children w2) with
                         | Some id => set_heap (alter (set_time (t * (1 # 1000))) id (heap w2)) w2
                         | None => w2 end). intros w3 H3.
  apply (wf_fields w3); [reflexivity..|exact H3].
Qed.

Lemma wf_animate_frame t w : scene_wf w -> scene_wf (animate_frame t w).
Proof.
  intros Hw. unfold animate_frame.
  assert (Hm : scene_wf (if negb (isLoading w) then motion t w else w))
    by (destruct (negb (isLoading w)); [by apply wf_motion|done]).
  revert Hm. wf_fields (if negb (isLoading w) then motion t w else w).
Qed.

Lemma wf_reduce_stars w : scene_wf w -> scene_wf (reduce_stars w).
Proof.
  intros Hw. unfold reduce_stars. destruct (stars w) as [id|]; [|done].
  destruct (heap w !! id) as [o|] eqn:Ho; [|done]. destruct (o_geometry o); try done.
  apply wf_same_heap; [done|]. eapply same_heap_insert; [exact Ho|]. by apply same_kind_fields.
Qed.

Lemma wf_optimize w : scene_wf w -> scene_wf (optimizePerformance w).
Proof.
  intros Hw. unfold optimizePerformance. destruct (negb _); [|done].
  pose proof (wf_reduce_stars w Hw) as Hr.
  assert (Hpl : planets (reduce_stars w) = planets w).
  { unfold reduce_stars. destruct (stars w); [|done]. destruct (heap w !! _); [|done].
    by destruct (o_geometry _). }
  destruct Hr as (Hc & Hp & Hnd & Hs & Hf). rewrite Hpl in Hp, Hnd. unfold set_planets.
  split; [exact Hc|split; [|split; [|split; [exact Hs|exact Hf]]]]; cbn [planets].
  - intros id Hid. apply Hp. by apply subseteq_take in Hid.
  - eapply sublist_NoDup; [exact Hnd|apply sublist_take].
Qed.

Lemma wf_scene_step w e : scene_wf w -> scene_wf (scene_step w e).
Proof.
  intros Hw. destruct e; simpl.
  - by apply wf_animate_frame.
  - revert Hw; wf_fields w.
  - revert Hw; wf_fields w.
  - by apply wf_optimize.
  - revert Hw; wf_fields w.
Qed.

End Preservation.

(** ** Checking well-formedness by evaluation *)

Definition is_planet_b (o : obj) : bool :=
  match o_material o, o_userData o with
  | PhongMaterial _ _ _, Some _ => true
  | _, _ => false
  end.

Definition scene_wfb (w : world) : bool :=
  forallb (fun id => bool_decide (is_Some (heap w !! id))) (children w) &&
  forallb (fun id => bool_decide (id ∈ children w) &&
                     match heap w !! id with Some o => is_planet_b o | None => false end) (planets w) &&
  bool_decide (NoDup (planets w)) &&
  match stars w with
  | Some id => bool_decide (id ∈ children w) &&
               match heap w !! id with Some o => bool_decide (o_userData o = None) | None => false end
  | None => true
  end &&
  bool_decide (map_Forall (fun k _ => (k < next_obj w)%nat) (heap w)).

Lemma is_planet_b_spec o : is_planet_b o = true -> planet_obj o.
Proof.
  unfold is_planet_b, planet_obj. destruct (o_material o), (o_userData o) as [[sp oy]|]; try done.
  intros _. split; eauto.
Qed.

Lemma scene_wfb_spec w : scene_wfb w = true -> scene_wf w.
Proof.
  unfold scene_wfb. rewrite !andb_true_iff. intros ((((Hc & Hp) & Hnd) & Hs) & Hf).
  rewrite forallb_forall in Hc, Hp. apply bool_decide_eq_true in Hnd, Hf.
  split; [|split; [|split; [exact Hnd|split]]].
  - intros id Hid. apply list_elem_of_In in Hid. eapply bool_decide_eq_true_1, Hc, Hid.
  - intros id Hid. apply list_elem_of_In in Hid. specialize (Hp id Hid).
    apply andb_true_iff in Hp as [Hin Ho]. apply bool_decide_eq_true in Hin. split; [done|].
    destruct (heap w !! id) as [o|]; [|done]. exists o. split; [done|]. by apply is_planet_b_spec.
  - intros id Hid. rewrite Hid in Hs. apply andb_true_iff in Hs as [Hin Ho].
    apply bool_decide_eq_true in Hin. split; [done|].
    destruct (heap w !! id) as [o|]; [|done]. exists o. split; [done|]. by apply bool_decide_eq_true in Ho.
  - intros id Hid. destruct (heap w !! id) as [o|] eqn:E; [|done].
    specialize (Hf id o E). simpl in Hf. lia.
Qed.

(** ** [init3DScene], with the star positions kept symbolic *)

Lemma createStarfield_eq `{Random} w k :
  createStarfield w k =
  let '(ps, k1) := rnd_repeat (starCount * 3) (fun r => (r - (1 # 2)) * 2000) k in
  (scene_add (next_obj w) (set_stars (Some (next_obj w))
     (snd (alloc (Obj (PointsGeometry ps 3) (PointsMaterial 0xffffff%Z (math_random k1 * 2 + (1 # 2)) (8 # 10))
                  vzero vzero None []) w))), S k1).
Proof. unfold createStarfield, rnd_bind. destruct (rnd_repeat _ _ k). reflexivity. Qed.

(** The world [init3DScene] builds from the state at load, for star
    positions [ps] and the draw [r] of the star size. *)
Definition init_world (x : window) (ps : list Q) (r : Q) : world :=
  let w1 := set_rd (Renderer (innerWidth x) (innerHeight x) (Qmin (devicePixelRatio x) 2) 0)
                   (set_cam (new_camera x) (set_children [] (world_at_load x))) in
  let w2 := scene_add 0 (set_stars (Some 0%nat)
              (snd (alloc (Obj (PointsGeometry ps 3) (PointsMaterial 0xffffff%Z (r * 2 + (1 # 2)) (8 # 10))
                               vzero vzero None []) w1))) in
  let w3 := createNebula (createPlanets w2) in
  let '(aid, w4) := alloc (Obj NoGeometry (AmbientLight 0x404040%Z (4 # 10)) vzero vzero None []) w3 in
  let w5 := scene_add aid w4 in
  let '(did, w6) := alloc (Obj NoGeometry (DirectionalLight 0x00d4ff%Z 1) (V3 1 1 1) vzero None []) w5 in
  scene_add did w6.

Lemma init3DScene_eq `{Random} x k :
  init3DScene (world_at_load x) k =
  let '(ps, k1) := rnd_repeat (starCount * 3) (fun r => (r - (1 # 2)) * 2000) k in
  (init_world x ps (math_random k1), S k1).
Proof.
  unfold init3DScene, rnd_bind. rewrite createStarfield_eq.
  destruct (rnd_repeat _ _ k). reflexivity.
Qed.

Lemma init_world_wf x ps r : scene_wf (init_world x ps r).
Proof. apply scene_wfb_spec. vm_compute. reflexivity. Qed.

(** ** Lemmas: what a frame changes *)

Section FrameLemmas.
Context `{Trig}.

Lemma motion_fields t w :
  win (motion t w) = win w /\ isLoading (motion t w) = isLoading w /\
  planets (motion t w) = planets w /\ children (motion t w) = children w /\
  stars (motion t w) = stars w /\ next_obj (motion t w) = next_obj w.
Proof.
  unfold motion, rotate_stars. destruct (stars w) eqn:E; simpl;
    destruct (find_nebula _ _); simpl; repeat split; done.
Qed.

Lemma animate_frame_fields t w :
  win (animate_frame t w) = win w /\ isLoading (animate_frame t w) = isLoading w /\
  planets (animate_frame t w) = planets w /\ children (animate_frame t w) = children w /\
  stars (animate_frame t w) = stars w /\ next_obj (animate_frame t w) = next_obj w.
Proof.
  unfold animate_frame. pose proof (motion_fields t w) as (H1 & H2 & H3 & H4 & H5 & H6).
  destruct (negb (isLoading w)); unfold render;
    cbn [win isLoading planets children stars next_obj set_rd]; repeat split; done.
Qed.

Lemma frames_cons t ts w : frames (t :: ts) w = frames ts (animate_frame t w).
Proof. reflexivity. Qed.

Lemma frames_fields ts w :
  win (frames ts w) = win w /\ isLoading (frames ts w) = isLoading w /\
  planets (frames ts w) = planets w /\ children (frames ts w) = children w /\
  stars (frames ts w) = stars w /\ next_obj (frames ts w) = next_obj w.
Proof.
  revert w; induction ts as [|t ts IH]; intros w; [repeat split|].
  rewrite frames_cons. destruct (IH (animate_frame t w)) as (? & ? & ? & ? & ? & ?).
  destruct (animate_frame_fields t w) as (? & ? & ? & ? & ? & ?). repeat split; congruence.
Qed.

Lemma move_planets_notin t i ps h id : id ∉ ps -> move_planets t i ps h !! id = h !! id.
Proof.
  revert i h; induction ps as [|p ps IH]; intros i h Hid; simpl; [done|].
  rewrite IH by set_solver. apply lookup_alter_ne. set_solver.
Qed.

Lemma move_planets_lookup t i0 ps h j id :
  NoDup ps -> ps !! j = Some id -> move_planets t i0 ps h !! id = move_planet t (i0 + j) <$> h !! id.
Proof.
  revert i0 h j; induction ps as [|p ps IH]; intros i0 h j Hnd Hj; [done|].
  apply NoDup_cons in Hnd as [Hp Hnd]. destruct j as [|j]; simpl in Hj |- *.
  - injection Hj as ->. rewrite move_planets_notin by done. by rewrite lookup_alter_eq, Nat.add_0_r.
  - rewrite (IH (S i0) _ j Hnd Hj), Nat.add_succ_r.
    rewrite lookup_alter_ne; [done|]. intros ->. apply Hp. by eapply list_elem_of_lookup_2.
Qed.

Lemma rotate_stars_other w id :
  stars w <> Some id -> heap (rotate_stars w) !! id = heap w !! id /\ planets (rotate_stars w) = planets w.
Proof.
  intros Hs. unfold rotate_stars. destruct (stars w) as [i|]; [|done].
  split; [|done]. simpl. apply lookup_alter_ne. congruence.
Qed.

(** A frame leaves alone every object that is not the stars, not a
    planet of [planets] and has no [time] uniform. *)
Lemma animate_frame_other t w id o :
  id ∉ planets w -> stars w <> Some id -> heap w !! id = Some o -> has_time_uniform o = false ->
  heap (animate_frame t w) !! id = Some o.
Proof.
  intros Hp Hs Ho Ht. unfold animate_frame. destruct (negb (isLoading w)); [|done].
  unfold motion. destruct (rotate_stars_other w id Hs) as [H1 H2].
  set (w1 := rotate_stars w) in *. clearbody w1.
  assert (H3 : move_planets t 0 (planets w1) (heap w1) !! id = Some o)
    by (rewrite move_planets_notin; [congruence|by rewrite H2]).
  destruct (find_nebula _ _) as [n|] eqn:En; cbn [heap set_heap move_camera set_cam render set_rd]; [|exact H3].
  apply find_some in En as [_ En]. rewrite lookup_alter_ne; [exact H3|].
  intros ->. cbn [heap set_heap] in En. rewrite H3, Ht in En. discriminate.
Qed.

End FrameLemmas.

Section PlanetLemmas.
Context `{Trig}.

Lemma wf_planet_obj w id o : scene_wf w -> id ∈ planets w -> heap w !! id = Some o -> planet_obj o.
Proof. intros (_ & Hp & _) Hid Ho. destruct (Hp id Hid) as (_ & o' & Ho' & Hpl). congruence. Qed.

Lemma planet_no_time o : planet_obj o -> has_time_uniform o = false.
Proof. intros [(c & e & sh & Hm) _]. unfold has_time_uniform. by rewrite Hm. Qed.

Lemma wf_stars_not_planet w id o :
  scene_wf w -> heap w !! id = Some o -> planet_obj o -> stars w <> Some id.
Proof.
  intros (_ & _ & _ & Hs & _) Ho [_ (sp & oy & Hu)] Hst. destruct (Hs id Hst) as (_ & o' & Ho' & Hu').
  congruence.
Qed.

Lemma animate_frame_planet t w j id o :
  isLoading w = false -> scene_wf w -> planets w !! j = Some id -> heap w !! id = Some o ->
  heap (animate_frame t w) !! id = Some (move_planet t j o).
Proof.
  intros Hl Hw Hj Ho.
  assert (Hin : id ∈ planets w) by (eapply list_elem_of_lookup_2; exact Hj).
  pose proof (wf_planet_obj w id o Hw Hin Ho) as Hpl.
  pose proof (wf_stars_not_planet w id o Hw Ho Hpl) as Hs.
  pose proof (proj1 (proj2 (proj2 Hw))) as Hnd.
  unfold animate_frame. rewrite Hl. simpl negb. cbv iota. unfold motion.
  destruct (rotate_stars_other w id Hs) as [H1 H2].
  set (w1 := rotate_stars w) in *. clearbody w1.
  assert (H3 : move_planets t 0 (planets w1) (heap w1) !! id = Some (move_planet t j o)).
  { rewrite H2, (move_planets_lookup t 0 _ _ j id Hnd Hj), H1, Ho. reflexivity. }
  destruct (find_nebula _ _) as [n|] eqn:En; cbn [heap set_heap move_camera set_cam render set_rd]; [|exact H3].
  apply find_some in En as [_ En]. rewrite lookup_alter_ne; [exact H3|].
  intros ->. cbn [heap set_heap] in En. rewrite H3 in En.
  destruct (same_kind_move_planet t j o) as (_ & Hk & _). rewrite Hk, planet_no_time in En by done.
  discriminate.
Qed.

Lemma animate_frame_cam t w :
  cam_x (cam (animate_frame t w)) =
    (if isLoading w then cam_x (cam w)
     else pursue (mouse_target (innerWidth (win w)) (option_map fst (mouse (win w)))) (cam_x (cam w))) /\
  cam_y (cam (animate_frame t w)) =
    (if isLoading w then cam_y (cam w)
     else pursue (mouse_target (innerHeight (win w)) (option_map snd (mouse (win w)))) (cam_y (cam w))).
Proof.
  unfold animate_frame. destruct (isLoading w); [done|]. simpl negb. cbv iota.
  unfold motion, rotate_stars. destruct (stars w); destruct (find_nebula _ _); done.
Qed.

Lemma pursue_num (a c : Q) : pursue (JNum a) (JNum c) = JNum (c + (a - c) * (1 # 20)).
Proof. reflexivity. Qed.

Lemma mouse_target_none (inner : Q) : mouse_target inner None = JNaN.
Proof. reflexivity. Qed.

Lemma pursue_nan_target (c : jsnum) : pursue JNaN c = JNaN.
Proof. unfold pursue. by autorewrite with js_nan. Qed.

Lemma mouse_target_some (inner m : Q) :
  mouse_target inner (Some m) = JNum ((inner / 2 - m) * (1 # 10000)).
Proof. reflexivity. Qed.

End PlanetLemmas.

Section MoreLemmas.
Context `{Trig}.

Lemma run_scene_wf evs w : scene_wf w -> scene_wf (run_scene evs w).
Proof.
  unfold run_scene. revert w; induction evs as [|e evs IH]; intros w Hw; [done|].
  simpl. apply IH, wf_scene_step, Hw.
Qed.

Lemma scene_step_nan w e :
  cam_x (cam w) = JNaN -> cam_y (cam w) = JNaN ->
  cam_x (cam (scene_step w e)) = JNaN /\ cam_y (cam (scene_step w e)) = JNaN.
Proof.
  intros Hx Hy. destruct e; cbn [scene_step]; try (split; assumption).
  - destruct (animate_frame_cam t w) as [-> ->]. rewrite Hx, Hy. by destruct (isLoading w).
  - unfold optimizePerformance, reduce_stars.
    destruct (negb _); [|split; assumption]. destruct (stars w); [|split; assumption].
    destruct (heap w !! _); [|split; assumption]. destruct (o_geometry _); split; assumption.
Qed.

Lemma frames_other ts w id o :
  id ∉ planets w -> stars w <> Some id -> heap w !! id = Some o -> has_time_uniform o = false ->
  heap (frames ts w) !! id = Some o.
Proof.
  revert w; induction ts as [|t ts IH]; intros w Hp Hs Ho Ht; [done|].
  rewrite frames_cons. destruct (animate_frame_fields t w) as (_ & _ & Hp' & _ & Hs' & _).
  apply IH; [by rewrite Hp'|by rewrite Hs'|by apply animate_frame_other|done].
Qed.

Lemma reduce_stars_fields w id :
  stars w <> Some id ->
  heap (reduce_stars w) !! id = heap w !! id /\ children (reduce_stars w) = children w /\
  planets (reduce_stars w) = planets w /\ stars (reduce_stars w) = stars w /\ win (reduce_stars w) = win w.
Proof.
  intros Hs. unfold reduce_stars. destruct (stars w) as [i|] eqn:E; [|split_and!; congruence].
  destruct (heap w !! i); [|split_and!; congruence]. destruct (o_geometry _); try (split_and!; congruence).
  split_and!; simpl; try congruence. apply lookup_insert_ne. congruence.
Qed.

Lemma reduce_positions_lookup ps i :
  (i < length ps / 2)%nat -> reduce_positions ps !! i = ps !! (2 * i)%nat.
Proof.
  intros Hi.
  destruct (lookup_lt_is_Some_2 ps (2 * i)) as [q Hq];
    [pose proof (Nat.Div0.mul_div_le (length ps) 2); lia|].
  unfold reduce_positions. rewrite list_lookup_fmap, (proj2 (lookup_seq 0 _ i i) (conj eq_refl Hi)), Hq.
  cbn [fmap option_fmap option_map]. rewrite nth_lookup, (Nat.mul_comm i 2), Hq. reflexivity.
Qed.

Lemma Qpow_succ (q : Q) (n : nat) : ~ q == 0 -> q ^ Z.of_nat (S n) == q * q ^ Z.of_nat n.
Proof.
  intros Hq. rewrite Nat2Z.inj_succ, <- Z.add_1_r, Qpower_plus by exact Hq.
  simpl. ring.
Qed.

End MoreLemmas.

(** ** Theorems *)

(** C35: [init3DScene] adds, in this order, the starfield, the
    four planets (each with its glow as its own child), the nebula and the
    two lights to the scene; [planets] holds the four planets with the
    speeds and heights of [planetData]; the first child with a [time]
    uniform is the nebula; the camera is the one of the viewport; loading
    is still on; and the scene is well formed. *)
Theorem init3DScene_builds `{Random} (x : window) (k : nat) :
  let w := fst (init3DScene (world_at_load x) k) in
  children w = [0; 1; 3; 5; 7; 9; 10; 11]%nat /\ stars w = Some 0%nat /\ planets w = [1; 3; 5; 7]%nat /\
  map (fun id => option_map o_userData (heap w !! id)) (planets w) =
    [Some (Some (1 # 100, 5)); Some (Some (8 # 1000, -5)); Some (Some (12 # 1000, -8));
     Some (Some (9 # 1000, 8))] /\
  find_nebula (heap w) (children w) = Some 9%nat /\
  cam w = new_camera x /\ isLoading w = true /\ scene_wf w.
Proof.
  intros w. subst w. rewrite init3DScene_eq. destruct (rnd_repeat _ _ k) as [ps k1]. cbn [fst].
  split_and!; try reflexivity. apply init_world_wf.
Qed.

(** the starfield has [starCount * 3] coordinates, each
    [(Math.random() - 0.5) * 2000], hence in [-1000, 1000). *)
Theorem starfield_bounds `{RandomOk} (x : window) (k : nat) :
  let w := fst (init3DScene (world_at_load x) k) in
  exists o ps, heap w !! 0%nat = Some o /\ o_geometry o = PointsGeometry ps 3 /\
    length ps = (starCount * 3)%nat /\ Forall (fun q => -1000 <= q < 1000) ps.
Proof.
  intros w. subst w. rewrite init3DScene_eq.
  pose proof (rnd_repeat_length (starCount * 3) (fun r => (r - (1 # 2)) * 2000) k) as Hlen.
  pose proof (rnd_repeat_forall (fun q => -1000 <= q < 1000) (starCount * 3)
                (fun r => (r - (1 # 2)) * 2000) k) as Hall.
  destruct (rnd_repeat _ _ k) as [ps k1]. cbn [fst] in *.
  eexists _, ps. split_and!; [reflexivity|reflexivity|exact Hlen|].
  apply Hall. intros m. destruct (random_range m). split; lra.
Qed.

Section SceneTheorems.
Context `{Trig}.

(** C24: in every state reached from [init3DScene] by frames,
    pointer moves, resizes, [optimizePerformance] and the end of loading,
    the scene is well formed: children and planets are live objects,
    planets are distinct Phong meshes with their [userData] and children of
    the scene, and the stars have no [userData]. *)
Theorem scene_wf_reachable `{Random} (x : window) (k : nat) (evs : list scene_event) :
  scene_wf (run_scene evs (fst (init3DScene (world_at_load x) k))).
Proof.
  apply run_scene_wf. rewrite init3DScene_eq. destruct (rnd_repeat _ _ k). apply init_world_wf.
Qed.

(** C9: while [isLoading] is set, frames move nothing:
    objects and camera are unchanged, and each frame is still rendered. *)
Theorem loading_freezes_scene (ts : list Q) (w : world) :
  isLoading w = true ->
  heap (frames ts w) = heap w /\ cam (frames ts w) = cam w /\
  rd_frames (rd (frames ts w)) = (rd_frames (rd w) + length ts)%nat.
Proof.
  revert w; induction ts as [|t ts IH]; intros w Hl; [split_and!; simpl; auto; lia|].
  rewrite frames_cons.
  assert (E : animate_frame t w = render w) by (unfold animate_frame; by rewrite Hl).
  rewrite E. destruct (IH (render w) Hl) as (-> & -> & ->). simpl. split_and!; auto; lia.
Qed.

(** C16: once loading is over, a frame at time t turns the
    j-th planet of [planets] by its speed about y and half its speed
    about x, and sets its height to [originalY + sin(t/1000 + j) * 2]. *)
Theorem frame_moves_planet (t : Q) (w : world) (j id : nat) (o : obj) (speed originalY : Q) :
  isLoading w = false -> scene_wf w -> planets w !! j = Some id -> heap w !! id = Some o ->
  o_userData o = Some (speed, originalY) ->
  exists o', heap (animate_frame t w) !! id = Some o' /\
    o_rotation o' = V3 (vx (o_rotation o) + speed * (1 # 2)) (vy (o_rotation o) + speed) (vz (o_rotation o)) /\
    o_position o' = V3 (vx (o_position o)) (originalY + js_sin (t * (1 # 1000) + inject_Z (Z.of_nat j)) * 2)
                       (vz (o_position o)).
Proof.
  intros Hl Hw Hj Ho Hu. rewrite (animate_frame_planet t w j id o Hl Hw Hj Ho).
  eexists. split; [reflexivity|]. unfold move_planet. rewrite Hu. done.
Qed.

(** with [Math.sin] in [-1, 1], a frame keeps every
    planet of [planets] within 2 units of its original height. *)
Theorem planet_float_bounds `{!TrigOk} (t : Q) (w : world) (j id : nat) (o : obj) (speed originalY : Q) :
  isLoading w = false -> scene_wf w -> planets w !! j = Some id -> heap w !! id = Some o ->
  o_userData o = Some (speed, originalY) ->
  exists o', heap (animate_frame t w) !! id = Some o' /\
    originalY - 2 <= vy (o_position o') <= originalY + 2.
Proof.
  intros Hl Hw Hj Ho Hu. rewrite (animate_frame_planet t w j id o Hl Hw Hj Ho).
  eexists. split; [reflexivity|]. unfold move_planet. rewrite Hu. simpl.
  destruct (sin_bound (t * (1 # 1000) + inject_Z (Z.of_nat j))). split; lra.
Qed.

(** C23: with the pointer at (mx, my) and a finite camera,
    every frame shrinks the camera's distance to its target
    [(innerWidth / 2 - mx) * 0.0001] (and likewise in y) by the factor
    19/20: after n frames the distance is (19/20)^n times the first. *)
Theorem camera_pursuit_converges (ts : list Q) (w : world) (mx my cx cy : Q) :
  isLoading w = false -> mouse (win w) = Some (mx, my) ->
  cam_x (cam w) = JNum cx -> cam_y (cam w) = JNum cy ->
  let ax := (innerWidth (win w) / 2 - mx) * (1 # 10000) in
  let ay := (innerHeight (win w) / 2 - my) * (1 # 10000) in
  exists cx' cy', cam_x (cam (frames ts w)) = JNum cx' /\ cam_y (cam (frames ts w)) = JNum cy' /\
    cx' - ax == (19 # 20) ^ Z.of_nat (length ts) * (cx - ax) /\
    cy' - ay == (19 # 20) ^ Z.of_nat (length ts) * (cy - ay).
Proof.
  intros Hl Hm Hx Hy ax ay. subst ax ay.
  revert w cx cy Hl Hm Hx Hy; induction ts as [|t ts IH]; intros w cx cy Hl Hm Hx Hy.
  - exists cx, cy. split_and!; [done|done|simpl; ring|simpl; ring].
  - rewrite frames_cons. destruct (animate_frame_fields t w) as (Hwin & Hl' & _).
    destruct (animate_frame_cam t w) as [Ex Ey]. rewrite Hl, Hm, Hx in Ex. rewrite Hl, Hm, Hy in Ey.
    assert (Hl2 : isLoading (animate_frame t w) = false) by congruence.
    assert (Hm2 : mouse (win (animate_frame t w)) = Some (mx, my)) by congruence.
    cbn [option_map fst snd] in Ex, Ey. rewrite mouse_target_some, pursue_num in Ex, Ey.
    destruct (IH (animate_frame t w) _ _ Hl2 Hm2 Ex Ey)
      as (cx' & cy' & Hx' & Hy' & Ex' & Ey').
    rewrite Hwin in Ex', Ey'. exists cx', cy'. split_and!; [done|done| |].
    + rewrite Ex', (Qpow_succ (19 # 20) (length ts)) by discriminate. simpl length. ring.
    + rewrite Ey', (Qpow_succ (19 # 20) (length ts)) by discriminate. simpl length. ring.
Qed.

(** C4: [window.mouseX] is [undefined] until the first
    [mousemove].  A frame after loading and before any pointer move sets
    the camera's x and y to [NaN], and no later event (frames, pointer
    moves, resizes, [optimizePerformance]) ever makes them numbers
    again. *)
Theorem camera_nan_forever (t : Q) (evs : list scene_event) (w : world) :
  isLoading w = false -> mouse (win w) = None ->
  let w' := run_scene evs (animate_frame t w) in
  cam_x (cam w') = JNaN /\ cam_y (cam w') = JNaN.
Proof.
  intros Hl Hm w'. subst w'. destruct (animate_frame_cam t w) as [Ex Ey].
  rewrite Hl, Hm in Ex, Ey. cbn [option_map] in Ex, Ey.
  rewrite mouse_target_none, pursue_nan_target in Ex, Ey. revert Ex Ey. generalize (animate_frame t w) as w1.
  unfold run_scene. induction evs as [|e evs IH]; intros w1 Ex Ey; [split; assumption|].
  cbn [fold_left]. destruct (scene_step_nan w1 e Ex Ey). by apply IH.
Qed.

(** C19: after a resize to iw x ih the camera's aspect and
    its projection are iw / ih and the drawing surface is iw x ih; the
    camera's position is kept. *)
Theorem resize_updates_camera (iw ih : Q) (w : world) :
  let w' := scene_step w (Resize iw ih) in
  cam_aspect (cam w') = iw / ih /\ cam_proj_aspect (cam w') = iw / ih /\
  rd_width (rd w') = iw /\ rd_height (rd w') = ih /\
  cam_x (cam w') = cam_x (cam w) /\ cam_y (cam w') = cam_y (cam w).
Proof. split_and!; reflexivity. Qed.

(** C6: on a viewport narrower than 768 px,
    [optimizePerformance] cuts [planets] to its first two entries but
    leaves the other two meshes in the scene: they are still rendered,
    and no later frame moves them. *)
Theorem optimize_mobile_frozen (ts : list Q) (w : world) (p1 p2 p3 p4 : nat) :
  scene_wf w -> innerWidth (win w) < 768 -> planets w = [p1; p2; p3; p4] ->
  let w' := optimizePerformance w in
  planets w' = [p1; p2] /\ p3 ∈ children w' /\ p4 ∈ children w' /\
  heap (frames ts w') !! p3 = heap w !! p3 /\ heap (frames ts w') !! p4 = heap w !! p4.
Proof.
  intros Hw Hlt Hp w'.
  assert (Hopt : w' = set_planets (take 2 (planets (reduce_stars w))) (reduce_stars w)).
  { subst w'. unfold optimizePerformance.
    replace (Qle_bool 768 (innerWidth (win w))) with false; [|symmetry; apply not_true_iff_false;
      rewrite Qle_bool_iff; lra].
    destruct (reduce_stars_fields w (S (next_obj w))) as (_ & _ & -> & _); [|done].
    destruct Hw as (_ & _ & _ & Hs & Hf). intros Hst. destruct (Hs _ Hst) as (_ & o & Ho & _).
    rewrite Hf in Ho by lia. discriminate. }
  pose proof Hw as (Hc & Hpl & Hnd & _).
  assert (Hfacts : forall q, q ∈ [p3; p4] ->
            q ∉ [p1; p2] /\ q ∈ children w' /\ heap w' !! q = heap w !! q /\
            exists o, heap w !! q = Some o /\ planet_obj o /\ stars w' <> Some q).
  { intros q Hq. assert (Hqp : q ∈ planets w) by (rewrite Hp; set_solver).
    destruct (Hpl q Hqp) as (Hqc & o & Ho & Hpo).
    pose proof (wf_stars_not_planet w q o Hw Ho Hpo) as Hs.
    destruct (reduce_stars_fields w q Hs) as (Hh & Hch & _ & Hst & _).
    rewrite Hp in Hnd. split_and!.
    - apply NoDup_cons in Hnd as [H1 Hnd]. apply NoDup_cons in Hnd as [H2 Hnd]. set_solver.
    - by rewrite Hopt; cbn [children set_planets]; rewrite Hch.
    - by rewrite Hopt; cbn [heap set_planets]; rewrite Hh.
    - exists o. split_and!; [done|done|]. rewrite Hopt; cbn [stars set_planets]. by rewrite Hst. }
  assert (Hpl' : planets w' = [p1; p2]).
  { rewrite Hopt. cbn [planets set_planets].
    destruct (reduce_stars_fields w (S (next_obj w))) as (_ & _ & -> & _); [|by rewrite Hp].
    destruct Hw as (_ & _ & _ & Hs & Hf). intros Hst. destruct (Hs _ Hst) as (_ & o & Ho & _).
    rewrite Hf in Ho by lia. discriminate. }
  destruct (Hfacts p3 ltac:(set_solver)) as (N3 & C3 & H3 & o3 & O3 & P3 & S3).
  destruct (Hfacts p4 ltac:(set_solver)) as (N4 & C4 & H4 & o4 & O4 & P4 & S4).
  split_and!; [exact Hpl'|exact C3|exact C4| |].
  - rewrite O3. apply frames_other; [by rewrite Hpl'|done|congruence|by apply planet_no_time].
  - rewrite O4. apply frames_other; [by rewrite Hpl'|done|congruence|by apply planet_no_time].
Qed.

End SceneTheorems.

(** C32: the star reduction of [optimizePerformance] keeps
    every other coordinate, not every other star: for a cloud [ps] of
    [x, y, z] triples, the k-th point of the reduced cloud is
    [(ps[6k], ps[6k+2], ps[6k+4])], the x and z of star 2k and the y of
    star 2k+1. *)
Theorem reduce_positions_mixes (ps : list Q) (k : nat) :
  (3 * k + 2 < length ps / 2)%nat ->
  reduce_positions ps !! (3 * k)%nat = ps !! (6 * k)%nat /\
  reduce_positions ps !! (3 * k + 1)%nat = ps !! (6 * k + 2)%nat /\
  reduce_positions ps !! (3 * k + 2)%nat = ps !! (6 * k + 4)%nat.
Proof.
  intros Hk. rewrite !reduce_positions_lookup by lia.
  split_and!; f_equal; lia.
Qed.

(** ** Witnesses, on a scene without stars (a phone-sized viewport) *)

Section Witnesses.
#[local] Existing Instance quarter_random.
#[local] Existing Instance flat_trig.

Definition demo_world (m : option (Q * Q)) (loading : bool) : world :=
  set_loading loading (createNebula (createPlanets (world_at_load (Window 375 667 3 m)))).

(** The second planet of [planetData], as [createPlanets] makes it. *)
Definition demo_planet : obj :=
  Obj (SphereGeometry (12 # 10)) (PhongMaterial 0xff6b6b%Z (1 # 10) 100) (V3 15 (-5) (-15)) vzero
      (Some (8 # 1000, -5)) [3%nat].

Lemma demo_wf m b : scene_wf (demo_world m b).
Proof. apply scene_wfb_spec. destruct m as [[]|], b; vm_compute; reflexivity. Qed.

Lemma starfield_bounds_witness :
  exists o ps, heap (fst (init3DScene (world_at_load (Window 375 667 3 None)) 0%nat)) !! 0%nat = Some o /\
    o_geometry o = PointsGeometry ps 3 /\ length ps = (starCount * 3)%nat /\
    Forall (fun q => -1000 <= q < 1000) ps.
Proof. exact (@starfield_bounds quarter_random quarter_random_ok (Window 375 667 3 None) 0%nat). Defined.

Lemma loading_freezes_scene_witness :
  isLoading (demo_world None true) = true /\
  rd_frames (rd (frames [16; 33] (demo_world None true))) = 2%nat.
Proof.
  assert (Hl : isLoading (demo_world None true) = true) by reflexivity.
  split; [exact Hl|].
  destruct (loading_freezes_scene [16; 33] (demo_world None true) Hl) as (_ & _ & ->). reflexivity.
Defined.

Lemma frame_moves_planet_witness :
  (isLoading (demo_world None false) = false /\ scene_wf (demo_world None false) /\
   planets (demo_world None false) !! 1%nat = Some 2%nat /\
   heap (demo_world None false) !! 2%nat = Some demo_planet /\
   o_userData demo_planet = Some (8 # 1000, -5)) /\
  exists o', heap (animate_frame 1000 (demo_world None false)) !! 2%nat = Some o' /\
    o_rotation o' = V3 (0 + (8 # 1000) * (1 # 2)) (0 + (8 # 1000)) 0 /\
    o_position o' = V3 15 (-5 + js_sin (1000 * (1 # 1000) + inject_Z (Z.of_nat 1)) * 2) (-15).
Proof.
  assert (Hl : isLoading (demo_world None false) = false) by reflexivity.
  assert (Hj : planets (demo_world None false) !! 1%nat = Some 2%nat) by reflexivity.
  assert (Ho : heap (demo_world None false) !! 2%nat = Some demo_planet) by (vm_compute; reflexivity).
  assert (Hu : o_userData demo_planet = Some (8 # 1000, -5)) by reflexivity.
  split; [split_and!; [exact Hl|apply demo_wf|exact Hj|exact Ho|exact Hu]|].
  exact (frame_moves_planet 1000 _ 1 2 demo_planet _ _ Hl (demo_wf None false) Hj Ho Hu).
Defined.

Lemma planet_float_bounds_witness :
  (isLoading (demo_world None false) = false /\
   heap (demo_world None false) !! 2%nat = Some demo_planet) /\
  exists o', heap (animate_frame 1000 (demo_world None false)) !! 2%nat = Some o' /\
    -5 - 2 <= vy (o_position o') <= -5 + 2.
Proof.
  assert (Hl : isLoading (demo_world None false) = false) by reflexivity.
  assert (Hj : planets (demo_world None false) !! 1%nat = Some 2%nat) by reflexivity.
  assert (Ho : heap (demo_world None false) !! 2%nat = Some demo_planet) by (vm_compute; reflexivity).
  split; [split; [exact Hl|exact Ho]|].
  exact (@planet_float_bounds flat_trig flat_trig_ok 1000 _ 1 2 demo_planet (8 # 1000) (-5)
           Hl (demo_wf None false) Hj Ho eq_refl).
Defined.

Lemma camera_pursuit_converges_witness :
  (isLoading (demo_world (Some (100, 200)) false) = false /\
   mouse (win (demo_world (Some (100, 200)) false)) = Some (100, 200)) /\
  exists cx' cy', cam_x (cam (frames [16; 33; 50] (demo_world (Some (100, 200)) false))) = JNum cx' /\
    cam_y (cam (frames [16; 33; 50] (demo_world (Some (100, 200)) false))) = JNum cy' /\
    cx' - (375 / 2 - 100) * (1 # 10000) == (19 # 20) ^ 3 * (0 - (375 / 2 - 100) * (1 # 10000)) /\
    cy' - (667 / 2 - 200) * (1 # 10000) == (19 # 20) ^ 3 * (0 - (667 / 2 - 200) * (1 # 10000)).
Proof.
  assert (Hl : isLoading (demo_world (Some (100, 200)) false) = false) by reflexivity.
  assert (Hm : mouse (win (demo_world (Some (100, 200)) false)) = Some (100, 200)) by reflexivity.
  split; [split; [exact Hl|exact Hm]|].
  exact (camera_pursuit_converges [16; 33; 50] _ 100 200 0 0 Hl Hm eq_refl eq_refl).
Defined.

Lemma camera_nan_forever_witness :
  (isLoading (demo_world None false) = false /\ mouse (win (demo_world None false)) = None) /\
  cam_x (cam (run_scene [MouseMove 10 10; Frame 50] (animate_frame 33 (demo_world None false)))) = JNaN.
Proof.
  assert (Hl : isLoading (demo_world None false) = false) by reflexivity.
  assert (Hm : mouse (win (demo_world None false)) = None) by reflexivity.
  split; [split; [exact Hl|exact Hm]|].
  exact (proj1 (camera_nan_forever 33 [MouseMove 10 10; Frame 50] _ Hl Hm)).
Defined.

Lemma optimize_mobile_frozen_witness :
  (innerWidth (win (demo_world None false)) < 768 /\ planets (demo_world None false) = [0; 2; 4; 6]%nat) /\
  planets (optimizePerformance (demo_world None false)) = [0; 2]%nat /\
  heap (frames [16; 33] (optimizePerformance (demo_world None false))) !! 4%nat =
    heap (demo_world None false) !! 4%nat.
Proof.
  assert (Hw : innerWidth (win (demo_world None false)) < 768) by qnum.
  assert (Hp : planets (demo_world None false) = [0; 2; 4; 6]%nat) by reflexivity.
  split; [split; [exact Hw|exact Hp]|].
  destruct (optimize_mobile_frozen [16; 33] _ 0 2 4 6 (demo_wf None false) Hw Hp)
    as (H1 & _ & _ & H3 & _).
  split; [exact H1|exact H3].
Defined.

Lemma reduce_positions_mixes_witness :
  (3 * 0 + 2 < length [0; 1; 2; 3; 4; 5; 6; 7] / 2)%nat /\
  reduce_positions [0; 1; 2; 3; 4; 5; 6; 7] !! 1%nat = [0; 1; 2; 3; 4; 5; 6; 7] !! 2%nat.
Proof.
  assert (Hk : (3 * 0 + 2 < length [0; 1; 2; 3; 4; 5; 6; 7] / 2)%nat) by (simpl; lia).
  split; [exact Hk|]. exact (proj1 (proj2 (reduce_positions_mixes [0; 1; 2; 3; 4; 5; 6; 7] 0 Hk))).
Defined.

End Witnesses.

End SceneAnimator.
