(* ===== verification/FrameLoop.v ===== *)
(** * FrameLoop: [requestAnimationFrame], [renderer.setAnimationLoop] and
    the [visibilitychange] handler (src/script.js, lines 246-247, 302-307
    and 914-921)

    The browser keeps a list of animation-frame callbacks; at each frame
    of a visible document it takes the list registered so far, empties
    it, and runs the callbacks in order (a callback that asks for another
    frame is queued for the next one).  A hidden document gets no frames.
    Three callbacks exist: [animate], which first asks for the next frame
    and then does the scene's work; Lenis's [raf], likewise; and the loop
    of three.js's [WebGLAnimation], which [renderer.setAnimationLoop(f)]
    starts when [f] is not [null] (it calls [f] and asks for the next
    frame) and [setAnimationLoop(null)] stops by cancelling its pending
    request.  The three.js loop is modelled from its documented behaviour;
    it is library code, not code of the repository.  The scene's work is
    a parameter [animate_body], and each frame reports how many times it
    ran. *)

From Stdlib Require Import QArith Lia List.
From stdpp Require Import base list sets.
From S2P Require Import Prelude.

Module FrameLoop.

Inductive frame_cb : Type :=
| Animate     (** [animate] *)
| LenisRaf    (** [raf] of [initSmoothScrolling] *)
| ThreeLoop.  (** [onAnimationFrame] of three.js's [WebGLAnimation] *)

#[global] Instance frame_cb_eq_dec : EqDecision frame_cb.
Proof. solve_decision. Defined.

Record raf : Type := Raf { r_id : nat; r_cb : frame_cb }.

Record loop : Type := Loop {
  pending : list raf;        (** the map of animation frame callbacks *)
  next_raf : nat;
  loop_set : bool;           (** [onAnimationFrameCallback] is [animate] *)
  animating : bool;          (** [WebGLAnimation]'s [isAnimating] *)
  request_id : option nat;   (** its [requestId] *)
  hidden : bool              (** [document.hidden] *)
}.

(** [requestAnimationFrame(cb)]; the handle is [next_raf s]. *)
Definition request_frame (c : frame_cb) (s : loop) : loop :=
  Loop (pending s ++ [Raf (next_raf s) c]) (S (next_raf s)) (loop_set s) (animating s) (request_id s) (hidden s).

(** [cancelAnimationFrame(id)] ([undefined] cancels nothing). *)
Definition cancel_frame (id : option nat) (s : loop) : loop :=
  match id with
  | Some i => Loop (List.filter (fun r => negb (Nat.eqb (r_id r) i)) (pending s)) (next_raf s)
                   (loop_set s) (animating s) (request_id s) (hidden s)
  | None => s
  end.

(** [renderer.setAnimationLoop(animate)] ([true]) or [(null)] ([false]):
    [WebGLAnimation.start] requests its frame unless it is already
    animating; [stop] cancels its request. *)
Definition setAnimationLoop (set : bool) (s : loop) : loop :=
  if set then
    if animating s then Loop (pending s) (next_raf s) true true (request_id s) (hidden s)
    else let s1 := request_frame ThreeLoop s in
         Loop (pending s1) (next_raf s1) true true (Some (next_raf s)) (hidden s1)
  else
    let s1 := cancel_frame (request_id s) s in
    Loop (pending s1) (next_raf s1) false false (request_id s1) (hidden s1).

Section Run.
Context {St : Type} (animate_body lenis_body : Q -> St -> St).

(** [function animate() { requestAnimationFrame(animate); ... }] *)
Definition run_animate (t : Q) (s : loop) (st : St) (n : nat) : loop * St * nat :=
  (request_frame Animate s, animate_body t st, S n).

(** One callback of a frame; [n] counts the runs of [animate]. *)
Definition run_one (t : Q) (r : raf) (x : loop * St * nat) : loop * St * nat :=
  let '(s, st, n) := x in
  match r_cb r with
  | Animate => run_animate t s st n
  | LenisRaf => (request_frame LenisRaf s, lenis_body t st, n)
  | ThreeLoop =>
      let '(s1, st1, n1) := if loop_set s then run_animate t s st n else (s, st, n) in
      let s2 := request_frame ThreeLoop s1 in
      (Loop (pending s2) (next_raf s2) (loop_set s2) (animating s2) (Some (next_raf s1)) (hidden s2), st1, n1)
  end.

(** A frame at time [t]: nothing when the document is hidden. *)
Definition frame (t : Q) (s : loop) (st : St) : loop * St * nat :=
  if hidden s then (s, st, 0%nat)
  else fold_left (fun x r => run_one t r x) (pending s)
                 (Loop [] (next_raf s) (loop_set s) (animating s) (request_id s) (hidden s), st, 0%nat).

(** [document.addEventListener('visibilitychange', ...)] *)
Definition on_visibilitychange (h : bool) (s : loop) : loop :=
  let s1 := Loop (pending s) (next_raf s) (loop_set s) (animating s) (request_id s) h in
  if h then setAnimationLoop false s1 else setAnimationLoop true s1.

Inductive loop_event : Type :=
| Frame (t : Q)
| Visibility (h : bool).

(** Runs a list of events; the list returned has, for each frame, the
    number of times [animate] ran in it. *)
Fixpoint run_loop (evs : list loop_event) (s : loop) (st : St) : loop * St * list nat :=
  match evs with
  | [] => (s, st, [])
  | Frame t :: rest =>
      let '(s1, st1, n) := frame t s st in
      let '(s2, st2, ns) := run_loop rest s1 st1 in (s2, st2, n :: ns)
  | Visibility h :: rest => run_loop rest (on_visibilitychange h s) st
  end.

End Run.

(** After [initializeApp]: [initSmoothScrolling] asked for a frame for
    Lenis, then the direct call [animate()] asked for one for itself. *)
Definition loop_at_start : loop :=
  Loop [Raf 0 LenisRaf; Raf 1 Animate] 2 false false None false.

(** ** What a frame does to the callback list *)

(** The callbacks a callback leaves for the next frame, when the three.js
    loop is ([true]) or is not set. *)
Definition out (b : bool) (c : frame_cb) : list frame_cb :=
  match c with
  | Animate => [Animate]
  | LenisRaf => [LenisRaf]
  | ThreeLoop => if b then [Animate; ThreeLoop] else [ThreeLoop]
  end.

(** The runs of [animate] a callback makes. *)
Definition weight (b : bool) (c : frame_cb) : nat :=
  match c with
  | Animate => 1
  | LenisRaf => 0
  | ThreeLoop => if b then 1 else 0
  end.

Definition cbs (s : loop) : list frame_cb := map r_cb (pending s).

Section Lemmas.
Context {St : Type} (animate_body lenis_body : Q -> St -> St).

Lemma run_one_cbs t r s st n :
  let x := run_one animate_body lenis_body t r (s, st, n) in
  cbs (fst (fst x)) = cbs s ++ out (loop_set s) (r_cb r) /\
  snd x = (n + weight (loop_set s) (r_cb r))%nat /\
  loop_set (fst (fst x)) = loop_set s /\ hidden (fst (fst x)) = hidden s.
Proof.
  unfold cbs. destruct r as [id []]; simpl.
  - rewrite map_app. split_and!; simpl; [done|lia|done|done].
  - rewrite map_app. split_and!; simpl; [done|lia|done|done].
  - destruct (loop_set s) eqn:E; simpl; rewrite ?E; simpl; rewrite ?map_app, <- ?app_assoc;
      split_and!; simpl; try done; lia.
Qed.

Lemma sum_weight_cons b c l :
  sum_list (map (weight b) (c :: l)) = (weight b c + sum_list (map (weight b) l))%nat.
Proof. reflexivity. Qed.

Lemma sum_weight_app b l1 l2 :
  sum_list (map (weight b) (l1 ++ l2)) = (sum_list (map (weight b) l1) + sum_list (map (weight b) l2))%nat.
Proof. induction l1 as [|c l1 IH]; [done|]. rewrite <- app_comm_cons, !sum_weight_cons, IH. lia. Qed.

Lemma fold_run_cbs t rs s st n :
  let x := fold_left (fun x r => run_one animate_body lenis_body t r x) rs (s, st, n) in
  cbs (fst (fst x)) = cbs s ++ concat (map (out (loop_set s)) (map r_cb rs)) /\
  snd x = (n + sum_list (map (weight (loop_set s)) (map r_cb rs)))%nat /\
  loop_set (fst (fst x)) = loop_set s /\ hidden (fst (fst x)) = hidden s.
Proof.
  revert s st n; induction rs as [|r rs IH]; intros s st n.
  - cbn. rewrite app_nil_r. split_and!; [done|lia|done|done].
  - cbn [fold_left]. rewrite (map_cons r_cb r rs), sum_weight_cons. cbn [map concat].
    destruct (run_one_cbs t r s st n) as (H1 & H2 & H3 & H4).
    destruct (run_one animate_body lenis_body t r (s, st, n)) as [[s1 st1] n1]. cbn [fst snd] in *.
    destruct (IH s1 st1 n1) as (IH1 & IH2 & IH3 & IH4). rewrite H3 in IH1, IH2.
    split_and!; [rewrite IH1, H1; by rewrite <- app_assoc|lia|congruence|congruence].
Qed.

(** A visible frame: the callbacks it leaves and the runs of [animate]. *)
Lemma frame_cbs t s st :
  hidden s = false ->
  let x := frame animate_body lenis_body t s st in
  cbs (fst (fst x)) = concat (map (out (loop_set s)) (cbs s)) /\
  snd x = sum_list (map (weight (loop_set s)) (cbs s)) /\
  loop_set (fst (fst x)) = loop_set s /\ hidden (fst (fst x)) = false.
Proof.
  intros Hh. unfold frame. rewrite Hh.
  destruct (fold_run_cbs t (pending s) (Loop [] (next_raf s) (loop_set s) (animating s) (request_id s) false) st 0)
    as (H1 & H2 & H3 & H4).
  split_and!; [exact H1|exact H2|exact H3|exact H4].
Qed.

Lemma frame_hidden t s st : hidden s = true -> frame animate_body lenis_body t s st = (s, st, 0%nat).
Proof. unfold frame. by intros ->. Qed.

Lemma concat_out_animates m b : concat (map (out b) (replicate m Animate)) = replicate m Animate.
Proof. induction m as [|m IH]; [done|]. cbn [replicate map concat out]. by rewrite IH. Qed.

Lemma concat_out_steady m b :
  concat (map (out b) (LenisRaf :: replicate m Animate)) = LenisRaf :: replicate m Animate.
Proof. cbn [map concat out]. rewrite concat_out_animates. done. Qed.

Lemma concat_out_grow m :
  concat (map (out true) (LenisRaf :: replicate m Animate ++ [ThreeLoop])) =
    LenisRaf :: replicate (S m) Animate ++ [ThreeLoop].
Proof.
  cbn [map concat out]. rewrite map_app, concat_app, concat_out_animates, replicate_S_end.
  cbn. by rewrite <- app_assoc.
Qed.

Lemma weight_animates m b : sum_list (map (weight b) (replicate m Animate)) = m.
Proof. induction m as [|m IH]; [done|]. cbn [replicate]. rewrite sum_weight_cons, IH. done. Qed.

Lemma weight_steady m b : sum_list (map (weight b) (LenisRaf :: replicate m Animate)) = m.
Proof. rewrite sum_weight_cons, weight_animates. done. Qed.

Lemma weight_grow m : sum_list (map (weight true) (LenisRaf :: replicate m Animate ++ [ThreeLoop])) = S m.
Proof. rewrite sum_weight_cons, sum_weight_app, weight_animates. cbn. lia. Qed.

End Lemmas.

Section Theorems.
Context {St : Type} (animate_body lenis_body : Q -> St -> St).

Lemma run_frames_steady ts s st m :
  hidden s = false -> loop_set s = false -> cbs s = LenisRaf :: replicate m Animate ->
  snd (run_loop animate_body lenis_body (map Frame ts) s st) = replicate (length ts) m.
Proof.
  revert s st; induction ts as [|t ts IH]; intros s st Hh Hl Hc; [done|]. cbn [map run_loop].
  destruct (frame_cbs animate_body lenis_body t s st Hh) as (H1 & H2 & H3 & H4).
  destruct (frame animate_body lenis_body t s st) as [[s1 st1] n]. cbn [fst snd] in *.
  rewrite Hc, Hl in H1, H2. rewrite concat_out_steady in H1. rewrite weight_steady in H2.
  specialize (IH s1 st1 H4 ltac:(congruence) H1).
  destruct (run_loop _ _ _ s1 st1) as [[s2 st2] ns]. cbn [snd] in *. by rewrite IH, H2.
Qed.

Lemma run_frames_grow ts s st m :
  hidden s = false -> loop_set s = true -> cbs s = LenisRaf :: replicate m Animate ++ [ThreeLoop] ->
  snd (run_loop animate_body lenis_body (map Frame ts) s st) = seq (S m) (length ts).
Proof.
  revert s st m; induction ts as [|t ts IH]; intros s st m Hh Hl Hc; [done|]. cbn [map run_loop].
  destruct (frame_cbs animate_body lenis_body t s st Hh) as (H1 & H2 & H3 & H4).
  destruct (frame animate_body lenis_body t s st) as [[s1 st1] n]. cbn [fst snd] in *.
  rewrite Hc, Hl in H1, H2. rewrite concat_out_grow in H1. rewrite weight_grow in H2.
  specialize (IH s1 st1 (S m) H4 ltac:(congruence) H1).
  destruct (run_loop _ _ _ s1 st1) as [[s2 st2] ns]. cbn [snd] in *. by rewrite IH, H2.
Qed.

Lemma run_frames_hidden hs rest s st :
  hidden s = true ->
  snd (run_loop animate_body lenis_body (map Frame hs ++ rest) s st) =
    replicate (length hs) 0%nat ++ snd (run_loop animate_body lenis_body rest s st).
Proof.
  intros Hh. induction hs as [|t hs IH]; [done|]. cbn [map app run_loop].
  rewrite frame_hidden by done.
  destruct (run_loop _ _ (map Frame hs ++ rest) s st) as [[s2 st2] ns]. cbn [snd] in *. by rewrite IH.
Qed.

(** C34: as long as the page stays visible, every frame runs
    [animate] exactly once: the chain of [requestAnimationFrame(animate)]
    started by [initializeApp] renews itself at each frame. *)
Theorem frames_run_animate_once (ts : list Q) (st : St) :
  snd (run_loop animate_body lenis_body (map Frame ts) loop_at_start st) = replicate (length ts) 1%nat.
Proof. apply run_frames_steady; reflexivity. Qed.

(** C3: hiding the page stops the frames, but showing it
    again starts three.js's animation loop next to the chain of
    [requestAnimationFrame(animate)], which it does not replace: every run
    of the loop adds one more request for [animate].  After the page is
    hidden (during any number of frames) and shown again, the k-th frame
    runs [animate] k + 2 times, without bound. *)
Theorem visibility_restore_multiplies (hs ts : list Q) (st : St) :
  snd (run_loop animate_body lenis_body
         ([Visibility true] ++ map Frame hs ++ [Visibility false] ++ map Frame ts) loop_at_start st) =
    replicate (length hs) 0%nat ++ seq 2 (length ts).
Proof.
  cbn [app run_loop]. rewrite run_frames_hidden by reflexivity. f_equal.
  cbn [run_loop]. apply run_frames_grow; reflexivity.
Qed.

End Theorems.

(** ** The [animate] chain is never lost *)

(** Handles are below [next_raf], and the handle three.js keeps names
    only its own request. *)
Definition ids_ok (s : loop) : Prop :=
  (forall r, r ∈ pending s -> (r_id r < next_raf s)%nat) /\
  (forall i, request_id s = Some i ->
     (i < next_raf s)%nat /\ forall r, r ∈ pending s -> r_id r = i -> r_cb r = ThreeLoop).

Definition loop_inv (s : loop) : Prop := ids_ok s /\ Animate ∈ cbs s.

Lemma request_frame_ids c s : ids_ok s -> ids_ok (request_frame c s).
Proof.
  intros [Hb Hr]. split; simpl.
  - intros r Hr'. apply elem_of_app in Hr' as [Hr'|Hr']; [specialize (Hb r Hr'); lia|].
    apply list_elem_of_singleton in Hr' as ->. simpl. lia.
  - intros i Hi. destruct (Hr i Hi) as [Hlt Hin]. split; [lia|].
    intros r Hr' Hid. apply elem_of_app in Hr' as [Hr'|Hr']; [by apply Hin|].
    apply list_elem_of_singleton in Hr' as ->. simpl in Hid. lia.
Qed.

(** Requesting three.js's frame and recording its handle. *)
Lemma request_three_ids s :
  (forall r, r ∈ pending s -> (r_id r < next_raf s)%nat) ->
  ids_ok (let s1 := request_frame ThreeLoop s in
          Loop (pending s1) (next_raf s1) (loop_set s1) (animating s1) (Some (next_raf s)) (hidden s1)).
Proof.
  intros Hb. split; simpl.
  - intros r Hr'. apply elem_of_app in Hr' as [Hr'|Hr']; [specialize (Hb r Hr'); lia|].
    apply list_elem_of_singleton in Hr' as ->. simpl. lia.
  - intros i Hi. injection Hi as <-. split; [lia|].
    intros r Hr' Hid. apply elem_of_app in Hr' as [Hr'|Hr']; [specialize (Hb r Hr'); lia|].
    by apply list_elem_of_singleton in Hr' as ->.
Qed.

Lemma elem_of_List_filter {A} (f : A -> bool) l x : x ∈ List.filter f l <-> x ∈ l /\ f x = true.
Proof. rewrite !list_elem_of_In. apply filter_In. Qed.

Section Invariant.
Context {St : Type} (animate_body lenis_body : Q -> St -> St).

Lemma run_one_ids t r s st n : ids_ok s -> ids_ok (fst (fst (run_one animate_body lenis_body t r (s, st, n)))).
Proof.
  intros Hs. destruct r as [id []]; simpl; [by apply request_frame_ids|by apply request_frame_ids|].
  destruct (loop_set s).
  - exact (request_three_ids (request_frame Animate s) (proj1 (request_frame_ids Animate s Hs))).
  - exact (request_three_ids s (proj1 Hs)).
Qed.

Lemma fold_run_ids t rs s st n :
  ids_ok s -> ids_ok (fst (fst (fold_left (fun x r => run_one animate_body lenis_body t r x) rs (s, st, n)))).
Proof.
  revert s st n; induction rs as [|r rs IH]; intros s st n Hs; [done|]. cbn [fold_left].
  pose proof (run_one_ids t r s st n Hs) as H1.
  destruct (run_one animate_body lenis_body t r (s, st, n)) as [[s1 st1] n1]. by apply IH.
Qed.

Lemma animate_in_out b l : Animate ∈ l -> Animate ∈ concat (map (out b) l).
Proof.
  induction l as [|c l IH]; intros Hin; [set_solver|]. cbn [map concat].
  apply elem_of_cons in Hin as [<-|Hin]; [simpl; set_solver|]. apply elem_of_app. right. by apply IH.
Qed.

Lemma animate_weight b l : Animate ∈ l -> (1 <= sum_list (map (weight b) l))%nat.
Proof.
  induction l as [|c l IH]; intros Hin; [set_solver|]. rewrite sum_weight_cons.
  apply elem_of_cons in Hin as [<-|Hin]; [simpl; lia|]. specialize (IH Hin). lia.
Qed.

Lemma frame_inv t s st : loop_inv s -> loop_inv (fst (fst (frame animate_body lenis_body t s st))).
Proof.
  intros [Hids Ha]. destruct (hidden s) eqn:Hh; [by rewrite frame_hidden|].
  destruct (frame_cbs animate_body lenis_body t s st Hh) as (H1 & _ & _ & _). split.
  - unfold frame. rewrite Hh. apply fold_run_ids. destruct Hids as [Hb Hr].
    split; simpl; [set_solver|]. intros i Hi. destruct (Hr i Hi) as [Hlt _]. split; [done|set_solver].
  - rewrite H1. by apply animate_in_out.
Qed.

Lemma visibility_inv h s : loop_inv s -> loop_inv (on_visibilitychange h s).
Proof.
  intros [[Hb Hr] Ha]. unfold on_visibilitychange, setAnimationLoop, cbs in *. destruct h; simpl.
  - destruct (request_id s) as [i|] eqn:Ei; simpl; [|split; [split; [done|]|done]].
    + destruct (Hr i eq_refl) as [Hlt Hin]. split; [split|].
      * intros r Hr'. apply elem_of_List_filter in Hr' as [Hr' _]. by apply Hb.
      * intros j Hj. injection Hj as <-. split; [done|]. intros r Hr' Hid.
        apply elem_of_List_filter in Hr' as [_ Hne]. rewrite Hid, Nat.eqb_refl in Hne. done.
      * apply list_elem_of_fmap in Ha as (r & Hra & Hr'). apply list_elem_of_fmap.
        exists r. split; [done|]. apply elem_of_List_filter. split; [done|].
        destruct (Nat.eqb_spec (r_id r) i) as [Hid|]; [|done]. rewrite (Hin r Hr' Hid) in Hra. done.
    + intros j Hj. simpl in Hj. congruence.
  - destruct (animating s); simpl.
    + split; [split|done]; [done|]. intros i Hi. by apply Hr.
    + split; [apply (request_three_ids (Loop (pending s) (next_raf s) (loop_set s) (animating s) (request_id s) false) Hb)|].
      unfold cbs; simpl. rewrite map_app. apply elem_of_app. by left.
Qed.

Lemma run_loop_inv evs s st : loop_inv s -> loop_inv (fst (fst (run_loop animate_body lenis_body evs s st))).
Proof.
  revert s st; induction evs as [|[t|h] evs IH]; intros s st Hs; [done| |].
  - cbn [run_loop]. pose proof (frame_inv t s st Hs) as H1.
    destruct (frame animate_body lenis_body t s st) as [[s1 st1] n].
    specialize (IH s1 st1 H1). destruct (run_loop _ _ evs s1 st1) as [[s2 st2] ns]. exact IH.
  - cbn [run_loop]. apply IH, visibility_inv, Hs.
Qed.

(** C22: whatever the frames and visibility changes since
    [initializeApp], the next frame of a visible page runs [animate] at
    least once: the render loop is never lost. *)
Theorem animate_never_stops (evs : list loop_event) (st : St) (t : Q) :
  let x := run_loop animate_body lenis_body evs loop_at_start st in
  hidden (fst (fst x)) = false -> (1 <= snd (frame animate_body lenis_body t (fst (fst x)) (snd (fst x))))%nat.
Proof.
  intros x Hh. assert (Hinv : loop_inv (fst (fst x))).
  { apply run_loop_inv. split; [split|]; simpl.
    - intros r Hr. repeat (apply elem_of_cons in Hr as [->|Hr]; [simpl; lia|]). set_solver.
    - done.
    - unfold cbs. simpl. apply elem_of_cons. right. by apply elem_of_cons; left. }
  destruct (frame_cbs animate_body lenis_body t _ (snd (fst x)) Hh) as (_ & H2 & _ & _).
  rewrite H2. apply animate_weight, Hinv.
Qed.

End Invariant.

(** ** Witness: a counter of frames as the scene *)

Definition count_body (_ : Q) (n : nat) : nat := S n.
Definition idle_body (_ : Q) (n : nat) : nat := n.

Lemma animate_never_stops_witness :
  hidden (fst (fst (run_loop count_body idle_body [Visibility true; Visibility false; Frame 16]
                      loop_at_start 0%nat))) = false /\
  (1 <= snd (frame count_body idle_body 33
               (fst (fst (run_loop count_body idle_body [Visibility true; Visibility false; Frame 16]
                            loop_at_start 0%nat)))
               (snd (fst (run_loop count_body idle_body [Visibility true; Visibility false; Frame 16]
                            loop_at_start 0%nat)))))%nat.
Proof.
  assert (Hh : hidden (fst (fst (run_loop count_body idle_body [Visibility true; Visibility false; Frame 16]
                                   loop_at_start 0%nat))) = false) by reflexivity.
  split; [exact Hh|]. exact (animate_never_stops count_body idle_body _ 0%nat 33 Hh).
Defined.

End FrameLoop.
