(* ===== verification/Loading.v ===== *)
(** * Loading screen: [initLoadingScreen] and [hideLoadingScreen]
    (src/script.js, lines 16-72)

    [initLoadingScreen] keeps the bar's [progress] in a closure and sets
    an interval of 200 ms that adds [Math.random() * 15], caps the value
    at 100 and then clears its own interval, and writes the bar's width.
    [initializeApp] sets a 3 s timer for [hideLoadingScreen], which adds
    the [hidden] class and sets a 500 ms timer that hides the screen and
    clears the global [isLoading] (the flag [SceneAnimator.animate_frame]
    tests).  The timers run on the scheduler of [Timers.v]; the three
    closures are the constructors of [cb], the interval's with the handle
    [progressInterval] it captured.  Other components' timers do not
    touch this state and are left out. *)

From Stdlib Require Import QArith Qminmax Lqa NArith Lia List.
From stdpp Require Import base list sets.
From S2P Require Import Prelude Timers.

Local Open Scope Q_scope.

Module LoadingScreen.
Import Timers.

Record loading : Type := Loading {
  progress : Q;                 (** the closure variable [progress] *)
  bar_width : option Q;         (** [loadingProgress.style.width], unset at first *)
  screen_hidden : bool;         (** [loadingScreen.classList] has [hidden] *)
  screen_display_none : bool;   (** [loadingScreen.style.display = 'none'] *)
  isLoading : bool;             (** the global [isLoading] *)
  rng : nat                     (** next [Math.random] draw *)
}.

Inductive cb : Type :=
| ProgressTick (progressInterval : nat)
| HideLoading
| LoadingDone.

Definition loading_at_load : loading := Loading 0 None false false true 0.

(** [initLoadingScreen()]: [let progress = 0;] and the interval. *)
Definition initLoadingScreen (s : sched cb) (ld : loading) : sched cb * loading :=
  (set_interval (ProgressTick (next_id s)) 200 s,
   Loading 0 (bar_width ld) (screen_hidden ld) (screen_display_none ld) (isLoading ld) (rng ld)).

Section Callbacks.
Context `{Random}.

(** The interval's callback. *)
Definition progress_tick (progressInterval : nat) (s : sched cb) (ld : loading) : sched cb * loading :=
  let p := progress ld + math_random (rng ld) * 15 in
  let '(s1, p1) := if Qle_bool 100 p then (clear_timer progressInterval s, 100) else (s, p) in
  (s1, Loading p1 (Some p1) (screen_hidden ld) (screen_display_none ld) (isLoading ld) (S (rng ld))).

(** [hideLoadingScreen()] *)
Definition hideLoadingScreen (s : sched cb) (ld : loading) : sched cb * loading :=
  (set_timeout LoadingDone 500 s,
   Loading (progress ld) (bar_width ld) true (screen_display_none ld) (isLoading ld) (rng ld)).

Definition run_cb (c : cb) (s : sched cb) (ld : loading) : sched cb * loading :=
  match c with
  | ProgressTick id => progress_tick id s ld
  | HideLoading => hideLoadingScreen s ld
  | LoadingDone =>
      (s, Loading (progress ld) (bar_width ld) (screen_hidden ld) true false (rng ld))
  end.

(** The loading part of [initializeApp]: [initLoadingScreen()] first,
    [setTimeout(hideLoadingScreen, 3000)] last. *)
Definition start (s : sched cb) (ld : loading) : sched cb * loading :=
  let '(s1, ld1) := initLoadingScreen s ld in
  (set_timeout HideLoading 3000 s1, ld1).

(** Time passing: [fuel] bounds the callbacks run. *)
Definition wait (fuel : nat) (ms : N) (w : sched cb * loading) : sched cb * loading :=
  advance run_cb fuel (now (fst w) + ms)%N (fst w) (snd w).

End Callbacks.

(** ** The progress bar *)

Definition is_progress (t : timer cb) : bool :=
  match t_cb t with ProgressTick _ => true | _ => false end.

Definition prog (q : list (timer cb)) : list (timer cb) := List.filter is_progress q.

(** The bar stays in [0, 100] and shows [progress] once written; the
    interval is the one progress timer, with its own handle, while
    [progress < 100], and is gone once [progress] is 100; handles are
    fresh and distinct; the other timers are one-shot. *)
Definition loading_inv (s : sched cb) (ld : loading) : Prop :=
  0 <= progress ld <= 100 /\
  (bar_width ld = Some (progress ld) \/ (bar_width ld = None /\ progress ld = 0)) /\
  ((progress ld < 100 /\ exists due id, prog (queue s) = [Timer due id (Some 200%N) (ProgressTick id)]) \/
   (progress ld = 100 /\ prog (queue s) = [])) /\
  ids_wf s /\
  (forall u, In u (queue s) -> is_progress u = false -> t_period u = None).

Lemma prog_app q1 q2 : prog (q1 ++ q2) = prog q1 ++ prog q2.
Proof. unfold prog. induction q1 as [|t q1 IH]; simpl; [done|]. destruct (is_progress t); simpl; by rewrite IH. Qed.

Lemma prog_filter f q : prog (List.filter f q) = List.filter f (prog q).
Proof.
  unfold prog. induction q as [|t q IH]; simpl; [done|].
  destruct (is_progress t) eqn:E1, (f t) eqn:E2; simpl; rewrite ?E1, ?E2, IH; done.
Qed.

Lemma prog_in u q : In u (prog q) <-> In u q /\ is_progress u = true.
Proof. apply filter_In. Qed.

Lemma NoDup_map_eq {A B} (f : A -> B) (l : list A) x y :
  NoDup (map f l) -> In x l -> In y l -> f x = f y -> x = y.
Proof.
  induction l as [|z l IH]; intros Hnd Hx Hy Hf; [done|]. inversion Hnd as [|? ? Hz Hl]; subst.
  destruct Hx as [<-|Hx], Hy as [<-|Hy]; try done.
  - exfalso. apply Hz. apply list_elem_of_In. rewrite Hf. by apply in_map.
  - exfalso. apply Hz. apply list_elem_of_In. rewrite <- Hf. by apply in_map.
  - by apply IH.
Qed.

Lemma filter_all_true {A} (f : A -> bool) (l : list A) :
  (forall x, In x l -> f x = true) -> List.filter f l = l.
Proof.
  induction l as [|x l IH]; intros Hf; [done|]. simpl. rewrite (Hf x (or_introl eq_refl)).
  f_equal. apply IH. intros y Hy. apply Hf. by right.
Qed.

Ltac inv_queue :=
  repeat match goal with
  | H : In _ (List.filter _ _) |- _ => apply filter_In in H as [H ?]
  | H : In _ (_ ++ _) |- _ => apply in_app_or in H as [H|H]
  | H : In _ [_] |- _ => destruct H as [<-|[]]
  end.

Section Invariant.
Context `{RandomOk}.

(** Firing the interval. *)
Lemma fire_progress_inv at_ t s ld :
  loading_inv s ld -> In t (queue s) -> is_progress t = true ->
  let r := run_cb (t_cb t) (Sched at_ (next_id s) (rearm at_ t (remove_timer t (queue s)))) ld in
  loading_inv (fst r) (snd r).
Proof.
  intros (Hp & Hbar & Hq & Hids & Hone) Hin Ht r.
  assert (Hpt : In t (prog (queue s))) by (by apply prog_in).
  destruct Hq as [[Hlt (due & id & Hpq)] | [_ Hpq]]; [|by rewrite Hpq in Hpt].
  rewrite Hpq in Hpt. destruct Hpt as [<-|[]]. subst r. cbn [t_cb run_cb].
  pose proof (ids_wf_fire at_ _ _ Hids Hin) as Hids'.
  set (s1 := Sched at_ _ _) in *.
  assert (Hq1 : prog (queue s1) = [Timer (at_ + 200) id (Some 200%N) (ProgressTick id)]).
  { subst s1. cbn [queue rearm t_period t_id t_cb]. unfold rearm; cbn [t_period t_id t_cb].
    rewrite prog_app. unfold remove_timer. rewrite prog_filter, Hpq. simpl. by rewrite Nat.eqb_refl. }
  assert (Hone1 : forall u, In u (queue s1) -> is_progress u = false -> t_period u = None).
  { subst s1. intros u Hu Hnp. unfold rearm, remove_timer in Hu; cbn [t_period t_id t_cb queue] in Hu.
    inv_queue; [by apply Hone|done]. }
  clearbody s1. unfold progress_tick. destruct (random_range (rng ld)) as [Hr0 Hr1].
  destruct (Qle_bool 100 (progress ld + math_random (rng ld) * 15)) eqn:Hle; cbn [fst snd progress bar_width].
  - split_and!; cbn [progress bar_width]; [qnum|qnum|by left| |by apply ids_wf_clear|].
    + right. split; [done|]. unfold clear_timer; cbn [queue]. rewrite prog_filter, Hq1. simpl.
      by rewrite Nat.eqb_refl.
    + intros u Hu Hnp. unfold clear_timer in Hu; cbn [queue] in Hu. inv_queue. by apply Hone1.
  - apply not_true_iff_false in Hle. rewrite Qle_bool_iff in Hle.
    split_and!; cbn [progress bar_width]; [nra|lra|by left| |exact Hids'|exact Hone1].
    left. split; [lra|]. eauto.
Qed.

(** Firing the hide timers. *)
Lemma fire_other_inv at_ t s ld :
  loading_inv s ld -> In t (queue s) -> is_progress t = false ->
  let r := run_cb (t_cb t) (Sched at_ (next_id s) (rearm at_ t (remove_timer t (queue s)))) ld in
  loading_inv (fst r) (snd r).
Proof.
  intros (Hp & Hbar & Hq & Hids & Hone) Hin Ht r. subst r.
  pose proof (ids_wf_fire at_ _ _ Hids Hin) as Hids'.
  rewrite rearm_once in Hids' |- * by (by apply Hone).
  assert (Hq1 : prog (remove_timer t (queue s)) = prog (queue s)).
  { unfold remove_timer. rewrite prog_filter. apply filter_all_true.
    intros u Hu. apply prog_in in Hu as [Hu Hpu].
    apply negb_true_iff, Nat.eqb_neq. intros Hid.
    assert (u = t) as -> by (eapply NoDup_map_eq; [apply Hids|exact Hu|exact Hin|exact Hid]). congruence. }
  assert (Hone1 : forall u, In u (remove_timer t (queue s)) -> is_progress u = false -> t_period u = None).
  { intros u Hu. unfold remove_timer in Hu. inv_queue. by apply Hone. }
  unfold is_progress in Ht. destruct (t_cb t) as [id| |]; [done| |]; cbn [run_cb hideLoadingScreen fst snd].
  - split_and!; cbn [progress bar_width queue set_timeout]; [lra|lra|done| | |].
    + rewrite prog_app, Hq1. simpl. by rewrite app_nil_r.
    + by apply ids_wf_set_timeout.
    + intros u Hu Hnp. inv_queue; [by apply Hone1|done].
  - split_and!; cbn [progress bar_width queue]; [lra|lra|done|by rewrite Hq1|exact Hids'|exact Hone1].
Qed.

Lemma wait_inv fuel ms s ld : loading_inv s ld -> loading_inv (fst (wait fuel ms (s, ld))) (snd (wait fuel ms (s, ld))).
Proof.
  apply (advance_inv run_cb loading_inv).
  - intros t s' ld' Hin Hinv. destruct (is_progress t) eqn:Ht.
    + by apply fire_progress_inv.
    + by apply fire_other_inv.
  - intros s' ld' Hinv. exact Hinv.
Qed.

End Invariant.

(** Waits of the given lengths, each with the given fuel. *)
Definition waits `{Random} (steps : list (nat * N)) (w : sched cb * loading) : sched cb * loading :=
  fold_left (fun w st => wait (fst st) (snd st) w) steps w.

Lemma start_inv `{Random} t0 : loading_inv (fst (start (sched_at t0) loading_at_load))
                                             (snd (start (sched_at t0) loading_at_load)).
Proof.
  split_and!; cbn; try qnum.
  - right. done.
  - left. split; [qnum|]. do 2 eexists. reflexivity.
  - apply ids_wf_set_timeout, ids_wf_set_interval. split; [intros u []|constructor].
  - intros u [<-|[<-|[]]]; done.
Qed.

(** C28: from [initializeApp] on, whatever time passes and
    however many callbacks each wait runs, the bar's progress stays in
    [0, 100], the bar shows it once the interval has run, and the interval
    is still pending exactly while the progress is below 100: it clears
    itself when it reaches 100 and never comes back. *)
Theorem progress_bar_bounds `{RandomOk} (t0 : N) (steps : list (nat * N)) :
  let w := waits steps (start (sched_at t0) loading_at_load) in
  0 <= progress (snd w) <= 100 /\
  (bar_width (snd w) = Some (progress (snd w)) \/ (bar_width (snd w) = None /\ progress (snd w) = 0)) /\
  (progress (snd w) < 100 <-> exists t, In t (queue (fst w)) /\ is_progress t = true).
Proof.
  intros w. assert (Hinv : loading_inv (fst w) (snd w)).
  { subst w. unfold waits. generalize (start (sched_at t0) loading_at_load) (start_inv t0).
    induction steps as [|[f ms] steps IH]; intros [s ld] Hs; [exact Hs|].
    cbn [fold_left fst snd]. apply IH. destruct (wait f ms (s, ld)) eqn:E.
    pose proof (wait_inv f ms s ld Hs) as Hw. rewrite E in Hw. exact Hw. }
  destruct Hinv as (Hp & Hbar & Hq & _ & _). split_and!; [apply Hp|apply Hp|exact Hbar|].
  destruct Hq as [[Hlt (due & id & Hpq)] | [Heq Hpq]]; split.
  - intros _. exists (Timer due id (Some 200%N) (ProgressTick id)). apply prog_in. rewrite Hpq. by left.
  - intros _. exact Hlt.
  - intros Hlt. rewrite Heq in Hlt. exfalso. by apply (Qlt_irrefl 100).
  - intros (t & Hin & Ht). assert (Hp' : In t (prog (queue (fst w)))) by (by apply prog_in).
    by rewrite Hpq in Hp'.
Qed.

Lemma progress_bar_bounds_witness :
  0 <= progress (snd (@waits quarter_random [(20%nat, 1000%N)] (start (sched_at 0) loading_at_load))) <= 100.
Proof.
  exact (proj1 (@progress_bar_bounds quarter_random quarter_random_ok 0%N [(20%nat, 1000%N)])).
Defined.

End LoadingScreen.
