(* ===== verification/Navigation.v ===== *)
(** * Navigation: [initNavigation] (src/script.js, lines 677-718)

    Three listeners: the menu toggle flips the [active] class of the menu
    and of the toggle; a click on an in-page link asks Lenis to scroll to
    the element its [href] selects (when [querySelector] finds one, and
    not at all when it throws); and the scroll listener marks as active
    the links whose [href] is [#] followed by the id of the last section
    whose top minus 200 px is at or above the scroll position.  Sections
    and links are lists in document order; Lenis's [scrollTo] is recorded
    as a request.  The theorems give the scroll spy as the last section
    passed, its consequence for the links, the error path of a click on a
    bare [#] link, and the toggle. *)

From Stdlib Require Import QArith Lqa String Ascii List Bool.
From stdpp Require Import base list.
From S2P Require Import Prelude.

Local Open Scope Q_scope.
Local Open Scope string_scope.

Module Navigation.

Record section : Type := Section { sec_id : string; sec_top : Q }.

Record link : Type := Link { href : string; active : bool }.

Record nav : Type := Nav {
  menu_active : bool;                    (** [navMenu.classList] has [active] *)
  toggle_active : bool;                  (** [navToggle.classList] has [active] *)
  links : list link;                     (** [.nav-menu a[href^="#"]] *)
  scroll_requests : list (string * Q)    (** [lenis.scrollTo(target, { duration })] *)
}.

(** [navToggle.addEventListener('click', ...)] *)
Definition on_toggle (n : nav) : nav :=
  Nav (negb (menu_active n)) (negb (toggle_active n)) (links n) (scroll_requests n).

(** What [document.querySelector(sel)] does for [sel = '#' + name]: an
    id selector needs a name that is a CSS identifier (modelled as: not
    empty, not starting with a digit); otherwise it throws a
    [SyntaxError]. *)
Inductive query : Type :=
| Found (id : string)
| NotFound
| SyntaxError.

Definition is_digit (c : ascii) : bool :=
  let n := nat_of_ascii c in Nat.leb 48 n && Nat.leb n 57.

Definition query_href (ids : list string) (h : string) : query :=
  match h with
  | String "#" name =>
      match name with
      | EmptyString => SyntaxError
      | String c _ => if is_digit c then SyntaxError
                      else if existsb (String.eqb name) ids then Found name else NotFound
      end
  | _ => SyntaxError
  end.

(** [anchor.addEventListener('click', ...)]: [None] when the handler
    throws (after [e.preventDefault()], so the click does nothing). *)
Definition on_anchor_click (ids : list string) (h : string) (n : nav) : option nav :=
  match query_href ids h with
  | Found id => Some (Nav (menu_active n) (toggle_active n) (links n) (scroll_requests n ++ [(id, 3 # 2)]))
  | NotFound => Some n
  | SyntaxError => None
  end.

(** [let current = ''; sections.forEach(...)] *)
Definition current_section (scrollY : Q) (sections : list section) : string :=
  fold_left (fun current s => if Qle_bool (sec_top s - 200) scrollY then sec_id s else current)
            sections "".

(** [navLinks.forEach(...)]: remove [active], add it back on a match. *)
Definition mark_links (current : string) (ls : list link) : list link :=
  map (fun l => Link (href l) (String.eqb (href l) ("#" ++ current))) ls.

(** [window.addEventListener('scroll', ...)] *)
Definition on_scroll (scrollY : Q) (sections : list section) (n : nav) : nav :=
  Nav (menu_active n) (toggle_active n) (mark_links (current_section scrollY sections) (links n))
      (scroll_requests n).

(** The sections passed at [scrollY]. *)
Definition passed (scrollY : Q) (sections : list section) : list section :=
  List.filter (fun s => Qle_bool (sec_top s - 200) scrollY) sections.

(** ** Theorems *)

Definition last_id (ss : list section) (dflt : string) : string :=
  match last ss with Some s => sec_id s | None => dflt end.

Lemma last_id_cons s ss dflt : last_id (s :: ss) dflt = last_id ss (sec_id s).
Proof. unfold last_id. rewrite last_cons. by destruct (last ss). Qed.

Lemma fold_current y ss cur :
  fold_left (fun current s => if Qle_bool (sec_top s - 200) y then sec_id s else current) ss cur =
  last_id (passed y ss) cur.
Proof.
  revert cur; induction ss as [|s ss IH]; intros cur; [done|]. cbn [fold_left passed List.filter].
  rewrite IH. fold (passed y ss). destruct (Qle_bool _ _); [|done]. by rewrite last_id_cons.
Qed.

(** C30: after a scroll to [scrollY], a link is active exactly
    when its [href] is [#] followed by the id of the last section (in
    document order) whose top minus 200 px is at or above [scrollY], or
    is a bare [#] when no section is passed yet. *)
Theorem scroll_spy_active (scrollY : Q) (sections : list section) (n : nav) :
  links (on_scroll scrollY sections n) =
    map (fun l => Link (href l)
                       (String.eqb (href l)
                          ("#" ++ match last (passed scrollY sections) with
                                  | Some s => sec_id s
                                  | None => ""
                                  end))) (links n).
Proof. unfold on_scroll, mark_links, current_section. cbn [links]. by rewrite fold_current. Qed.

(** A click on the in-page link [#name] asks Lenis for a
    1.5 s scroll to the element with that id when there is one and does
    nothing otherwise, provided [name] is an identifier; when [name] is
    empty (a bare [#]) or starts with a digit, [querySelector] throws and
    the click is lost. *)
Theorem anchor_click_outcomes (ids : list string) (name : string) (n : nav) :
  on_anchor_click ids ("#" ++ name) n =
    match name with
    | EmptyString => None
    | String c _ =>
        if is_digit c then None
        else if existsb (String.eqb name) ids
             then Some (Nav (menu_active n) (toggle_active n) (links n) (scroll_requests n ++ [(name, 3 # 2)]))
             else Some n
    end.
Proof.
  unfold on_anchor_click, query_href. cbn [append].
  destruct name as [|c rest]; [done|]. destruct (is_digit c); [done|].
  by destruct (existsb _ ids).
Qed.

(** The menu and its toggle flip together. *)
Lemma on_toggle_twice (n : nav) : on_toggle (on_toggle n) = n.
Proof. destruct n; unfold on_toggle; simpl; by rewrite !negb_involutive. Qed.

End Navigation.
