(* ===== verification/Debounce.v ===== *)
(** * Debounce: the utility [debounce(func, wait, immediate)]
    (src/script.js, lines 899-911)

    The function [debounce] returns keeps the handle [timeout] in its
    closure.  Each call computes [callNow = immediate && !timeout],
    clears the pending timer, sets a new [later] timer of [wait] ms, and
    calls [func] at once when [callNow]; [later] resets [timeout] to
    [null] and calls [func] with the arguments it captured unless
    [immediate].  The timers run on the scheduler of [Timers.v]; the calls
    of [func] are recorded with their arguments.  The page defines the
    utility but does not use it. *)

From Stdlib Require Import NArith Lia List.
From stdpp Require Import base list.
From S2P Require Import Prelude Timers.

Module Debounce.
Import Timers.

Section DebounceFn.
Context {A : Type}.

(** The closure [later], with the arguments it captured. *)
Inductive cb : Type := Later (args : A).

Record deb : Type := Deb {
  timeout : option nat;   (** [timeout]: [undefined]/[null] or a handle *)
  calls : list A          (** the calls of [func], in order *)
}.

Variable wait : N.
Variable immediate : bool.

(** [executedFunction(...args)] *)
Definition executedFunction (args : A) (s : sched cb) (d : deb) : sched cb * deb :=
  let callNow := immediate && negb (bool_decide (is_Some (timeout d))) in
  let s1 := match timeout d with Some id => clear_timer id s | None => s end in
  let id := next_id s1 in
  let s2 := set_timeout (Later args) wait s1 in
  (s2, Deb (Some id) (if callNow then calls d ++ [args] else calls d)).

(** [later] *)
Definition run_cb (c : cb) (s : sched cb) (d : deb) : sched cb * deb :=
  match c with
  | Later args => (s, Deb None (if immediate then calls d else calls d ++ [args]))
  end.

Inductive event : Type :=
| Call (args : A)
| Wait (ms : N).

(** A [later] timer sets no timer: one callback per pending timer. *)
Definition handle (ev : event) (w : sched cb * deb) : sched cb * deb :=
  let '(s, d) := w in
  match ev with
  | Call args => executedFunction args s d
  | Wait ms => advance run_cb (S (length (queue s))) (now s + ms)%N s d
  end.

Definition run_events (evs : list event) (w : sched cb * deb) : sched cb * deb :=
  fold_left (fun w ev => handle ev w) evs w.

End DebounceFn.

Arguments deb : clear implicits.
Arguments cb : clear implicits.
Arguments event : clear implicits.

(** ** Bursts of calls *)

Section Bursts.
Context {A : Type} (wait : N) (immediate : bool).

(** The calls after the first: each [gap] ms after the previous one. *)
Definition burst (gaps : list (N * A)) : list (event A) :=
  concat (map (fun g => [Wait (fst g); Call (snd g)]) gaps).

Definition last_arg (a0 : A) (gaps : list (N * A)) : A := default a0 (last (map snd gaps)).

(** The state right after a call with arguments [a]: one [later]
    timer, due [wait] ms later, and [timeout] holding its handle. *)
Definition armed (a : A) (w : sched (cb A) * deb A) : Prop :=
  exists id, queue (fst w) = [Timer (now (fst w) + wait) id None (Later a)] /\
             timeout (snd w) = Some id /\ (id < next_id (fst w))%nat.

Lemma call_after_gap (d : N) (a a' : A) (w : sched (cb A) * deb A) :
  (d < wait)%N -> armed a w ->
  armed a' (handle wait immediate (Call a') (handle wait immediate (Wait d) w)) /\
  calls (snd (handle wait immediate (Call a') (handle wait immediate (Wait d) w))) = calls (snd w).
Proof.
  destruct w as [s dd]. intros Hd (id & Hq & Ht & Hid). cbn [fst snd] in *.
  cbn [handle]. rewrite advance_idle by (rewrite Hq, first_due_single; cbn [t_due]; nat_tests; done).
  cbn [handle]. unfold executedFunction. cbn [queue now next_id timeout calls]. rewrite Ht, Hq.
  unfold clear_timer, set_timeout; cbn [queue now next_id List.filter t_id]. rewrite Nat.eqb_refl.
  cbn [negb]. nat_tests. split; [|by destruct immediate].
  exists (next_id s). split_and!; cbn; [reflexivity|reflexivity|lia].
Qed.

Lemma burst_armed (gaps : list (N * A)) (a : A) (w : sched (cb A) * deb A) :
  Forall (fun g => (fst g < wait)%N) gaps -> armed a w ->
  armed (last_arg a gaps) (run_events wait immediate (burst gaps) w) /\
  calls (snd (run_events wait immediate (burst gaps) w)) = calls (snd w).
Proof.
  revert a w; induction gaps as [|g gaps IH]; intros a w Hg Hw; [done|].
  apply Forall_cons in Hg as [Hd Hg].
  destruct (call_after_gap (fst g) a (snd g) w Hd Hw) as [Hw' Hc].
  unfold run_events, burst in *. cbn [map concat]. cbn [app fold_left].
  destruct (IH (snd g) _ Hg Hw') as [H1 H2]. split; [|by rewrite H2].
  unfold last_arg. cbn [map]. rewrite last_cons. unfold last_arg in H1.
  destruct (last (map snd gaps)); exact H1.
Qed.

Lemma first_call (t0 : N) (a0 : A) :
  let w := handle wait immediate (Call a0) (sched_at t0, Deb None []) in
  armed a0 w /\ calls (snd w) = (if immediate then [a0] else []).
Proof.
  split; [|by destruct immediate]. exists 1%nat. split_and!; reflexivity || (cbn; lia).
Qed.

Lemma fire_armed (a : A) (ms : N) (w : sched (cb A) * deb A) :
  (wait <= ms)%N -> armed a w ->
  let w' := handle wait immediate (Wait ms) w in
  queue (fst w') = [] /\ timeout (snd w') = None /\
  calls (snd w') = (if immediate then calls (snd w) else calls (snd w) ++ [a]).
Proof.
  destruct w as [s dd]. intros Hms (id & Hq & Ht & Hid). cbn [fst snd handle] in *.
  rewrite Hq. cbn [length].
  rewrite (advance_fire _ _ _ _ _ (Timer (now s + wait) id None (Later a)))
    by (rewrite Hq, first_due_single; cbn [t_due]; nat_tests; done).
  rewrite Hq. cbn zeta. rewrite rearm_once by reflexivity. rewrite remove_timer_single.
  cbn [t_cb run_cb]. rewrite advance_idle by reflexivity. cbn. split_and!; done.
Qed.

End Bursts.

(** C29: a burst of calls to a debounced function, each less than
    [wait] ms after the previous one, followed by at least [wait] ms of
    quiet, calls [func] exactly once: with the first call's arguments, at
    that call, when [immediate]; with the last call's arguments, at the
    end, otherwise.  No timer is left and [timeout] is reset, so the next
    call starts a new burst. *)
Theorem debounce_burst {A : Type} (wait : N) (immediate : bool) (t0 : N) (a0 : A)
    (gaps : list (N * A)) (ms : N) :
  Forall (fun g => (fst g < wait)%N) gaps -> (wait <= ms)%N ->
  let w := run_events wait immediate (Call a0 :: burst gaps ++ [Wait ms]) (sched_at t0, Deb None []) in
  calls (snd w) = [if immediate then a0 else last_arg a0 gaps] /\
  queue (fst w) = [] /\ timeout (snd w) = None.
Proof.
  intros Hg Hms w. subst w. unfold run_events. cbn [fold_left]. rewrite fold_left_app.
  fold (run_events wait immediate (burst gaps) (handle wait immediate (Call a0) (sched_at t0, Deb None []))).
  destruct (first_call wait immediate t0 a0) as [H1 C1].
  destruct (burst_armed wait immediate gaps a0 _ Hg H1) as [H2 C2].
  cbn [fold_left]. destruct (fire_armed wait immediate _ ms _ Hms H2) as (Q & T & C3).
  split_and!; [|exact Q|exact T]. rewrite C3, C2, C1. by destruct immediate.
Qed.

Lemma debounce_burst_witness :
  (Forall (fun g => (fst g < 100)%N) [(50%N, 2%nat); (99%N, 3%nat)] /\ (100 <= 100)%N) /\
  calls (snd (run_events 100 false (Call 1%nat :: burst [(50%N, 2%nat); (99%N, 3%nat)] ++ [Wait 100])
                         (sched_at 0, Deb None []))) = [3%nat].
Proof.
  assert (Hg : Forall (fun g => (fst g < 100)%N) [(50%N, 2%nat); (99%N, 3%nat)])
    by (repeat constructor; simpl; lia).
  assert (Hms : (100 <= 100)%N) by lia.
  split; [split; [exact Hg|exact Hms]|].
  exact (proj1 (debounce_burst 100 false 0 1%nat _ 100 Hg Hms)).
Defined.

End Debounce.
