(* ===== verification/Interactive.v ===== *)
(** * Interactive elements: [initInteractiveElements] (src/script.js,
    lines 438-512)

    Hover listeners on buttons ([scale] 1.05 and back to 1), market cards
    ([y] -10 and back to 0) and planet items (the sphere to [scale] 1.1
    and [rotationY] 360, back to [scale] 1 only), and the click listeners
    of the two call-to-action buttons (particles from [Particles.v] and a
    Lenis scroll request).  A [gsap.to] tween goes from the property's
    current value to its target; the model keeps the values the tweens
    end at, and for the sphere the angle each hover turns it by (target
    minus current value), each tween running to its end before the next
    event. *)

From Stdlib Require Import QArith Lqa String List Lia.
From stdpp Require Import base list gmap.
From S2P Require Import Prelude Particles.

Local Open Scope Q_scope.

Module InteractiveElements.
Import EffectEmitter.

(** The tweened properties of an element. *)
Record props : Type := Props { scale : Q; y : Q; rotationY : Q }.

Definition at_rest : props := Props 1 0 0.

(** [.btn] [mouseenter] / [mouseleave] *)
Definition btn_enter (p : props) : props := Props (105 # 100) (y p) (rotationY p).
Definition btn_leave (p : props) : props := Props 1 (y p) (rotationY p).

(** [.market-card] [mouseenter] / [mouseleave] *)
Definition card_enter (p : props) : props := Props (scale p) (-10) (rotationY p).
Definition card_leave (p : props) : props := Props (scale p) 0 (rotationY p).

(** [.planet-item] [mouseenter] on its [.planet-sphere]: the new values
    and the angle the tween turns the sphere by. *)
Definition planet_enter (p : props) : props * Q :=
  (Props (11 # 10) (y p) 360, 360 - rotationY p).

(** [.planet-item] [mouseleave] *)
Definition planet_leave (p : props) : props := Props 1 (y p) (rotationY p).

Inductive hover : Type := Enter | Leave.

(** A sequence of hovers over one planet item: the sphere's values and
    the angle of each [mouseenter] turn, in order. *)
Fixpoint planet_hovers (evs : list hover) (p : props) : props * list Q :=
  match evs with
  | [] => (p, [])
  | Enter :: rest =>
      let '(p1, turn) := planet_enter p in
      let '(p2, turns) := planet_hovers rest p1 in (p2, turn :: turns)
  | Leave :: rest => planet_hovers rest (planet_leave p)
  end.

Definition enters (evs : list hover) : nat := length (List.filter (fun e => match e with Enter => true | Leave => false end) evs).

(** The click listeners of [#explore-btn] and [#learn-btn], with the
    Lenis scroll requests [(target, duration)]. *)
Section Clicks.
Context `{Random} `{Trig}.

Definition on_explore_click (r : rect) (pg : page) (k : nat) (scrolls : list (string * Q))
  : page * nat * list (string * Q) :=
  let '(pg1, k1) := createParticleExplosion r pg k in
  (pg1, k1, scrolls ++ [("#markets"%string, 2)]).

Definition on_learn_click (scrolls : list (string * Q)) : list (string * Q) :=
  scrolls ++ [("#planets"%string, 2)].

End Clicks.

(** ** Theorems *)

(** Buttons and cards come back to rest. *)
Lemma btn_hover_roundtrip : btn_leave (btn_enter at_rest) = at_rest.
Proof. reflexivity. Qed.

Lemma card_hover_roundtrip : card_leave (card_enter at_rest) = at_rest.
Proof. reflexivity. Qed.

Lemma enters_cons_enter evs : enters (Enter :: evs) = S (enters evs).
Proof. reflexivity. Qed.

Lemma enters_cons_leave evs : enters (Leave :: evs) = enters evs.
Proof. reflexivity. Qed.

(** Once at 360, the sphere never turns again. *)
Lemma hovers_after_turn evs p :
  rotationY p = 360 -> snd (planet_hovers evs p) = replicate (enters evs) 0.
Proof.
  revert p; induction evs as [|[] evs IH]; intros p Hp; [done| |].
  - cbn [planet_hovers planet_enter]. rewrite enters_cons_enter.
    specialize (IH (Props (11 # 10) (y p) 360) eq_refl).
    destruct (planet_hovers evs _) as [p2 turns]. cbn [snd] in *. rewrite IH, Hp. reflexivity.
  - cbn [planet_hovers]. rewrite enters_cons_leave. apply IH. exact Hp.
Qed.

(** C31: the compound hover of a planet item turns its
    sphere a full 360 degrees on the first [mouseenter] only: the tween
    goes to the absolute angle 360, the [mouseleave] never resets it, so
    every later [mouseenter] turns it by 0 degrees. *)
Theorem planet_hover_turns_once (evs : list hover) :
  snd (planet_hovers evs at_rest) =
    match enters evs with O => [] | S n => 360 :: replicate n 0 end.
Proof.
  assert (Hgen : forall p, rotationY p = 0 ->
            snd (planet_hovers evs p) = match enters evs with O => [] | S n => 360 :: replicate n 0 end).
  { induction evs as [|[] evs IH]; intros p Hp; [done| |].
    - cbn [planet_hovers planet_enter]. rewrite enters_cons_enter.
      pose proof (hovers_after_turn evs (Props (11 # 10) (y p) 360) eq_refl) as H1.
      destruct (planet_hovers evs _) as [p2 turns]. cbn [snd] in *. rewrite H1, Hp. reflexivity.
    - cbn [planet_hovers]. rewrite enters_cons_leave. apply IH. exact Hp. }
  by apply Hgen.
Qed.

End InteractiveElements.
