(* ===== verification/Tween.v ===== *)
(** * The animation collaborator: gsap tweens, timelines and ScrollTrigger

    What [initGSAPAnimations] (src/script.js, lines 311-435) asks of gsap 3
    and of its ScrollTrigger plugin, as their documentation states it.
    This is a model of the library, not of code of the repository.

    - A tween animates the elements a selector matches; with a [stagger]
      the i-th element starts [i * stagger] seconds after the first, so
      the tween lasts [duration + stagger * (n - 1)].  [gsap.from] renders
      its from values at once ([immediateRender]) and animates from them
      to the element's own values, through the named ease.
    - A timeline places each child at a position: by default at the end
      of the timeline, with ["-=x"] [x] seconds before it; it starts
      [delay] seconds after it is created.
    - A ScrollTrigger has a start and an end scroll position (["top 80%"]:
      the trigger's top at 80% of the viewport height) and divides the
      page into before, active and after; crossing the start forward
      fires [onEnter], crossing the end forward [onLeave], crossing the
      end backward [onEnterBack], crossing the start backward
      [onLeaveBack] (a jump over both fires both, in order), and each
      callback applies its entry of [toggleActions] to the animation.
      At creation the trigger is before and its animation unplayed, and
      its first update is at the page's scroll position. *)

From Stdlib Require Import QArith Qminmax Lqa String List ZArith Lia.
From stdpp Require Import base list.
From S2P Require Import Prelude.

Local Open Scope Q_scope.

Module Tween.

(** ** Eases *)

Inductive ease : Type := Power2Out | Power3Out | BackOut (overshoot : Q).

(** gsap's [power2.out] is the cubic ease-out, [power3.out] the quartic
    one, and [back.out(c)] overshoots by [c]. *)
Definition ease_fn (e : ease) (p : Q) : Q :=
  match e with
  | Power2Out => 1 - (1 - p) * (1 - p) * (1 - p)
  | Power3Out => 1 - (1 - p) * (1 - p) * (1 - p) * (1 - p)
  | BackOut c => (p - 1) * (p - 1) * ((c + 1) * (p - 1) + c) + 1
  end.

(** ** Tweens *)

(** A tween's vars: the properties with their from (or to) values, the
    duration in seconds, the stagger and the ease. *)
Record vars : Type := Vars {
  props : list (string * Q);
  duration : Q;
  stagger : Q;
  ease_of : ease
}.

(** The page as the selectors see it: how many elements each matches. *)
Definition dom : Type := string -> nat.

Definition Q_of_nat (n : nat) : Q := inject_Z (Z.of_nat n).

Definition tween_length (d : dom) (sel : string) (v : vars) : Q :=
  duration v + stagger v * Q_of_nat (Nat.pred (d sel)).

(** The value of one property of one element of a [gsap.from] tween
    that starts at [st]: the from value [f] until then, the element's
    own value [c] from the end on, eased in between. *)
Definition from_value (e : ease) (f c st dur t : Q) : Q :=
  if Qle_bool (st + dur) t then c
  else if Qle_bool t st then f
  else f + (c - f) * ease_fn e ((t - st) / dur).

(** ** Timelines *)

Inductive position : Type :=
| AtEnd                 (** no position parameter *)
| BeforeEnd (x : Q).    (** ["-=x"] *)

Record child : Type := Child { c_sel : string; c_vars : vars; c_start : Q }.

Record timeline : Type := Timeline {
  tl_delay : Q;
  tl_children : list child;
  tl_end : Q              (** the timeline's duration so far *)
}.

(** [gsap.timeline({ delay })] *)
Definition timeline_new (delay : Q) : timeline := Timeline delay [] 0.

(** [tl.from(sel, vars, position)] *)
Definition tl_from (d : dom) (sel : string) (v : vars) (pos : position) (tl : timeline) : timeline :=
  let st := match pos with AtEnd => tl_end tl | BeforeEnd x => tl_end tl - x end in
  Timeline (tl_delay tl) (tl_children tl ++ [Child sel v st])
           (Qmax (tl_end tl) (st + tween_length d sel v)).

(** The time, after the timeline's creation, at which the [i]-th
    element of a child starts moving. *)
Definition child_start (tl : timeline) (c : child) (i : nat) : Q :=
  tl_delay tl + c_start c + stagger (c_vars c) * Q_of_nat i.

(** ** ScrollTrigger *)

Inductive edge : Type := Top | Bottom.

(** ["top 80%"] is [StPos Top (80 # 100)]. *)
Record st_pos : Type := StPos { st_edge : edge; st_viewport : Q }.

Inductive action : Type := Play | Pause | Resume | Reverse | Restart | Reset | Complete | NoAction.

(** [toggleActions: "onEnter onLeave onEnterBack onLeaveBack"] *)
Record toggle_actions : Type := Toggle {
  on_enter : action; on_leave : action; on_enter_back : action; on_leave_back : action
}.

Record scroll_trigger : Type := ScrollTrigger {
  trigger : string;
  st_start : st_pos;
  st_end : st_pos;
  toggle : toggle_actions
}.

(** Where the trigger elements are, in document coordinates, and the
    viewport's height. *)
Record layout : Type := Layout { el_top : string -> Q; el_bottom : string -> Q; vh : Q }.

(** The scroll position at which the trigger's edge meets the given
    fraction of the viewport. *)
Definition scroll_at (l : layout) (sel : string) (p : st_pos) : Q :=
  (match st_edge p with Top => el_top l sel | Bottom => el_bottom l sel end) - st_viewport p * vh l.

Inductive region : Type := Before | Active | After.

#[export] Instance region_eq_dec : EqDecision region.
Proof. solve_decision. Defined.

Definition region_of (l : layout) (st : scroll_trigger) (y : Q) : region :=
  if negb (Qle_bool (scroll_at l (trigger st) (st_start st)) y) then Before
  else if Qle_bool y (scroll_at l (trigger st) (st_end st)) then Active
  else After.

(** The callbacks a move from one region to another fires, in order. *)
Definition callbacks (r r' : region) : list (toggle_actions -> action) :=
  match r, r' with
  | Before, Active => [on_enter]
  | Before, After => [on_enter; on_leave]
  | Active, After => [on_leave]
  | After, Active => [on_enter_back]
  | After, Before => [on_enter_back; on_leave_back]
  | Active, Before => [on_leave_back]
  | _, _ => []
  end.

(** The direction in which the trigger last sent its animation. *)
Inductive anim : Type := Unplayed | Forward | Backward.

#[export] Instance anim_eq_dec : EqDecision anim.
Proof. solve_decision. Defined.

Definition apply_action (a : action) (s : anim) : anim :=
  match a with
  | Play | Restart | Complete => Forward
  | Reverse => Backward
  | Reset => Unplayed
  | Pause | Resume | NoAction => s
  end.

Record st_state : Type := StState { st_region : region; st_anim : anim }.

Definition st_init : st_state := StState Before Unplayed.

(** One scroll update, to the region of the new position. *)
Definition st_update (t : toggle_actions) (sc : st_state) (r' : region) : st_state :=
  StState r' (fold_left (fun a f => apply_action (f t) a) (callbacks (st_region sc) r') (st_anim sc)).

(** The page scrolled through the positions [ys]. *)
Definition run_trigger (l : layout) (st : scroll_trigger) (ys : list Q) : st_state :=
  fold_left (fun sc y => st_update (toggle st) sc (region_of l st y)) ys st_init.

(** ** Lemmas *)

Lemma run_trigger_region l st ys :
  st_region (run_trigger l st ys) = match last ys with Some y => region_of l st y | None => Before end.
Proof.
  unfold run_trigger. destruct ys as [|y ys] using rev_ind; [done|].
  rewrite fold_left_app, last_app. done.
Qed.

(** Under ["play none none reverse"] the animation is sent forward
    exactly while the trigger is not before: an invariant of every
    update. *)
Definition pnnr : toggle_actions := Toggle Play NoAction NoAction Reverse.

Definition pnnr_inv (sc : st_state) : Prop := st_anim sc = Forward <-> st_region sc <> Before.

Lemma pnnr_inv_init : pnnr_inv st_init.
Proof. split; [done|]. by intros []. Qed.

Lemma pnnr_inv_update sc r' : pnnr_inv sc -> pnnr_inv (st_update pnnr sc r').
Proof. destruct sc as [r a]. unfold pnnr_inv. destruct r, r', a; cbn; naive_solver. Qed.

Lemma run_trigger_pnnr l st ys :
  toggle st = pnnr -> pnnr_inv (run_trigger l st ys).
Proof.
  intros Ht. unfold run_trigger. rewrite Ht.
  generalize st_init pnnr_inv_init. induction ys as [|y ys IH]; intros sc Hsc; [done|].
  cbn. apply IH. by apply pnnr_inv_update.
Qed.

End Tween.
