(* ===== verification/JsNumber.v ===== *)
(** * JavaScript's number parsing and formatting

    The built-ins the stat counters of [initGSAPAnimations]
    (src/script.js, lines 416-434) call: [parseInt] with no radix (the
    ECMAScript algorithm: leading white space, a sign, a [0x] prefix
    for hexadecimal, the longest prefix of digits, [NaN] when there is
    none), [Math.round], [Math.ceil], and [toLocaleString] on a number in
    the [en-US] locale (digits grouped by three with commas).  This is a
    model of the language's library, not of code of the repository; the
    lemmas give the round trip from a decimal numeral through
    [parseInt] and the formatting of integers. *)

From Stdlib Require Import QArith Qround ZArith NArith String Ascii List Lia.
From stdpp Require Import base list.
From S2P Require Import Prelude.

Local Open Scope N_scope.

Module JsNumber.

(** ** [parseInt] *)

Definition is_ws (c : ascii) : bool :=
  let n := N_of_ascii c in ((9 <=? n) && (n <=? 13)) || (n =? 32) || (n =? 160).

Fixpoint skip_ws (s : string) : string :=
  match s with
  | String c r => if is_ws c then skip_ws r else s
  | EmptyString => s
  end.

(** The value of a digit in the given radix (letters for 10 to 35). *)
Definition digit_val (radix : N) (c : ascii) : option N :=
  let n := N_of_ascii c in
  let v := if (48 <=? n) && (n <=? 57) then Some (n - 48)
           else if (97 <=? n) && (n <=? 122) then Some (n - 87)
           else if (65 <=? n) && (n <=? 90) then Some (n - 55)
           else None in
  match v with Some d => if d <? radix then Some d else None | None => None end.

Fixpoint digits_prefix (radix : N) (s : string) : list N :=
  match s with
  | String c r => match digit_val radix c with Some d => d :: digits_prefix radix r | None => [] end
  | EmptyString => []
  end.

Definition digits_value (radix : N) (ds : list N) : N := fold_left (fun acc d => acc * radix + d) ds 0.

(** [parseInt(s)] *)
Definition parseInt (s : string) : jsnum :=
  let s1 := skip_ws s in
  let '(neg, s2) := match s1 with
                    | String c r => if N_of_ascii c =? 45 then (true, r)
                                    else if N_of_ascii c =? 43 then (false, r) else (false, s1)
                    | EmptyString => (false, s1)
                    end in
  let '(radix, s3) := match s2 with
                      | String c (String x r) =>
                          if (N_of_ascii c =? 48) && ((N_of_ascii x =? 120) || (N_of_ascii x =? 88))
                          then (16, r) else (10, s2)
                      | _ => (10, s2)
                      end in
  match digits_prefix radix s3 with
  | [] => JNaN
  | ds => JNum ((if neg then -1 else 1) * inject_Z (Z.of_N (digits_value radix ds)))%Q
  end.

(** ** Decimal numerals and [toLocaleString] *)

Fixpoint digits_rev (fuel : nat) (n : N) : list N :=
  match fuel with
  | O => []
  | S f => if n <? 10 then [n] else (n mod 10) :: digits_rev f (n / 10)
  end.

(** The decimal digits of [n], most significant first. *)
Definition decimal_digits (n : N) : list N := rev (digits_rev (S (N.to_nat (N.log2 n))) n).

Definition char_of_digit (d : N) : ascii := ascii_of_N (48 + d).

Definition string_of_digits (ds : list N) : string :=
  fold_right (fun d s => String (char_of_digit d) s) EmptyString ds.

Definition decimal_string (n : N) : string := string_of_digits (decimal_digits n).

(** The [en-US] grouping: a comma before every group of three digits
    that follows other digits. *)
Fixpoint locale_of_digits (ds : list N) : string :=
  match ds with
  | [] => EmptyString
  | d :: rest =>
      String (char_of_digit d)
        (if (0 <? length rest)%nat && (length rest mod 3 =? 0)%nat
         then String "," (locale_of_digits rest) else locale_of_digits rest)
  end.

(** [z.toLocaleString()] for an integer [z]. *)
Definition locale_of_Z (z : Z) : string :=
  (if (z <? 0)%Z then "-" else "") ++ locale_of_digits (decimal_digits (Z.to_N (Z.abs z))).

(** [x.toLocaleString()] for a number that is an integer or [NaN]. *)
Definition to_locale_string (x : jsnum) : string :=
  match x with JNaN => "NaN" | JNum q => locale_of_Z (Qfloor q) end.

(** [Math.round] (halves up) and [Math.ceil]. *)
Definition math_round (x : jsnum) : jsnum :=
  match x with JNaN => JNaN | JNum q => JNum (inject_Z (Qfloor (q + (1 # 2)))) end.

Definition math_ceil (x : jsnum) : jsnum :=
  match x with JNaN => JNaN | JNum q => JNum (inject_Z (Qceiling q)) end.

(** ** Lemmas *)

Lemma pow10_succ (f : nat) : 10 ^ N.of_nat (S f) = 10 * 10 ^ N.of_nat f.
Proof. rewrite Nat2N.inj_succ, N.pow_succ_r'. done. Qed.

Lemma digits_rev_value fuel n :
  n < 10 ^ N.of_nat fuel ->
  fold_right (fun d acc => acc * 10 + d) 0 (digits_rev fuel n) = n.
Proof.
  revert n; induction fuel as [|f IH]; intros n Hn; [cbn in *; lia|].
  cbn [digits_rev]. destruct (N.ltb_spec n 10) as [Hlt|Hge]; [cbn; lia|].
  cbn [fold_right]. rewrite IH.
  - pose proof (N.div_mod n 10). lia.
  - rewrite pow10_succ in Hn. apply N.Div0.div_lt_upper_bound. lia.
Qed.

Lemma digits_rev_small fuel n : Forall (fun d => d < 10) (digits_rev fuel n).
Proof.
  revert n; induction fuel as [|f IH]; intros n; [constructor|].
  cbn. destruct (N.ltb_spec n 10); constructor; auto. apply N.mod_lt. lia.
Qed.

Lemma log2_bound n : n < 10 ^ N.of_nat (S (N.to_nat (N.log2 n))).
Proof.
  rewrite Nat2N.inj_succ, N2Nat.id.
  destruct (N.eq_dec n 0) as [->|Hn]; [cbn; lia|].
  apply N.lt_le_trans with (2 ^ N.succ (N.log2 n)).
  - apply N.log2_spec. lia.
  - apply N.pow_le_mono_l. lia.
Qed.

Lemma fold_left_rev {A B} (f : A -> B -> A) (l : list B) a :
  fold_left f (rev l) a = fold_right (fun x acc => f acc x) a l.
Proof. induction l as [|x l IH]; [done|]. cbn. by rewrite fold_left_app, IH. Qed.

Lemma decimal_digits_value n : digits_value 10 (decimal_digits n) = n.
Proof.
  unfold digits_value, decimal_digits. rewrite fold_left_rev.
  apply digits_rev_value, log2_bound.
Qed.

Lemma decimal_digits_small n : Forall (fun d => d < 10) (decimal_digits n).
Proof. unfold decimal_digits. apply Forall_rev, digits_rev_small. Qed.

Lemma decimal_digits_nonempty n : decimal_digits n <> [].
Proof.
  unfold decimal_digits. cbn [digits_rev]. destruct (n <? 10); cbn; [done|].
  intros H. apply app_eq_nil in H as [_ H]. done.
Qed.

Lemma N_of_char_of_digit d : d < 10 -> N_of_ascii (char_of_digit d) = 48 + d.
Proof. intros Hd. unfold char_of_digit. apply N_ascii_embedding. lia. Qed.

Lemma digit_val_char d : d < 10 -> digit_val 10 (char_of_digit d) = Some d.
Proof.
  intros Hd. unfold digit_val. rewrite N_of_char_of_digit by done.
  rewrite (proj2 (N.leb_le 48 (48 + d))), (proj2 (N.leb_le (48 + d) 57)) by lia. cbn [andb].
  replace (48 + d - 48) with d by lia. rewrite (proj2 (N.ltb_lt d 10)) by done. done.
Qed.

Lemma digits_prefix_string ds :
  Forall (fun d => d < 10) ds -> digits_prefix 10 (string_of_digits ds) = ds.
Proof.
  induction 1 as [|d ds Hd Hds IH]; [done|].
  change (string_of_digits (d :: ds)) with (String (char_of_digit d) (string_of_digits ds)).
  cbn [digits_prefix]. by rewrite digit_val_char, IH.
Qed.

(** A decimal numeral reads back as its number. *)
Lemma parseInt_decimal n : parseInt (decimal_string n) = JNum (inject_Z (Z.of_N n)).
Proof.
  unfold decimal_string, parseInt.
  pose proof (decimal_digits_small n) as Hs. pose proof (decimal_digits_value n) as Hv.
  pose proof (decimal_digits_nonempty n) as Hne.
  destruct (decimal_digits n) as [|d ds] eqn:E; [done|].
  apply Forall_cons in Hs as [Hd Hds].
  change (string_of_digits (d :: ds)) with (String (char_of_digit d) (string_of_digits ds)).
  cbn [skip_ws]. unfold is_ws. rewrite !N_of_char_of_digit by done. nat_tests. cbn [andb orb].
  rewrite !N_of_char_of_digit by done. nat_tests.
  destruct ds as [|d2 ds]; cbn [string_of_digits fold_right].
  - cbn [digits_prefix]. rewrite digit_val_char by done. rewrite <- Hv. by destruct (digits_value _ _).
  - apply Forall_cons in Hds as [Hd2 Hds]. rewrite !N_of_char_of_digit by done. nat_tests.
    rewrite andb_false_r. cbn [digits_prefix]. rewrite !digit_val_char by done.
    fold (string_of_digits ds). rewrite digits_prefix_string by done. rewrite <- Hv. by destruct (digits_value _ _).
Qed.

End JsNumber.
