(* ===== verification/GSAP.v ===== *)
(** * Intro, entrance and counter animations: [initGSAPAnimations]
    (src/script.js, lines 311-435)

    [initGSAPAnimations] registers ScrollTrigger and configures gsap:
    the hero intro, a timeline of four [from] tweens started 3.5 s after
    the call; five entrance animations, [from] tweens each attached to a
    ScrollTrigger with [toggleActions: 'play none none reverse']; and a
    counter per [.stat-value[data-target]], whose ScrollTrigger's
    [onEnter] tweens the element's [innerText] to [parseInt] of its
    [data-target], snapped to integers, and rewrites it on every update
    through [Math.ceil] and [toLocaleString].  The tweens, timelines and
    triggers are the model of [Tween.v]; the built-ins that of
    [JsNumber.v].  The theorems give the intro's layout, the entrance
    animations' state on every scroll path, and the counters' displayed
    values. *)

From Stdlib Require Import QArith Qminmax Qround Lqa String List ZArith NArith Lia.
From stdpp Require Import base list.
From S2P Require Import Prelude Tween JsNumber.

Local Open Scope string_scope.
Local Open Scope Q_scope.

Module GSAPAnimations.
Import Tween JsNumber.

(** ** The hero intro (lines 315-341) *)

Definition hero_timeline (d : dom) : timeline :=
  tl_from d ".scroll-indicator"
    (Vars [("y", 30); ("opacity", 0)] (1 # 2) 0 Power2Out) (BeforeEnd (1 # 10))
  (tl_from d ".hero-buttons .btn"
    (Vars [("y", 30); ("opacity", 0)] (6 # 10) (1 # 10) (BackOut (17 # 10))) (BeforeEnd (2 # 10))
  (tl_from d ".hero-description"
    (Vars [("y", 50); ("opacity", 0)] (8 # 10) 0 Power2Out) (BeforeEnd (3 # 10))
  (tl_from d ".hero-title .title-line"
    (Vars [("y", 100); ("opacity", 0)] 1 (2 # 10) Power3Out) AtEnd
  (timeline_new (7 # 2))))).

(** ** The entrance animations (lines 344-413) *)

Record entrance : Type := Entrance { e_sel : string; e_trigger : scroll_trigger; e_vars : vars }.

(** The trigger all five share, but for its element. *)
Definition entrance_trigger (trig : string) : scroll_trigger :=
  ScrollTrigger trig (StPos Top (80 # 100)) (StPos Bottom (20 # 100)) (Toggle Play NoAction NoAction Reverse).

Definition market_cards : entrance :=
  Entrance ".market-card" (entrance_trigger ".markets-grid")
    (Vars [("y", 60); ("opacity", 0)] (8 # 10) (2 # 10) Power3Out).

Definition planet_items : entrance :=
  Entrance ".planet-item" (entrance_trigger ".planets-container")
    (Vars [("y", 80); ("opacity", 0)] 1 (3 # 10) (BackOut (17 # 10))).

Definition trading_panel : entrance :=
  Entrance ".trading-panel" (entrance_trigger ".trading-section")
    (Vars [("scale", 9 # 10); ("opacity", 0)] 1 0 Power3Out).

Definition contact_form : entrance :=
  Entrance ".contact-form" (entrance_trigger ".contact-section")
    (Vars [("x", -100); ("opacity", 0)] (8 # 10) 0 Power3Out).

Definition info_items : entrance :=
  Entrance ".contact-info .info-item" (entrance_trigger ".contact-section")
    (Vars [("x", 100); ("opacity", 0)] (8 # 10) (2 # 10) Power3Out).

Definition entrance_animations : list entrance :=
  [market_cards; planet_items; trading_panel; contact_form; info_items].

(** ** The stat counters (lines 416-434) *)

Record counter : Type := Counter { stat_el : string; target : jsnum; c_trigger : scroll_trigger }.

(** [const target = parseInt(element.getAttribute('data-target'))] *)
Definition stat_target (data_target : string) : jsnum := parseInt data_target.

(** [ScrollTrigger.create({ trigger: element, start: 'top 90%', onEnter })]:
    the end is ScrollTrigger's default, ['bottom top']; the toggle
    actions are unused, as no animation is attached. *)
Definition counter_trigger (el : string) : scroll_trigger :=
  ScrollTrigger el (StPos Top (90 # 100)) (StPos Bottom 0) (Toggle Play NoAction NoAction NoAction).

Definition stat_counter (el data_target : string) : counter :=
  Counter el (stat_target data_target) (counter_trigger el).

(** The tween's [innerText] at progress [p] of its 2 s: from the value
    [v0] gsap read from the element, toward [target], through
    [power2.out], then [snap: { innerText: 1 }]. *)
Definition counter_tween_value (v0 : Q) (tgt : jsnum) (p : Q) : jsnum :=
  math_round (JNum v0 +! (tgt -! JNum v0) *! JNum (ease_fn Power2Out p))%js.

(** [onUpdate]: [Math.ceil(innerText).toLocaleString()]. *)
Definition on_update (inner : jsnum) : string := to_locale_string (math_ceil inner).

Definition counter_text (v0 : Q) (tgt : jsnum) (p : Q) : string :=
  on_update (counter_tween_value v0 tgt p).

(** ** [initGSAPAnimations] *)

Record gsap_setup : Type := GsapSetup {
  hero : timeline;
  entrances : list entrance;
  counters : list counter
}.

(** [stats] are the [.stat-value[data-target]] elements with their
    attribute, in document order. *)
Definition initGSAPAnimations (d : dom) (stats : list (string * string)) : gsap_setup :=
  GsapSetup (hero_timeline d) entrance_animations (map (fun st => stat_counter st.1 st.2) stats).

(** ** Lemmas *)

Lemma Qmax_lt_r (x y : Q) : x < y -> Qmax x y = y.
Proof. intros H. unfold Qmax, GenericMinMax.gmax. by rewrite (proj1 (Qlt_alt x y) H). Qed.

Lemma Q_of_nat_nonneg' n : 0 <= Q_of_nat n.
Proof. unfold Q_of_nat. change 0 with (inject_Z 0). rewrite <- Zle_Qle. lia. Qed.

Lemma power2_out_0 : ease_fn Power2Out 0 == 0.
Proof. reflexivity. Qed.

Lemma power2_out_1 : ease_fn Power2Out 1 == 1.
Proof. reflexivity. Qed.

Lemma power2_out_mono p1 p2 :
  0 <= p1 -> p1 <= p2 -> p2 <= 1 -> ease_fn Power2Out p1 <= ease_fn Power2Out p2.
Proof.
  intros H0 H12 H1. cbn [ease_fn].
  assert (Hu : 0 <= 1 - p2) by lra. assert (Huv : 1 - p2 <= 1 - p1) by lra.
  set (u := 1 - p1) in *. set (v := 1 - p2) in *.
  assert (Hsq : v * v <= u * u) by nra.
  assert (A : v * v * v <= u * u * u) by (apply Qmult_le_compat_nonneg; split; nra).
  lra.
Qed.

Lemma power2_out_range p : 0 <= p -> p <= 1 -> 0 <= ease_fn Power2Out p <= 1.
Proof.
  intros H0 H1. pose proof power2_out_0. pose proof power2_out_1.
  pose proof (power2_out_mono 0 p ltac:(lra) H0 ltac:(lra)).
  pose proof (power2_out_mono p 1 H0 H1 ltac:(lra)). lra.
Qed.

Lemma Qfloor_int_half (z : Z) : Qfloor (inject_Z z + (1 # 2)) = z.
Proof.
  apply Z.le_antisymm.
  - apply Z.lt_succ_r. rewrite Zlt_Qlt. apply Qle_lt_trans with (inject_Z z + (1 # 2)).
    + apply Qfloor_le.
    + unfold Z.succ. rewrite inject_Z_plus. change (inject_Z 1) with 1. lra.
  - rewrite <- (Qfloor_Z z) at 1. apply Qfloor_resp_le. lra.
Qed.

(** The counter's value at [p], for integer start and target. *)
Lemma counter_tween_int (a b : Z) p :
  counter_tween_value (inject_Z a) (JNum (inject_Z b)) p =
    JNum (inject_Z (Qfloor (inject_Z a + (inject_Z b - inject_Z a) * ease_fn Power2Out p + (1 # 2)))).
Proof. reflexivity. Qed.

Lemma counter_text_int (a b : Z) p :
  counter_text (inject_Z a) (JNum (inject_Z b)) p =
    locale_of_Z (Qfloor (inject_Z a + (inject_Z b - inject_Z a) * ease_fn Power2Out p + (1 # 2))).
Proof.
  unfold counter_text, on_update. rewrite counter_tween_int. cbn [math_ceil to_locale_string].
  by rewrite Qceiling_Z, Qfloor_Z.
Qed.

Lemma counter_round_bounds (a b : Z) p1 p2 :
  (a <= b)%Z -> 0 <= p1 -> p1 <= p2 -> p2 <= 1 ->
  let f p := Qfloor (inject_Z a + (inject_Z b - inject_Z a) * ease_fn Power2Out p + (1 # 2)) in
  (a <= f p1 <= f p2 /\ f p2 <= b)%Z.
Proof.
  intros Hab H0 H12 H1 f. subst f. cbn beta.
  assert (Hab' : inject_Z a <= inject_Z b) by by rewrite <- Zle_Qle.
  pose proof (power2_out_mono p1 p2 H0 H12 H1) as Hm.
  pose proof (power2_out_range p1 H0 ltac:(lra)) as [R1 _].
  pose proof (power2_out_range p2 ltac:(lra) H1) as [_ R2].
  set (w := inject_Z b - inject_Z a).
  assert (P1 : 0 <= w * ease_fn Power2Out p1) by (apply Qmult_le_0_compat; subst w; lra).
  assert (P12 : w * ease_fn Power2Out p1 <= w * ease_fn Power2Out p2)
    by (apply Qmult_le_mono_nonneg_l; subst w; lra).
  assert (P2 : w * ease_fn Power2Out p2 <= w * 1) by (apply Qmult_le_mono_nonneg_l; subst w; lra).
  split_and!.
  - rewrite <- (Qfloor_int_half a) at 1. apply Qfloor_resp_le. lra.
  - apply Qfloor_resp_le. lra.
  - rewrite <- (Qfloor_int_half b). apply Qfloor_resp_le. subst w. lra.
Qed.

Lemma counter_text_ends (a b : Z) :
  counter_text (inject_Z a) (JNum (inject_Z b)) 0 = locale_of_Z a /\
  counter_text (inject_Z a) (JNum (inject_Z b)) 1 = locale_of_Z b.
Proof.
  rewrite !counter_text_int. split; f_equal; [transitivity (Qfloor (inject_Z a + (1 # 2)))|
    transitivity (Qfloor (inject_Z b + (1 # 2)))]; try apply Qfloor_int_half.
  - apply Qfloor_comp. rewrite power2_out_0. ring.
  - apply Qfloor_comp. rewrite power2_out_1. ring.
Qed.

Lemma stat_target_decimal (b : N) : stat_target (decimal_string b) = JNum (inject_Z (Z.of_N b)).
Proof. apply parseInt_decimal. Qed.

Lemma entrance_toggle e : In e entrance_animations -> toggle (e_trigger e) = pnnr.
Proof. intros H. repeat destruct H as [<-|H]; done. Qed.

(** ** Theorems *)

(** C15: the hero intro starts 3.5 s after [initGSAPAnimations]; its
    title lines start at once, the description 0.3 s before they end,
    the buttons 0.2 s before the description ends and the scroll
    indicator 0.1 s before the buttons end, and the whole intro lasts
    [L1 + L3 + 0.7] s, where [L1] and [L3] are the staggered lengths of
    the title lines and of the buttons. *)
Theorem hero_layout (d : dom) (stats : list (string * string)) :
  let L1 := 1 + (2 # 10) * Q_of_nat (Nat.pred (d ".hero-title .title-line")) in
  let L3 := (6 # 10) + (1 # 10) * Q_of_nat (Nat.pred (d ".hero-buttons .btn")) in
  let tl := hero (initGSAPAnimations d stats) in
  tl_delay tl = 7 # 2 /\
  Forall2 Qeq (map c_start (tl_children tl)) [0; L1 - (3 # 10); L1 + (3 # 10); L1 + (2 # 10) + L3] /\
  tl_end tl == L1 + L3 + (7 # 10).
Proof.
  intros L1 L3 tl. subst tl. cbn [hero initGSAPAnimations].
  pose proof (Q_of_nat_nonneg' (Nat.pred (d ".hero-title .title-line"))) as N1.
  pose proof (Q_of_nat_nonneg' (Nat.pred (d ".hero-buttons .btn"))) as N3.
  unfold hero_timeline, tl_from, timeline_new, tween_length. cbn [tl_delay tl_children tl_end app map c_start duration stagger].
  rewrite !Qmax_lt_r by (rewrite ?Qmax_lt_r by lra; lra).
  fold L1 L3. split_and!; [done| |lra].
  repeat constructor; cbn; lra.
Qed.

(** C11: every entrance animation of [initGSAPAnimations] (market
    cards, planet items, trading panel, contact form, info items), on
    every scroll path, is sent forward exactly when the page's last
    position is at or past its trigger's start (the trigger's top at 80%
    of the viewport): it plays on the way down and reverses when the page
    goes back above the start, and a jump past the end still plays it. *)
Theorem entrances_play_past_start (d : dom) (stats : list (string * string)) (e : entrance)
    (l : layout) (ys : list Q) :
  In e (entrances (initGSAPAnimations d stats)) ->
  st_anim (run_trigger l (e_trigger e) ys) = Forward <->
    (exists y, last ys = Some y /\ region_of l (e_trigger e) y <> Before).
Proof.
  intros He. pose proof (run_trigger_pnnr l (e_trigger e) ys (entrance_toggle e He)) as Hinv.
  unfold pnnr_inv in Hinv. rewrite run_trigger_region in Hinv. rewrite Hinv.
  destruct (last ys) as [y|]; split.
  - eauto.
  - intros (y' & Hy & Hr). by injection Hy as <-.
  - done.
  - by intros (y' & Hy & _).
Qed.

(** C13: a stat counter whose [data-target] is the numeral of [b],
    counting from the integer [a <= b] it shows first, shows [a] at the
    start of its tween and [b] at the end, and in between shows integers
    that never decrease and stay within [a, b] ([power2.out] does not
    overshoot, and the snap and [Math.ceil] keep the text an integer). *)
Theorem stat_counter_counts (a : Z) (b : N) :
  (a <= Z.of_N b)%Z ->
  let T := stat_target (decimal_string b) in
  counter_text (inject_Z a) T 0 = locale_of_Z a /\
  counter_text (inject_Z a) T 1 = locale_of_Z (Z.of_N b) /\
  forall p1 p2, 0 <= p1 -> p1 <= p2 -> p2 <= 1 ->
    exists z1 z2, (a <= z1 <= z2 /\ z2 <= Z.of_N b)%Z /\
      counter_text (inject_Z a) T p1 = locale_of_Z z1 /\
      counter_text (inject_Z a) T p2 = locale_of_Z z2.
Proof.
  intros Hab T. subst T. rewrite stat_target_decimal.
  destruct (counter_text_ends a (Z.of_N b)) as [E0 E1]. split_and!; [exact E0|exact E1|].
  intros p1 p2 H0 H12 H1. rewrite !counter_text_int.
  eexists _, _. split; [exact (counter_round_bounds a (Z.of_N b) p1 p2 Hab H0 H12 H1)|done].
Qed.

Definition demo_layout : layout := Layout (fun _ => 1000) (fun _ => 1500) 800.

Lemma entrances_play_past_start_witness :
  In market_cards (entrances (initGSAPAnimations (fun _ => 3%nat) [])) /\
  st_anim (run_trigger demo_layout (e_trigger market_cards) [0; 1600; 400]) = Forward.
Proof.
  assert (H : In market_cards (entrances (initGSAPAnimations (fun _ => 3%nat) []))) by (left; reflexivity).
  split; [exact H|]. apply (proj2 (entrances_play_past_start _ _ _ demo_layout [0; 1600; 400] H)).
  exists 400. split; [reflexivity|]. vm_compute. intros Hc; discriminate Hc.
Defined.

Lemma stat_counter_counts_witness :
  (0 <= Z.of_N 1234)%Z /\ counter_text (inject_Z 0) (stat_target (decimal_string 1234)) 1 = "1,234"%string.
Proof.
  assert (H : (0 <= Z.of_N 1234)%Z) by lia. split; [exact H|].
  transitivity (locale_of_Z (Z.of_N 1234)); [exact (proj1 (proj2 (stat_counter_counts 0 1234 H)))|].
  vm_compute. reflexivity.
Defined.

End GSAPAnimations.
