(* ===== verification/Lazy.v ===== *)
(** * Lazy animations: the IntersectionObserver of [optimizePerformance]
    (src/script.js, lines 875-892)

    [optimizePerformance] creates an IntersectionObserver with
    [threshold: 0.1] and [rootMargin: '0px 0px -50px 0px'] whose callback
    adds the class [in-view] to the target of every entry that
    [isIntersecting], and observes every [.market-card], [.planet-item]
    and [.info-item].  The browser side follows the W3C specification,
    along the vertical axis: the root is the viewport with its bottom
    moved up by 50 px; a target intersects it when the two intervals
    overlap or touch; its ratio is the share of its height inside; at
    each rendering step an entry is queued for every target whose
    threshold index (0 below 0.1, 1 from 0.1 on) or whose
    [isIntersecting] changed since the last step (initially -1 and
    [false], so every target gets one entry at the first step).  The
    elements are a list in document order, an entry names its target by
    index.  The theorem shows which elements end up [in-view]: exactly
    those that touched the root at one of the steps, whatever their
    visible share, so that the 0.1 threshold decides when entries come
    but not which elements get the class. *)

From Stdlib Require Import QArith Qminmax Lqa ZArith List Lia.
From stdpp Require Import base list.
From S2P Require Import Prelude.

Local Open Scope Q_scope.

Module LazyAnimations.

Record element : Type := Element { el_top : Q; el_bottom : Q; in_view : bool }.

Record observer_options : Type := Options { threshold : Q; margin_bottom : Q }.

(** [const observerOptions = { threshold: 0.1, rootMargin: '0px 0px -50px 0px' }] *)
Definition observerOptions : observer_options := Options (1 # 10) (-50).

Record entry : Type := Entry { target : nat; isIntersecting : bool }.

(** The observer's record of a target. *)
Record observation : Type := Observation { prev_index : Z; prev_inter : bool }.

Definition observation_init : observation := Observation (-1) false.

(** ** The browser's side *)

Definition root_bottom (o : observer_options) (ih y : Q) : Q := y + ih + margin_bottom o.

Definition intersects (o : observer_options) (ih y : Q) (e : element) : bool :=
  Qle_bool (el_top e) (root_bottom o ih y) && Qle_bool y (el_bottom e).

Definition ratio (o : observer_options) (ih y : Q) (e : element) : Q :=
  if negb (intersects o ih y e) then 0
  else if Qeq_bool (el_bottom e) (el_top e) then 1
  else (Qmin (el_bottom e) (root_bottom o ih y) - Qmax (el_top e) y) / (el_bottom e - el_top e).

Definition threshold_index (o : observer_options) (ih y : Q) (e : element) : Z :=
  if Qle_bool (threshold o) (ratio o ih y e) then 1 else 0.

(** One target at a rendering step: its new record, and the entry
    queued for it if any. *)
Definition check (o : observer_options) (ih y : Q) (i : nat) (e : element) (ob : observation)
    : observation * option entry :=
  let ti := threshold_index o ih y e in
  let b := intersects o ih y e in
  if Z.eqb ti (prev_index ob) && Bool.eqb b (prev_inter ob) then (ob, None)
  else (Observation ti b, Some (Entry i b)).

Fixpoint check_all (o : observer_options) (ih y : Q) (i : nat) (doc : list element)
    (obs : list observation) : list observation * list entry :=
  match doc, obs with
  | e :: doc', ob :: obs' =>
      let '(ob1, en) := check o ih y i e ob in
      let '(obs1, ens) := check_all o ih y (S i) doc' obs' in
      (ob1 :: obs1, option_list en ++ ens)
  | _, _ => ([], [])
  end.

(** ** The code *)

Definition add_in_view (e : element) : element := Element (el_top e) (el_bottom e) true.

(** The callback: [entries.forEach(entry => { if (entry.isIntersecting)
    entry.target.classList.add('in-view'); })]. *)
Definition observer_cb (entries : list entry) (doc : list element) : list element :=
  fold_left (fun doc en => if isIntersecting en then alter add_in_view (target en) doc else doc)
            entries doc.

(** [document.querySelectorAll(...).forEach(el => observer.observe(el))] *)
Definition observe_all (doc : list element) : list observation :=
  replicate (length doc) observation_init.

(** A rendering step at scroll position [y]: the entries, then the callback. *)
Definition render_step (ih : Q) (w : list element * list observation) (y : Q)
    : list element * list observation :=
  let '(obs', ens) := check_all observerOptions ih y 0 w.1 w.2 in
  (observer_cb ens w.1, obs').

Definition run_observer (ih : Q) (ys : list Q) (doc : list element) : list element :=
  (fold_left (render_step ih) ys (doc, observe_all doc)).1.

(** ** Lemmas *)

Lemma in_view_add e : in_view (add_in_view e) = true.
Proof. done. Qed.

Lemma observer_cb_length ens doc : length (observer_cb ens doc) = length doc.
Proof.
  revert doc; induction ens as [|en ens IH]; intros doc; [done|]. cbn.
  rewrite IH. destruct (isIntersecting en); [apply length_alter|done].
Qed.

(** The callback adds the class to the targets of intersecting entries
    and leaves the geometry alone. *)
Lemma observer_cb_lookup ens doc i :
  (observer_cb ens doc) !! i =
    (fun e => if existsb (fun en => Nat.eqb (target en) i && isIntersecting en) ens
              then add_in_view e else e) <$> doc !! i.
Proof.
  revert doc; induction ens as [|en ens IH]; intros doc.
  - cbn. by destruct (doc !! i).
  - cbn [observer_cb fold_left existsb].
    fold (observer_cb ens (if isIntersecting en then alter add_in_view (target en) doc else doc)).
    rewrite IH. destruct (isIntersecting en) eqn:Hb; rewrite ?andb_true_r, ?andb_false_r; cbn [orb]; [|done].
    destruct (Nat.eqb_spec (target en) i) as [<-|Hne]; cbn [orb].
    + rewrite list_lookup_alter, decide_True by done. destruct (doc !! target en) as [e|]; [|done].
      cbn [fmap option_fmap option_map]. by destruct (existsb _ _).
    + by rewrite list_lookup_alter_ne.
Qed.

(** One element with its record, through a rendering step. *)
Definition one_step (ih : Q) (w : element * observation) (y : Q) : element * observation :=
  let '(ob', en) := check observerOptions ih y 0 w.1 w.2 in
  (match en with Some en => if isIntersecting en then add_in_view w.1 else w.1 | None => w.1 end, ob').

Lemma check_target o ih y i e ob en : (check o ih y i e ob).2 = Some en -> target en = i.
Proof. unfold check. destruct (_ && _); [done|]. by intros [= <-]. Qed.

Lemma check_index o ih y i j e ob :
  (check o ih y i e ob).1 = (check o ih y j e ob).1 /\
  option_map isIntersecting (check o ih y i e ob).2 = option_map isIntersecting (check o ih y j e ob).2.
Proof. unfold check. by destruct (_ && _). Qed.

Lemma check_all_length o ih y k doc obs : length (check_all o ih y k doc obs).1 = Nat.min (length doc) (length obs).
Proof.
  revert k obs; induction doc as [|e doc IH]; intros k [|ob obs]; cbn; try done.
  destruct (check _ _ _ _ _ _). destruct (check_all _ _ _ _ _ _) eqn:E. cbn. f_equal.
  specialize (IH (S k) obs). by rewrite E in IH.
Qed.

Lemma check_all_targets o ih y k doc obs en : In en (check_all o ih y k doc obs).2 -> (k <= target en)%nat.
Proof.
  revert k obs; induction doc as [|e doc IH]; intros k [|ob obs]; cbn; try done.
  destruct (check _ _ _ _ _ _) as [ob1 [en1|]] eqn:Ec; destruct (check_all _ _ _ _ _ _) as [obs1 ens] eqn:E;
    cbn; intros H.
  - destruct H as [<-|H].
    + by rewrite (check_target o ih y k e ob en1 ltac:(by rewrite Ec)).
    + specialize (IH (S k) obs). rewrite E in IH. apply IH in H. lia.
  - specialize (IH (S k) obs). rewrite E in IH. apply IH in H. lia.
Qed.

Lemma existsb_none_ge (ens : list entry) k :
  (forall en, In en ens -> (S k <= target en)%nat) ->
  existsb (fun en => Nat.eqb (target en) k && isIntersecting en) ens = false.
Proof.
  intros H. apply not_true_iff_false. intros (en & Hin & Hen)%existsb_exists.
  apply andb_prop in Hen as [Hk _]. apply Nat.eqb_eq in Hk. apply H in Hin. lia.
Qed.

(** The entries and records of a step, element by element. *)
Lemma check_all_lookup o ih y k doc obs j e ob :
  doc !! j = Some e -> obs !! j = Some ob ->
  (check_all o ih y k doc obs).1 !! j = Some (check o ih y 0 e ob).1 /\
  existsb (fun en => Nat.eqb (target en) (k + j) && isIntersecting en) (check_all o ih y k doc obs).2 =
    match (check o ih y 0 e ob).2 with Some en => isIntersecting en | None => false end.
Proof.
  revert k obs j; induction doc as [|e0 doc IH]; intros k [|ob0 obs] j Hd Ho; try done.
  cbn [check_all]. pose proof (check_index o ih y k 0 e0 ob0) as [I1 I2].
  destruct (check o ih y k e0 ob0) as [ob1 en1] eqn:Ec.
  destruct (check_all o ih y (S k) doc obs) as [obs1 ens] eqn:E. cbn [fst snd].
  pose proof (check_all_targets o ih y (S k) doc obs) as Ht. rewrite E in Ht. cbn [snd] in Ht.
  destruct j as [|j]; cbn in Hd, Ho.
  - injection Hd as <-. injection Ho as <-. cbn [lookup list_lookup]. rewrite <- I1. split; [done|].
    rewrite existsb_app, Nat.add_0_r, (existsb_none_ge ens) by exact Ht. rewrite orb_false_r.
    destruct en1 as [en1|], (check o ih y 0 e0 ob0) as [? [en2|]]; cbn in I2 |- *; try done.
    + injection I2 as <-. rewrite (check_target o ih y k e0 ob0 en1 ltac:(by rewrite Ec)).
      by rewrite Nat.eqb_refl, orb_false_r.
  - destruct (IH (S k) obs j Hd Ho) as [IH1 IH2]. rewrite E in IH1, IH2. cbn [fst snd] in IH1, IH2.
    split; [done|]. rewrite existsb_app, <- IH2. replace (S k + j)%nat with (k + S j)%nat by lia.
    destruct en1 as [en1|]; cbn; [|done].
    rewrite (check_target o ih y k e0 ob0 en1 ltac:(by rewrite Ec)).
    replace (Nat.eqb k (k + S j)) with false by (symmetry; apply Nat.eqb_neq; lia). done.
Qed.

Lemma render_step_length ih doc obs y :
  length obs = length doc ->
  length (render_step ih (doc, obs) y).1 = length doc /\ length (render_step ih (doc, obs) y).2 = length doc.
Proof.
  intros Hl. unfold render_step. pose proof (check_all_length observerOptions ih y 0 doc obs) as L.
  destruct (check_all _ _ _ _ _ _). cbn in *. rewrite observer_cb_length. split; [done|lia].
Qed.

Lemma render_step_lookup ih doc obs y j e ob :
  doc !! j = Some e -> obs !! j = Some ob ->
  (render_step ih (doc, obs) y).1 !! j = Some (one_step ih (e, ob) y).1 /\
  (render_step ih (doc, obs) y).2 !! j = Some (one_step ih (e, ob) y).2.
Proof.
  intros Hd Ho. destruct (check_all_lookup observerOptions ih y 0 doc obs j e ob Hd Ho) as [L1 L2].
  rewrite Nat.add_0_l in L2.
  unfold render_step, one_step. cbn [fst snd] in *.
  destruct (check_all _ _ _ _ _ _) as [obs' ens]. cbn [fst snd] in *.
  rewrite observer_cb_lookup, Hd, L2. cbn [fmap option_fmap option_map].
  destruct (check _ _ _ _ _ _) as [ob' [en|]]; cbn; split; try done.
Qed.

Lemma run_lookup ih ys doc obs j e ob :
  length obs = length doc -> doc !! j = Some e -> obs !! j = Some ob ->
  (fold_left (render_step ih) ys (doc, obs)).1 !! j = Some (fold_left (one_step ih) ys (e, ob)).1.
Proof.
  revert doc obs e ob; induction ys as [|y ys IH]; intros doc obs e ob Hl Hd Ho; [done|].
  cbn [fold_left]. destruct (render_step_lookup ih doc obs y j e ob Hd Ho) as [L1 L2].
  destruct (render_step_length ih doc obs y Hl) as [N1 N2].
  destruct (render_step ih (doc, obs) y) as [doc' obs'] eqn:E. cbn [fst snd] in *.
  destruct (one_step ih (e, ob) y) as [e' ob']. apply IH; [lia|done|done].
Qed.

Lemma run_length ih ys doc obs :
  length obs = length doc -> length (fold_left (render_step ih) ys (doc, obs)).1 = length doc.
Proof.
  revert doc obs; induction ys as [|y ys IH]; intros doc obs Hl; [done|]. cbn [fold_left].
  destruct (render_step_length ih doc obs y Hl) as [N1 N2].
  destruct (render_step ih (doc, obs) y) as [doc' obs'] eqn:E. cbn in *. rewrite IH; lia.
Qed.

Definition one_inv (w : element * observation) : Prop := prev_inter w.2 = true -> in_view w.1 = true.

Lemma intersects_geom o ih y e1 e2 :
  el_top e1 = el_top e2 -> el_bottom e1 = el_bottom e2 -> intersects o ih y e1 = intersects o ih y e2.
Proof. unfold intersects. by intros -> ->. Qed.

Lemma one_step_spec ih w y :
  one_inv w ->
  el_top (one_step ih w y).1 = el_top w.1 /\ el_bottom (one_step ih w y).1 = el_bottom w.1 /\
  in_view (one_step ih w y).1 = in_view w.1 || intersects observerOptions ih y w.1 /\
  one_inv (one_step ih w y).
Proof.
  destruct w as [e ob]. unfold one_inv, one_step, check. cbn [fst snd].
  destruct (Z.eqb _ _ && Bool.eqb _ _) eqn:E; cbn [fst snd isIntersecting].
  - apply andb_prop in E as [_ E]. apply Bool.eqb_prop in E. rewrite E. intros H.
    destruct (prev_inter ob); [rewrite H|rewrite orb_false_r]; done.
  - intros _. destruct (intersects _ _ _ e); cbn; rewrite ?orb_true_r, ?orb_false_r; done.
Qed.

Lemma fold_one_step ih ys w :
  one_inv w ->
  in_view (fold_left (one_step ih) ys w).1 = in_view w.1 || existsb (fun y => intersects observerOptions ih y w.1) ys.
Proof.
  revert w; induction ys as [|y ys IH]; intros w Hw; cbn [fold_left existsb]; [by rewrite orb_false_r|].
  destruct (one_step_spec ih w y Hw) as (T & B & V & I). rewrite IH by done. rewrite V, orb_assoc.
  f_equal. apply existsb_ext. intros y'. by apply intersects_geom.
Qed.

(** ** Theorems *)

(** C12: after the page has been rendered at the scroll positions [ys]
    since [optimizePerformance] observed the elements, an element has
    the class [in-view] exactly when it had it before or touched the
    root (the viewport less its bottom 50 px) at one of them: the class
    is never removed, and the 0.1 threshold plays no part in which
    elements get it. *)
Theorem in_view_exactly_touched (ih : Q) (ys : list Q) (doc : list element) :
  map in_view (run_observer ih ys doc) =
  map (fun e => in_view e || existsb (fun y => intersects observerOptions ih y e) ys) doc.
Proof.
  apply list_eq. intros j. rewrite !list_lookup_fmap. unfold run_observer.
  destruct (doc !! j) as [e|] eqn:Hd.
  - assert (Ho : observe_all doc !! j = Some observation_init).
    { apply lookup_replicate_2. apply lookup_lt_Some in Hd. lia. }
    assert (Hl : length (observe_all doc) = length doc) by apply length_replicate.
    rewrite (run_lookup ih ys doc _ j e _ Hl Hd Ho). cbn [fmap option_fmap option_map].
    f_equal. by apply (fold_one_step ih ys (e, observation_init)).
  - apply lookup_ge_None in Hd. rewrite (proj2 (lookup_ge_None _ _)); [done|].
    rewrite run_length; [lia|apply length_replicate].
Qed.

(** An element 100 px high with one pixel inside the root (a ratio of
    0.01, under the threshold) gets the class at the first rendering. *)
Lemma sliver_in_view :
  ratio observerOptions 800 0 (Element 749 849 false) < threshold observerOptions /\
  map in_view (run_observer 800 [0] [Element 749 849 false]) = [true].
Proof. split; vm_compute; reflexivity. Qed.

End LazyAnimations.
