(* ===== verification/SmoothScroll.v ===== *)
(** * Smooth scrolling: the Lenis instance of [initSmoothScrolling]
    (src/script.js, lines 289-300)

    [initSmoothScrolling] creates the global [lenis] with its options,
    among them the easing [t => Math.min(1, 1.001 - Math.pow(2, -10 * t))];
    its [requestAnimationFrame(raf)] loop is modelled in [FrameLoop.v].
    Every [lenis.scrollTo(target, { duration })] of the page (the
    navigation links, 1.5 s; the call-to-action buttons, 2 s) animates
    the scroll position with that easing: Lenis moves from [from] toward
    [to] by [easing(t / duration)] of the distance and lands on [to] once
    [t >= duration].  [Math.pow(2, x)] is an interface ([Pow2]) with the
    laws the proofs use ([Pow2Ok]): it is monotone, positive, [1] at [0]
    and [1/1024] at [-10].  The theorem bounds the scroll position of
    every such animation. *)

From Stdlib Require Import QArith Qminmax Lqa String.
From stdpp Require Import base tactics.
From S2P Require Import Prelude.

Local Open Scope string_scope.
Local Open Scope Q_scope.

Module SmoothScrolling.

Class Pow2 := js_pow2 : Q -> Q.

Class Pow2Ok `{Pow2} := {
  pow2_mono : forall x y, x <= y -> js_pow2 x <= js_pow2 y;
  pow2_pos : forall x, 0 < js_pow2 x;
  pow2_0 : js_pow2 0 == 1;
  pow2_m10 : js_pow2 (-10) == 1 # 1024
}.

Record lenis_options : Type := LenisOptions {
  duration : Q;
  easing : Q -> Q;
  direction : string;
  gestureDirection : string;
  smooth : bool;
  mouseMultiplier : Q;
  smoothTouch : bool;
  touchMultiplier : Q;
  infinite : bool
}.

Section Lenis.
Context `{Pow2}.

(** [(t) => Math.min(1, 1.001 - Math.pow(2, -10 * t))] *)
Definition lenis_easing (t : Q) : Q := Qmin 1 ((1001 # 1000) - js_pow2 (-10 * t)).

(** [new Lenis({ ... })] *)
Definition lenisOptions : lenis_options :=
  LenisOptions (6 # 5) lenis_easing "vertical" "vertical" true 1 false 2 false.

(** Lenis's scroll animation: the position [t] seconds into a
    [scrollTo] from [from] to [to] lasting [dur]. *)
Definition scroll_position (o : lenis_options) (from to dur t : Q) : Q :=
  if Qle_bool dur t then to else from + (to - from) * easing o (t / dur).

End Lenis.

(** ** Lemmas *)

Section Laws.
Context `{Pow2Ok}.

Lemma lenis_easing_mono t1 t2 : t1 <= t2 -> lenis_easing t1 <= lenis_easing t2.
Proof.
  intros Ht. unfold lenis_easing. pose proof (pow2_mono (-10 * t2) (-10 * t1) ltac:(lra)).
  apply Q.min_le_compat_l. lra.
Qed.

Lemma lenis_easing_0 : lenis_easing 0 == 1 # 1000.
Proof.
  unfold lenis_easing. replace (-10 * 0) with 0 by reflexivity. rewrite pow2_0.
  rewrite Q.min_r; [reflexivity|qnum].
Qed.

Lemma lenis_easing_le_1 t : lenis_easing t <= 1.
Proof. apply Q.le_min_l. Qed.

(** From [t = 1] on the easing is 1 ([1.001 - 2^-10 > 1]). *)
Lemma lenis_easing_1 t : 1 <= t -> lenis_easing t == 1.
Proof.
  intros Ht. unfold lenis_easing. apply Q.min_l.
  pose proof (pow2_mono (-10 * t) (-10) ltac:(lra)). pose proof pow2_m10. lra.
Qed.

(** C14: every [lenis.scrollTo] of the page, from [from] to a target
    [to >= from] over [dur] seconds, moves the scroll position forward
    only: it starts with a jump of a thousandth of the distance (the
    easing is [0.001] at [0]), never passes the target, and is on the
    target from [dur] on. *)
Theorem lenis_scroll_bounded (from to dur t1 t2 : Q) :
  0 < dur -> from <= to -> 0 <= t1 -> t1 <= t2 ->
  let pos := scroll_position lenisOptions from to dur in
  from + (to - from) * (1 # 1000) <= pos t1 /\ pos t1 <= pos t2 /\ pos t2 <= to /\
  (dur <= t2 -> pos t2 == to).
Proof.
  intros Hd Hft H1 H12 pos. subst pos. unfold scroll_position. cbn [easing lenisOptions].
  assert (Hq : t1 / dur <= t2 / dur) by (apply Qmult_le_r; [apply Qinv_lt_0_compat; lra|lra]).
  assert (Hq0 : 0 <= t1 / dur) by (apply Qle_shift_div_l; lra).
  pose proof (lenis_easing_mono _ _ Hq0) as E0. rewrite lenis_easing_0 in E0.
  pose proof (lenis_easing_mono _ _ Hq) as E12. pose proof (lenis_easing_le_1 (t2 / dur)) as E2.
  assert (W : 0 <= to - from) by lra.
  pose proof (Qmult_le_mono_nonneg_l _ _ _ W E0). pose proof (Qmult_le_mono_nonneg_l _ _ _ W E12).
  pose proof (Qmult_le_mono_nonneg_l _ _ _ W E2).
  pose proof (Qmult_le_mono_nonneg_l _ _ _ W (lenis_easing_le_1 (t1 / dur))).
  qle_case dur t1; qle_case dur t2; split_and!; intros; lra.
Qed.

End Laws.

(** A crude [Math.pow(2, _)] with the laws, for concrete runs. *)
Definition step_pow2 : Pow2 := fun x => if Qle_bool 0 x then 1 else if Qle_bool x (-10) then 1 # 1024 else 1 # 2.

Lemma step_pow2_ok : @Pow2Ok step_pow2.
Proof.
  split; unfold js_pow2, step_pow2.
  - intros x y Hxy. qle_case 0 x; qle_case 0 y; qle_case x (-10); qle_case y (-10); lra.
  - intros x. qle_case 0 x; [|qle_case x (-10)]; lra.
  - reflexivity.
  - reflexivity.
Qed.

Lemma lenis_scroll_bounded_witness :
  (0 < 3 # 2 /\ 0 <= 100 /\ 0 <= 0 /\ 0 <= 3 # 2) /\
  scroll_position (@lenisOptions step_pow2) 0 100 (3 # 2) (3 # 2) == 100.
Proof.
  assert (H1 : 0 < 3 # 2) by reflexivity. assert (H2 : 0 <= 100) by discriminate.
  assert (H3 : 0 <= 0) by discriminate. assert (H4 : 0 <= 3 # 2) by discriminate.
  split; [split_and!; assumption|].
  exact (proj2 (proj2 (proj2 (@lenis_scroll_bounded step_pow2 step_pow2_ok 0 100 (3 # 2) 0 (3 # 2) H1 H2 H3 H4)))
           (Qle_refl _)).
Defined.

End SmoothScrolling.
