(* ===== verification/App.v ===== *)
(** * The page: the script's top level, [DOMContentLoaded] and
    [initializeApp] (src/script.js, lines 6-46, 552-566, 858-893, 896)

    The components meet here.  When the script runs it declares the
    globals ([scene], [stars], [planets = []], [isLoading = true],
    [lenis]) and sets a 1 s timer for [optimizePerformance]; when the
    document is parsed, [DOMContentLoaded] calls [initializeApp], which
    starts the loading screen's interval, builds the scene, creates
    Lenis and asks a frame for its [raf], configures gsap, paints the
    charts ([initCharts]), runs [animate] once (which asks a frame for
    itself) and sets the 3 s timer of [hideLoadingScreen].  The page's
    state is the product of the components' states: the scene's
    [world] ([Scene.v]), the loading screen and its timers
    ([Loading.v]), the frame loop ([FrameLoop.v]), Lenis
    ([SmoothScroll.v]), the gsap setup ([GSAP.v]), the painted charts
    ([Chart.v], [TradingChart.v]) and the observer ([Lazy.v]).  The
    global [isLoading] has a copy in the loading screen's state and one
    in the world; only the loading screen's last callback changes it, and
    time passing writes the first into the second.  The [optimizePerformance] timer
    is kept apart from the loading screen's timers: its callback and
    theirs touch disjoint state, so the order in which they fire within a
    wait does not change the page ([optimize_set_loading]).  The
    listeners that [initializeApp] registers (hover, navigation, form)
    change no state at registration; their handlers are the models of
    their files.  [Math.random] draws are numbered from the first draw
    of the page, so that the scene, the charts and the loading bar take
    successive draws. *)

From Stdlib Require Import QArith NArith String List Lia.
From stdpp Require Import base list gmap.
From S2P Require Import Prelude Canvas Chart TradingChart Timers Scene FrameLoop Loading Tween GSAP Lazy SmoothScroll.

Local Open Scope Q_scope.

Module Bootstrap.
Import Timers.

(** What the page's selectors find. *)
Record markup : Type := Markup {
  win0 : SceneAnimator.window;               (** the viewport and device *)
  counts : Tween.dom;                         (** how many elements each gsap selector matches *)
  stat_values : list (string * string);       (** [.stat-value[data-target]] with the attribute *)
  chart_canvases : list (Q * Q);              (** [.chart-canvas], width and height *)
  main_chart : option (Q * Q);                (** [#main-chart] *)
  lazy_targets : list LazyAnimations.element  (** [.market-card, .planet-item, .info-item] *)
}.

Record page : Type := Page {
  clock : N;                                        (** ms since the script ran *)
  optimize_due : option N;                          (** the pending [optimizePerformance] timer *)
  lsched : sched LoadingScreen.cb;                  (** the loading screen's timers *)
  ld : LoadingScreen.loading;
  page_world : SceneAnimator.world;
  lp : FrameLoop.loop;
  lenis : option SmoothScrolling.lenis_options;
  gsap : option GSAPAnimations.gsap_setup;
  charts : option (list (list cmd) * option (list cmd));
  observer : option (list LazyAnimations.element * list LazyAnimations.observation);
  started : bool                                    (** [initializeApp] has run *)
}.

Inductive page_event : Type :=
| DOMContentLoaded
| Wait (fuel : nat) (ms : N)       (** time passes; [fuel] bounds the loading screen's callbacks *)
| AnimationFrame                   (** the browser renders a frame *)
| Visibility (h : bool)            (** [visibilitychange], [document.hidden = h] *)
| Pointer (x y : Q)                (** [mousemove] *)
| WindowResize (iw ih : Q).        (** the viewport is resized, then [resize] *)

Section Page.
Context `{Random} `{Trig} `{SmoothScrolling.Pow2} (m : markup).

(** The script's top level: the globals (lines 6-8) and
    [setTimeout(optimizePerformance, 1000)] (line 896). *)
Definition page_at_load : page :=
  Page 0 (Some 1000%N) (sched_at 0) LoadingScreen.loading_at_load
       (SceneAnimator.world_at_load (win0 m)) (FrameLoop.Loop [] 0 false false None false)
       None None None None false.

(** [initCharts] (lines 552-566). *)
Definition initCharts (canvases : list (Q * Q)) (main : option (Q * Q)) : Rnd (list (list cmd) * option (list cmd)) :=
  do cs <- rnd_map (fun c => ChartRenderer.renderChart c.1 c.2) canvases;
  match main with
  | Some c => do t <- TradingChartRenderer.renderTradingChart c.1 c.2; rnd_ret (cs, Some t)
  | None => rnd_ret (cs, None)
  end.

(** [optimizePerformance] (lines 858-893): the scene part, then the
    observer on the lazy targets. *)
Definition optimizePerformance (p : page) : page :=
  Page (clock p) (optimize_due p) (lsched p) (ld p) (SceneAnimator.optimizePerformance (page_world p)) (lp p)
       (lenis p) (gsap p) (charts p)
       (Some (lazy_targets m, LazyAnimations.observe_all (lazy_targets m))) (started p).

Definition with_rng (k : nat) (l : LoadingScreen.loading) : LoadingScreen.loading :=
  LoadingScreen.Loading (LoadingScreen.progress l) (LoadingScreen.bar_width l) (LoadingScreen.screen_hidden l)
                        (LoadingScreen.screen_display_none l) (LoadingScreen.isLoading l) k.

(** [initializeApp] (lines 16-46), at [Date.now()] = the clock. *)
Definition initializeApp (p : page) : page :=
  let t := clock p in
  let '(ls1, ld1) := LoadingScreen.initLoadingScreen (Sched t (next_id (lsched p)) (queue (lsched p))) (ld p) in
  let '(w1, k1) := SceneAnimator.init3DScene (page_world p) 0%nat in
  let lp1 := FrameLoop.request_frame FrameLoop.LenisRaf (lp p) in
  let g := GSAPAnimations.initGSAPAnimations (counts m) (stat_values m) in
  let '(ch, k2) := initCharts (chart_canvases m) (main_chart m) k1 in
  let lp2 := FrameLoop.request_frame FrameLoop.Animate lp1 in
  let w2 := SceneAnimator.animate_frame (inject_Z (Z.of_N t)) w1 in
  let ls2 := set_timeout LoadingScreen.HideLoading 3000 ls1 in
  Page t (optimize_due p) ls2 (with_rng k2 ld1) w2 lp2 (Some SmoothScrolling.lenisOptions) (Some g)
       (Some ch) (observer p) true.

(** Time passes: the [optimizePerformance] timer if due, the loading
    screen's timers, and the global [isLoading] they may clear. *)
Definition wait_page (fuel : nat) (ms : N) (p : page) : page :=
  let limit := (clock p + ms)%N in
  let p1 := match optimize_due p with
            | Some d => if (d <=? limit)%N
                        then let q := optimizePerformance p in
                             Page (clock q) None (lsched q) (ld q) (page_world q) (lp q) (lenis q) (gsap q)
                                  (charts q) (observer q) (started q)
                        else p
            | None => p
            end in
  let '(ls, l) := advance LoadingScreen.run_cb fuel limit (lsched p1) (ld p1) in
  Page limit (optimize_due p1) ls l (SceneAnimator.set_loading (LoadingScreen.isLoading l) (page_world p1)) (lp p1)
       (lenis p1) (gsap p1) (charts p1) (observer p1) (started p1).

Definition page_step (p : page) (e : page_event) : page :=
  match e with
  | DOMContentLoaded => if started p then p else initializeApp p
  | Wait fuel ms => wait_page fuel ms p
  | AnimationFrame =>
      let '(lp1, w1, _) := FrameLoop.frame SceneAnimator.animate_frame (fun _ w => w)
                                          (inject_Z (Z.of_N (clock p))) (lp p) (page_world p) in
      Page (clock p) (optimize_due p) (lsched p) (ld p) w1 lp1 (lenis p) (gsap p) (charts p) (observer p) (started p)
  | Visibility h =>
      (* before [init3DScene], [renderer] is [undefined] and the listener throws *)
      if started p then
        Page (clock p) (optimize_due p) (lsched p) (ld p) (page_world p) (FrameLoop.on_visibilitychange h (lp p))
             (lenis p) (gsap p) (charts p) (observer p) (started p)
      else p
  | Pointer x y =>
      Page (clock p) (optimize_due p) (lsched p) (ld p) (SceneAnimator.on_mousemove x y (page_world p)) (lp p)
           (lenis p) (gsap p) (charts p) (observer p) (started p)
  | WindowResize iw ih =>
      (* [onWindowResize] listens from [init3DScene] on (line 108) *)
      let w1 := SceneAnimator.resize_window iw ih (page_world p) in
      Page (clock p) (optimize_due p) (lsched p) (ld p)
           (if started p then SceneAnimator.onWindowResize w1 else w1) (lp p)
           (lenis p) (gsap p) (charts p) (observer p) (started p)
  end.

Definition run_page (evs : list page_event) (p : page) : page := fold_left page_step evs p.

End Page.

(** ** Observations *)

(** How many star coordinates the scene holds. *)
Definition star_coords (w : SceneAnimator.world) : nat :=
  match SceneAnimator.stars w with
  | Some id => match SceneAnimator.heap w !! id with
               | Some o => match SceneAnimator.o_geometry o with
                           | SceneAnimator.PointsGeometry ps _ => length ps
                           | _ => 0%nat
                           end
               | None => 0%nat
               end
  | None => 0%nat
  end.

(** ** Lemmas *)

Section Lemmas.
Context `{Random} `{Trig} `{SmoothScrolling.Pow2}.
Import SceneAnimator.

(** Before [init3DScene] there is nothing to downscale. *)
Lemma optimize_at_load x : SceneAnimator.optimizePerformance (world_at_load x) = world_at_load x.
Proof. unfold SceneAnimator.optimizePerformance. by destruct (negb _). Qed.

(** [optimizePerformance] and the end of loading commute. *)
Lemma optimize_set_loading b w :
  SceneAnimator.optimizePerformance (set_loading b w) = set_loading b (SceneAnimator.optimizePerformance w).
Proof.
  unfold SceneAnimator.optimizePerformance, reduce_stars. cbn [win set_loading stars heap].
  destruct (negb _); [|done]. destruct (stars w); [|done]. destruct (heap w !! _) as [o|]; [|done].
  by destruct (o_geometry o).
Qed.

(** While loading, a frame only renders. *)
Lemma animate_frame_loading t w :
  isLoading w = true -> heap (animate_frame t w) = heap w /\ planets (animate_frame t w) = planets w /\
                        stars (animate_frame t w) = stars w /\ win (animate_frame t w) = win w.
Proof. intros Hl. unfold animate_frame. rewrite Hl. done. Qed.

Lemma advance_empty {St} (run : LoadingScreen.cb -> sched LoadingScreen.cb -> St -> sched LoadingScreen.cb * St)
    fuel limit n i st :
  advance run fuel limit (Sched n i []) st = (Sched (N.max n limit) i [], st).
Proof. by apply advance_idle. Qed.

Lemma star_coords_reduce w id o ps k :
  stars w = Some id -> heap w !! id = Some o -> o_geometry o = PointsGeometry ps k ->
  star_coords (reduce_stars w) = (length ps / 2)%nat.
Proof.
  intros Hs Hh Hg. unfold reduce_stars. rewrite Hs, Hh, Hg. unfold star_coords. cbn [stars heap set_heap].
  rewrite Hs, lookup_insert_eq. cbn [o_geometry]. unfold reduce_positions. by rewrite length_map, length_seq.
Qed.

Lemma wait_page_world m fuel ms p :
  exists b, page_world (wait_page m fuel ms p) =
    set_loading b (match optimize_due p with
                   | Some d => if (d <=? clock p + ms)%N then SceneAnimator.optimizePerformance (page_world p) else page_world p
                   | None => page_world p
                   end).
Proof.
  unfold wait_page. cbv zeta. destruct (optimize_due p) as [d|]; [destruct (d <=? _)%N|];
    destruct (advance _ _ _ _ _); eexists; reflexivity.
Qed.

Lemma wait_page_due m fuel ms p :
  optimize_due (wait_page m fuel ms p) =
    match optimize_due p with Some d => if (d <=? clock p + ms)%N then None else Some d | None => None end.
Proof.
  unfold wait_page. cbv zeta. destruct (optimize_due p) as [d|] eqn:E; [destruct (d <=? _)%N|];
    destruct (advance _ _ _ _ _); cbn; rewrite ?E; done.
Qed.

Lemma wait_page_clock m fuel ms p : clock (wait_page m fuel ms p) = (clock p + ms)%N.
Proof. unfold wait_page. destruct (optimize_due p) as [d|]; [destruct (d <=? _)%N|]; by destruct (advance _ _ _ _ _). Qed.

Lemma wait_page_started m fuel ms p : started (wait_page m fuel ms p) = started p.
Proof. unfold wait_page. destruct (optimize_due p) as [d|]; [destruct (d <=? _)%N|]; by destruct (advance _ _ _ _ _). Qed.

Lemma initializeApp_fields m p :
  page_world (initializeApp m p) = animate_frame (inject_Z (Z.of_N (clock p))) (fst (init3DScene (page_world p) 0%nat)) /\
  optimize_due (initializeApp m p) = optimize_due p /\ clock (initializeApp m p) = clock p.
Proof.
  unfold initializeApp. destruct (LoadingScreen.initLoadingScreen _ _).
  destruct (init3DScene (page_world p) 0%nat). destruct (initCharts _ _ _). done.
Qed.

Lemma wait_at_load_world m fuel d :
  page_world (wait_page m fuel d (page_at_load m)) = world_at_load (win0 m).
Proof.
  unfold wait_page, page_at_load, Bootstrap.optimizePerformance, sched_at. cbv zeta.
  cbn [optimize_due clock lsched ld page_world].
  destruct (1000 <=? 0 + d)%N; cbn [lsched ld page_world]; rewrite advance_empty; cbn [page_world];
    rewrite ?optimize_at_load; reflexivity.
Qed.

Lemma wait_at_load_started m fuel d : started (wait_page m fuel d (page_at_load m)) = false.
Proof. by rewrite wait_page_started. Qed.

(** What the scene looks like right after [init3DScene]. *)
Lemma init_world_shape x ps r :
  stars (init_world x ps r) = Some 0%nat /\
  heap (init_world x ps r) !! 0%nat =
    Some (Obj (PointsGeometry ps 3) (PointsMaterial 0xffffff%Z (r * 2 + (1 # 2)) (8 # 10)) vzero vzero None []) /\
  planets (init_world x ps r) = [1; 3; 5; 7]%nat /\ isLoading (init_world x ps r) = true /\
  win (init_world x ps r) = x.
Proof. split_and!; reflexivity. Qed.

Lemma star_coords_loading b w : star_coords (set_loading b w) = star_coords w.
Proof. reflexivity. Qed.

Lemma star_coords_planets ps w : star_coords (set_planets ps w) = star_coords w.
Proof. reflexivity. Qed.

Lemma optimize_mobile w :
  innerWidth (win w) < 768 ->
  SceneAnimator.optimizePerformance w = set_planets (take 2 (planets w)) (reduce_stars w).
Proof.
  intros Hw. unfold SceneAnimator.optimizePerformance.
  replace (Qle_bool 768 (innerWidth (win w))) with false; [done|].
  symmetry. apply not_true_iff_false. rewrite Qle_bool_iff. intros Hle. apply (Qlt_irrefl 768). eapply Qle_lt_trans; eauto.
Qed.

End Lemmas.

(** ** Theorems *)

Section Theorems.
Context `{Random} `{Trig} `{SmoothScrolling.Pow2}.
Import SceneAnimator.

(** C10: on a viewport under 768 px, the mobile downscale of
    [optimizePerformance] takes effect only when [DOMContentLoaded] comes
    within 1 s of the script: its timer is set by the script's top level
    (line 896), so when the document takes longer to parse it fires on
    the empty globals ([stars] undefined, [planets = []]) and
    [initializeApp] then builds the full scene, four planets and 30000
    star coordinates, which no later code reduces. *)
Theorem optimize_race (m : markup) (d ms : N) (f1 f2 : nat) :
  innerWidth (win0 m) < 768 -> (1000 <= d + ms)%N ->
  let p := run_page m [Wait f1 d; DOMContentLoaded; Wait f2 ms] (page_at_load m) in
  length (planets (page_world p)) = (if (d <? 1000)%N then 2 else 4)%nat /\
  star_coords (page_world p) = (if (d <? 1000)%N then starCount * 3 / 2 else starCount * 3)%nat.
Proof.
  intros Hw Hd p. subst p. unfold run_page. cbn [fold_left page_step].
  rewrite wait_at_load_started. set (p1 := wait_page m f1 d (page_at_load m)).
  pose proof (wait_page_due m f1 d (page_at_load m)) as Hdue. fold p1 in Hdue.
  pose proof (wait_page_clock m f1 d (page_at_load m)) as Hclk. fold p1 in Hclk.
  pose proof (wait_at_load_world m f1 d) as Hw1. fold p1 in Hw1. cbn [optimize_due clock page_at_load] in Hdue, Hclk.
  destruct (initializeApp_fields m p1) as (W2 & D2 & C2).
  destruct (wait_page_world m f2 ms (initializeApp m p1)) as [b ->]. rewrite D2, C2, Hdue, Hclk, W2, Hw1, Hclk.
  rewrite init3DScene_eq. pose proof (rnd_repeat_length (starCount * 3) (fun r => (r - (1 # 2)) * 2000) 0%nat) as Hlen.
  destruct (rnd_repeat _ _ 0%nat) as [ps k1]. cbn [fst] in Hlen |- *.
  destruct (init_world_shape (win0 m) ps (math_random k1)) as (S0 & Hh0 & P0 & L0 & X0).
  destruct (animate_frame_loading (inject_Z (Z.of_N (0 + d))) (init_world (win0 m) ps (math_random k1)) L0)
    as (HA & PA & SA & XA).
  destruct (N.ltb_spec d 1000) as [Hlt|Hge].
  - rewrite (proj2 (N.leb_gt 1000 (0 + d))) by lia. rewrite (proj2 (N.leb_le 1000 (0 + d + ms))) by lia.
    rewrite optimize_mobile by (rewrite XA, X0; exact Hw). split.
    + cbn [planets set_loading set_planets]. rewrite PA, P0. reflexivity.
    + rewrite star_coords_loading, star_coords_planets.
      erewrite star_coords_reduce; [|rewrite SA; exact S0|rewrite HA; exact Hh0|reflexivity].
      by rewrite Hlen.
  - rewrite (proj2 (N.leb_le 1000 (0 + d))) by lia. split.
    + cbn [planets set_loading]. rewrite PA, P0. reflexivity.
    + rewrite star_coords_loading. unfold star_coords. rewrite SA, S0, HA, Hh0. exact Hlen.
Qed.

End Theorems.

(** A phone-sized page with no charts, counters or lazy targets. *)
Definition phone_markup : markup :=
  Markup (SceneAnimator.Window 375 667 2 None) (fun _ => 1%nat) [] [] None [].

Lemma optimize_race_witness :
  (SceneAnimator.innerWidth (win0 phone_markup) < 768 /\ (1000 <= 1500 + 1000)%N) /\
  length (SceneAnimator.planets (page_world (@run_page quarter_random flat_trig SmoothScrolling.step_pow2
            phone_markup [Wait 0 1500; DOMContentLoaded; Wait 0 1000]
            (page_at_load phone_markup)))) = 4%nat.
Proof.
  assert (H1 : SceneAnimator.innerWidth (win0 phone_markup) < 768) by qnum.
  assert (H2 : (1000 <= 1500 + 1000)%N) by lia.
  split; [split; [exact H1|exact H2]|].
  exact (proj1 (@optimize_race quarter_random flat_trig SmoothScrolling.step_pow2 phone_markup 1500 1000 0 0 H1 H2)).
Defined.

End Bootstrap.
